(** * AlbumOfTheYearAPI: a shallow embedding of the scraping client

    The development follows the Python sources file by file:
    - [Python]: the built-ins the client relies on (whitespace handling of
      [str], [str(int)], slicing, exceptions, [json.dumps]);
    - [BS4]: the part of the parsed-document interface the client calls
      ([find], [find_all], [getText]);
    - [AlbumPy]: [album.py] (the [Album] record and [AlbumMethods]);
    - [ArtistPy]: [artist.py] ([ArtistMethods] and its one-slot page cache);
    - [UserPy]: [user.py] ([UserMethods]).

    Python [str] values are modelled by [string]; a character is a code
    point below 256.  Python [int] is [Z].  Methods that touch the network or
    mutate the instance are functions in a state-and-exception monad; the
    network is an oracle that may answer differently on every request. *)

From Stdlib Require Import ZArith String Ascii List Lia DecimalString.
From Stdlib Require DecimalZ DecimalPos.
From stdpp Require Import base strings gmap list.

Set Warnings "-register-all".

(** ** Python built-ins *)

Module Python.

(** [str.isspace] on the code points below 256. *)
Definition isspace (c : ascii) : bool :=
  let n := nat_of_ascii c in
  ((9 <=? n) && (n <=? 13) || (28 <=? n) && (n <=? 32)
   || (n =? 133) || (n =? 160))%nat.

Fixpoint lstrip (s : string) : string :=
  match s with
  | EmptyString => EmptyString
  | String c s' => if isspace c then lstrip s' else s
  end.

Fixpoint rstrip (s : string) : string :=
  match s with
  | EmptyString => EmptyString
  | String c s' =>
      match rstrip s' with
      | EmptyString => if isspace c then EmptyString else String c EmptyString
      | r => String c r
      end
  end.

(** [s.strip()] *)
Definition strip (s : string) : string := rstrip (lstrip s).

(** [s.split()]: the maximal runs of non-whitespace characters. *)
Fixpoint split (s : string) : list string :=
  match s with
  | EmptyString => []
  | String c s' =>
      if isspace c then split s'
      else match s' with
           | EmptyString => [String c EmptyString]
           | String c' _ =>
               if isspace c' then String c EmptyString :: split s'
               else match split s' with
                    | t :: ts => String c t :: ts
                    | [] => [String c EmptyString]
                    end
           end
  end.

(** [sep.join(l)] *)
Fixpoint join (sep : string) (l : list string) : string :=
  match l with
  | [] => ""
  | [x] => x
  | x :: rest => x +:+ sep +:+ join sep rest
  end.

(** [str(n)] for an [int]. *)
Definition str (n : Z) : string := NilZero.string_of_int (Z.to_int n).

(** [s.encode("ascii", "ignore").decode()] drops every non-ASCII character. *)
Fixpoint ascii_ignore (s : string) : string :=
  match s with
  | EmptyString => EmptyString
  | String c s' =>
      if (nat_of_ascii c <? 128)%nat then String c (ascii_ignore s')
      else ascii_ignore s'
  end.

(** The value under the key [k] in a list of items. *)
Fixpoint assoc (k : string) (l : list (string * string)) : option string :=
  match l with
  | [] => None
  | (k', v) :: l' => if String.eqb k k' then Some v else assoc k l'
  end.

(** [l[:k]] *)
Definition slice_to {A} (k : Z) (l : list A) : list A :=
  if (k <? 0)%Z then take (length l - Z.to_nat (- k)) l
  else take (Z.to_nat k) l.

(** [l[i]], with Python's negative indices. *)
Definition getitem {A} (l : list A) (i : Z) : option A :=
  if (i <? 0)%Z then
    if (Z.of_nat (length l) + i <? 0)%Z then None
    else l !! Z.to_nat (Z.of_nat (length l) + i)
  else l !! Z.to_nat i.

(** [range(a, b)] *)
Definition range (a b : Z) : list Z := seqZ a (b - a).

(** The exceptions the client raises or meets.  All of them derive from
    [Exception], so [except Exception] and a bare [except] catch each one. *)
Inductive exn : Type :=
  | Exception (msg : string)
  | AttributeError (msg : string)
  | KeyError (key : string)
  | IndexError (msg : string)
  | URLError (reason : string)
  | RecursionError.

(** [str(e)] *)
Definition str_exn (e : exn) : string :=
  match e with
  | Exception msg => msg
  | AttributeError msg => msg
  | KeyError key => "'" +:+ key +:+ "'"
  | IndexError msg => msg
  | URLError reason => "<urlopen error " +:+ reason +:+ ">"
  | RecursionError => "maximum recursion depth exceeded"
  end.

(** A computation over a mutable state [S] that returns a value or raises;
    the state survives a raise, as attribute updates do in Python. *)
Definition M (S A : Type) : Type := S -> (exn + A) * S.

Definition ret {S A} (a : A) : M S A := fun s => (inr a, s).

Definition bind {S A B} (m : M S A) (k : A -> M S B) : M S B :=
  fun s => match m s with
           | (inr a, s') => k a s'
           | (inl e, s') => (inl e, s')
           end.

Definition raise {S A} (e : exn) : M S A := fun s => (inl e, s).

(** [try: m except Exception as e: ...] hands the outcome to the caller. *)
Definition try_except {S A} (m : M S A) : M S (exn + A) :=
  fun s => let '(r, s') := m s in (inr r, s').

Definition gets {S A} (f : S -> A) : M S A := fun s => (inr (f s), s).

Definition modify {S} (f : S -> S) : M S unit := fun s => (inr tt, f s).

(** A pure step that may raise. *)
Definition lift {S A} (r : exn + A) : M S A := fun s => (r, s).

Declare Scope py_scope.
Delimit Scope py_scope with py.
Notation "x <- m ;; k" := (bind m (fun x => k))
  (at level 100, m at next level, right associativity) : py_scope.
Notation "m ;;; k" := (bind m (fun _ => k))
  (at level 100, right associativity) : py_scope.

(** *** [json.dumps]

    Only the values the client serialises: strings, lists and dicts. *)
Inductive json : Type :=
  | JString (s : string)
  | JList (l : list json)
  | JDict (items : list (string * json)).

Definition dquote : ascii := "034"%char.
Definition backslash : ascii := "092"%char.
Definition newline : ascii := "010"%char.

Definition hex_digit (n : nat) : ascii :=
  if (n <? 10)%nat then ascii_of_nat (48 + n) else ascii_of_nat (87 + n).

(** One character of a string literal, as [ensure_ascii=True] writes it:
    the quote, the backslash and everything outside [' '..'~'] are escaped. *)
Definition escape_char (c : ascii) : string :=
  let n := nat_of_ascii c in
  if (n =? 34)%nat then String backslash (String dquote "")
  else if (n =? 92)%nat then String backslash (String backslash "")
  else if (n =? 10)%nat then String backslash "n"
  else if (n =? 13)%nat then String backslash "r"
  else if (n =? 9)%nat then String backslash "t"
  else if (n =? 12)%nat then String backslash "f"
  else if (n =? 8)%nat then String backslash "b"
  else if ((32 <=? n) && (n <=? 126))%nat then String c ""
  else String backslash
         (String "u" (String "0" (String "0"
            (String (hex_digit (n / 16)) (String (hex_digit (n mod 16)) ""))))).

Fixpoint escape (s : string) : string :=
  match s with
  | EmptyString => EmptyString
  | String c s' => escape_char c +:+ escape s'
  end.

Definition encode_string (s : string) : string :=
  String dquote (escape s +:+ String dquote "").

(** [json.dumps(j)] with the default separators. *)
Fixpoint dumps (j : json) : string :=
  match j with
  | JString s => encode_string s
  | JList l => "[" +:+ join ", " (map dumps l) +:+ "]"
  | JDict items =>
      "{" +:+ join ", "
                (map (fun kv => encode_string (fst kv) +:+ ": " +:+ dumps (snd kv))
                     items)
          +:+ "}"
  end.

(** [sorted(items)] by key, as [sort_keys=True] orders a dict. *)
Fixpoint insert_by_key {A} (kv : string * A) (l : list (string * A))
  : list (string * A) :=
  match l with
  | [] => [kv]
  | kv' :: l' =>
      if String.leb (fst kv) (fst kv') then kv :: l
      else kv' :: insert_by_key kv l'
  end.

Definition sort_keys {A} (l : list (string * A)) : list (string * A) :=
  foldr insert_by_key [] l.

(** [json.dumps(j, sort_keys=True, indent=0)]: one item per line, no
    indentation, [","] at the end of a line and [": "] after a key. *)
Fixpoint dumps_sorted_indent0 (j : json) : string :=
  let nl := String newline "" in
  match j with
  | JString s => encode_string s
  | JList [] => "[]"
  | JList l =>
      "[" +:+ nl +:+ join ("," +:+ nl) (map dumps_sorted_indent0 l)
          +:+ nl +:+ "]"
  | JDict [] => "{}"
  | JDict items =>
      "{" +:+ nl
          +:+ join ("," +:+ nl)
                (map (fun kv => encode_string (fst kv) +:+ ": " +:+ snd kv)
                     (sort_keys
                        (map (fun kv => (fst kv, dumps_sorted_indent0 (snd kv)))
                             items)))
          +:+ nl +:+ "}"
  end.

(** *** [json.loads] on flat objects

    The reader for what [Album.to_JSON] writes: an object whose values are
    strings.  It follows the grammar [json.loads] accepts (whitespace between
    tokens, the escapes of a string literal, no raw control character inside
    one); an escape above code point 255 has no counterpart in [string] and
    is refused. *)
Definition hex_value (c : ascii) : option nat :=
  let n := nat_of_ascii c in
  if ((48 <=? n) && (n <=? 57))%nat then Some (n - 48)%nat
  else if ((97 <=? n) && (n <=? 102))%nat then Some (n - 87)%nat
  else if ((65 <=? n) && (n <=? 70))%nat then Some (n - 55)%nat
  else None.

Definition hex4 (a b c d : ascii) : option nat :=
  match hex_value a, hex_value b, hex_value c, hex_value d with
  | Some x, Some y, Some z, Some w =>
      Some (((x * 16 + y) * 16 + z) * 16 + w)%nat
  | _, _, _, _ => None
  end.

Definition unescape (e : ascii) : option ascii :=
  let n := nat_of_ascii e in
  if (n =? 34)%nat then Some dquote
  else if (n =? 92)%nat then Some backslash
  else if (n =? 47)%nat then Some "/"%char
  else if (n =? 98)%nat then Some "008"%char
  else if (n =? 102)%nat then Some "012"%char
  else if (n =? 110)%nat then Some "010"%char
  else if (n =? 114)%nat then Some "013"%char
  else if (n =? 116)%nat then Some "009"%char
  else None.

(** The body of a string literal, from just after its opening quote: the
    decoded text and what follows the closing quote. *)
Fixpoint scanstring (s : string) : option (string * string) :=
  match s with
  | EmptyString => None
  | String c s' =>
      let n := nat_of_ascii c in
      if (n =? 34)%nat then Some (EmptyString, s')
      else if (n =? 92)%nat then
        match s' with
        | EmptyString => None
        | String e s'' =>
            if (nat_of_ascii e =? 117)%nat then
              match s'' with
              | String h1 (String h2 (String h3 (String h4 rest))) =>
                  match hex4 h1 h2 h3 h4 with
                  | Some v =>
                      if (v <? 256)%nat then
                        match scanstring rest with
                        | Some (t, r) => Some (String (ascii_of_nat v) t, r)
                        | None => None
                        end
                      else None
                  | None => None
                  end
              | _ => None
              end
            else
              match unescape e with
              | Some ch =>
                  match scanstring s'' with
                  | Some (t, r) => Some (String ch t, r)
                  | None => None
                  end
              | None => None
              end
        end
      else if (n <? 32)%nat then None
      else match scanstring s' with
           | Some (t, r) => Some (String c t, r)
           | None => None
           end
  end.

Definition json_space (c : ascii) : bool :=
  let n := nat_of_ascii c in
  ((n =? 32) || (n =? 9) || (n =? 10) || (n =? 13))%nat.

Fixpoint skip_ws (s : string) : string :=
  match s with
  | EmptyString => EmptyString
  | String c s' => if json_space c then skip_ws s' else s
  end.

(** [key: value] as [dumps] writes an item whose value is a string. *)
Definition item (k v : string) : string :=
  encode_string k +:+ ": " +:+ encode_string v.

(** The next token must be the character [c]. *)
Definition expect (c : ascii) (s : string) : option string :=
  match skip_ws s with
  | String c' s' => if Ascii.eqb c c' then Some s' else None
  | EmptyString => None
  end.

(** The members of an object, from its first key to its closing brace. *)
Fixpoint parse_members (fuel : nat) (s : string)
  : option (list (string * string) * string) :=
  match fuel with
  | O => None
  | S fuel' =>
      s1 ← expect dquote s;
      '(k, s2) ← scanstring s1;
      s3 ← expect ":"%char s2;
      s4 ← expect dquote s3;
      '(v, s5) ← scanstring s4;
      match skip_ws s5 with
      | String c s6 =>
          if Ascii.eqb c ","%char then
            '(items, s7) ← parse_members fuel' s6;
            Some ((k, v) :: items, s7)
          else if Ascii.eqb c "}"%char then Some ([(k, v)], s6)
          else None
      | EmptyString => None
      end
  end.

(** [json.loads(s)] for an object of strings, as the list of its items. *)
Definition loads_object (s : string) : option (list (string * string)) :=
  s1 ← expect "{"%char s;
  match expect "}"%char s1 with
  | Some s2 => if String.eqb (skip_ws s2) "" then Some [] else None
  | None =>
      '(items, s2) ← parse_members (String.length s) s1;
      if String.eqb (skip_ws s2) "" then Some items else None
  end.

(** A dict whose values are strings, as the [*_json] methods build them. *)
Definition flat_dict (items : list (string * string)) : json :=
  JDict (map (fun kv => (fst kv, JString (snd kv))) items).

End Python.

Import Python.
Local Open Scope py_scope.

(** ** The parsed-document interface (BeautifulSoup) *)

Module BS4.

Inductive Node : Type :=
  | NavigableString (s : string)
  | Tag (name : string) (attrs : list (string * string)) (contents : list Node).

(** Every node below [n], in document order. *)
Fixpoint descendants (n : Node) : list Node :=
  match n with
  | NavigableString _ => []
  | Tag _ _ cs => List.flat_map (fun c => c :: descendants c) cs
  end.

(** [n.getText()]: the text below [n], untrimmed. *)
Fixpoint getText (n : Node) : string :=
  match n with
  | NavigableString s => s
  | Tag _ _ cs => String.concat "" (map getText cs)
  end.

Fixpoint stripped_strings (n : Node) : list string :=
  match n with
  | NavigableString s =>
      let t := strip s in if String.eqb t "" then [] else [t]
  | Tag _ _ cs => List.flat_map stripped_strings cs
  end.

(** [n.get_text(strip=True)] *)
Definition get_text_strip (n : Node) : string :=
  String.concat "" (stripped_strings n).

Definition tag_name (n : Node) : option string :=
  match n with
  | NavigableString _ => None
  | Tag name _ _ => Some name
  end.

Definition get_attr (k : string) (n : Node) : option string :=
  match n with
  | NavigableString _ => None
  | Tag _ attrs _ => assoc k attrs
  end.

Definition is_tag (name : string) (n : Node) : bool :=
  match tag_name n with
  | Some name' => String.eqb name name'
  | None => false
  end.

(** The [class] filter: one of the whitespace-separated classes of the tag
    is [c], or the whole attribute is. *)
Definition has_class (c : string) (n : Node) : bool :=
  match get_attr "class" n with
  | Some v =>
      existsb (String.eqb c) (split v) || String.eqb c (join " " (split v))
  | None => false
  end.

Definition has_attr (k v : string) (n : Node) : bool :=
  match get_attr k n with
  | Some v' => String.eqb v v'
  | None => false
  end.

(** [n.find_all(...)], the filter given as a predicate on nodes. *)
Definition find_all (p : Node -> bool) (n : Node) : list Node :=
  List.filter p (descendants n).

(** [n.find(...)]: the first match, or [None]. *)
Definition find (p : Node -> bool) (n : Node) : option Node :=
  head (find_all p n).

End BS4.

(** ** album.py *)

Module AlbumPy.

(** [class Album]; the constructor takes [(name, artist, date)]. *)
Record Album : Type := mkAlbum {
  name : string;
  artist : string;
  release_date : string
}.

(** The release carries the date label [label]. *)
Definition dated (label : string) (a : Album) : Prop := release_date a = label.

#[global] Instance dated_dec label a : Decision (dated label a) :=
  String.eq_dec (release_date a) label.

(** [o.__dict__]: the attributes in the order [__init__] assigns them. *)
Definition Album_dict (o : Album) : list (string * json) :=
  [("name", JString (name o));
   ("artist", JString (artist o));
   ("release_date", JString (release_date o))].

Definition to_JSON (o : Album) : string :=
  dumps_sorted_indent0 (JDict (Album_dict o)).

(** [class AlbumMethods].  Its three attributes are never reassigned. *)
Definition upcoming_album_class : string := "albumBlock five small".
Definition aoty_albums_per_page : Z := 60.
Definition page_limit : Z := 21.

Definition _build_error_response (error_type msg : string) : json :=
  JDict [("error", JString error_type); ("message", JString msg)].

Definition month_names : list string :=
  ["Jan"; "Feb"; "Mar"; "Apr"; "May"; "Jun";
   "Jul"; "Aug"; "Sep"; "Oct"; "Nov"; "Dec"].

Definition _map_month_number_to_name (month_number : Z) : exn + string :=
  if negb ((1 <=? month_number)%Z && (month_number <=? 12)%Z)
  then inl (Exception "Invalid month number")
  else match getitem month_names (month_number - 1) with
       | Some m => inr m
       | None => inl (IndexError "list index out of range")
       end.

(** [x.getText()] where [x] may be [None]. *)
Definition getText_of (x : option BS4.Node) : exn + string :=
  match x with
  | Some n => inr (BS4.getText n)
  | None => inl (AttributeError "'NoneType' object has no attribute 'getText'")
  end.

Definition find_div_class (c : string) (n : BS4.Node) : option BS4.Node :=
  BS4.find (fun x => BS4.is_tag "div" x && BS4.has_class c x) n.

(** The body of the loop of [_parse_albums]: the record of one block. *)
Definition parse_block (album : BS4.Node) : exn + Album :=
  match getText_of (find_div_class "artistTitle" album) with
  | inl e => inl e
  | inr artist =>
      match getText_of (find_div_class "albumTitle" album) with
      | inl e => inl e
      | inr title =>
          match getText_of (find_div_class "type" album) with
          | inl e => inl e
          | inr date => inr (mkAlbum title artist date)
          end
      end
  end.

(** The loop of [_parse_albums], [parsed_albums] being the accumulator. *)
Fixpoint _parse_albums_loop (unparsed_albums : list BS4.Node)
    (parsed_albums : list Album) : exn + list Album :=
  match unparsed_albums with
  | [] => inr parsed_albums
  | album :: rest =>
      match parse_block album with
      | inl e => inl e
      | inr a => _parse_albums_loop rest (parsed_albums ++ [a])
      end
  end.

Definition _parse_albums (unparsed_albums : list BS4.Node) : exn + list Album :=
  _parse_albums_loop unparsed_albums [].

Section AlbumMethods.

(** The site: the answer to a request for a URL, given the requests made
    before it.  The state of an [AlbumMethods] run is that list of requests. *)
Variable urlopen : list string -> string -> exn + BS4.Node.

Definition _get_release_page_from_request (url : string)
  : M (list string) BS4.Node :=
  fun requests => (urlopen requests url, requests ++ [url]).

Definition page_url (page_number : Z) : string :=
  "https://www.albumoftheyear.org/upcoming/"
    +:+ (if (page_number >? 1)%Z then str page_number +:+ "/" else "").

(** [page.find_all("div", {"class": self.upcoming_album_class})] *)
Definition upcoming_blocks (page : BS4.Node) : list BS4.Node :=
  BS4.find_all
    (fun x => BS4.is_tag "div" x && BS4.has_class upcoming_album_class x) page.

Definition _get_upcoming_releases_by_page (page_number : Z)
  : M (list string) (list Album) :=
  if (page_number >? page_limit)%Z
  then raise (Exception "Page number out of range")
  else
    page <- _get_release_page_from_request (page_url page_number) ;;
    let albums := upcoming_blocks page in
    lift (_parse_albums albums).

(** What fetching the pages [ps] one after the other returns, up to the
    first fetch that fails (used to state what a scan has read). *)
Fixpoint pages_read (ps : list Z) (requests : list string)
  : list (list Album) :=
  match ps with
  | [] => []
  | p :: rest =>
      match _get_upcoming_releases_by_page p requests with
      | (inr page, requests') => page :: pages_read rest requests'
      | (inl _, _) => []
      end
  end.

Definition albums_response (albums : list Album) : string :=
  dumps (JDict [("albums", JList (map (fun a => JString (to_JSON a)) albums))]).

(** What the [except] branch of [upcoming_releases_by_limit] returns. *)
Definition page_limit_error (e : exn) : string :=
  dumps (_build_error_response "Page Limit Error"
           ("Number of albums exceeded page limit. Exception raise: ."
              +:+ str_exn e)).

(** The [for page_number in range(...)] loop of [upcoming_releases_by_limit];
    a fault inside the [try] returns from the method at once. *)
Fixpoint by_limit_loop (pages : list Z) (albums : list Album) (counter : Z)
  : M (list string) string :=
  match pages with
  | [] => ret (albums_response albums)
  | page_number :: rest =>
      r <- try_except (_get_upcoming_releases_by_page page_number) ;;
      match r with
      | inl e => ret (page_limit_error e)
      | inr page =>
          if (counter <? aoty_albums_per_page)%Z
          then by_limit_loop rest (albums ++ slice_to counter page) counter
          else by_limit_loop rest (albums ++ page)
                 (counter - aoty_albums_per_page)
      end
  end.

Definition max_page_number (total : Z) : Z :=
  let m := (total / aoty_albums_per_page)%Z in
  if negb (total mod aoty_albums_per_page =? 0)%Z then (m + 1)%Z else m.

Definition upcoming_releases_by_limit (total : Z) : M (list string) string :=
  let min_page_number := 1%Z in
  by_limit_loop (range min_page_number (max_page_number total + 1)) [] total.

Definition upcoming_releases_by_page (page_number : Z)
  : M (list string) string :=
  r <- try_except (_get_upcoming_releases_by_page page_number) ;;
  match r with
  | inl _ =>
      ret (dumps
             (_build_error_response "Page Limit Error"
                "The page number requested is out of range."))
  | inr parsed_albums => ret (albums_response parsed_albums)
  end.

(** The [for album in albums] loop of the by-date scan, on
    [(result_albums, complete)]. *)
Definition scan_page (target_date next_date : string) (albums : list Album)
    (st : list Album * bool) : list Album * bool :=
  fold_left
    (fun '(result_albums, complete) album =>
       (if String.eqb (release_date album) target_date
        then result_albums ++ [album] else result_albums,
        if String.eqb (release_date album) next_date
        then true else complete))
    albums st.

(** The [while not complete] loop.  [fuel] bounds the number of iterations
    the model follows; [None] means the loop is still running after them. *)
Fixpoint by_date_loop (fuel : nat) (target_date next_date : string)
    (page_number : Z) (result_albums : list Album)
  : M (list string) (option (list Album)) :=
  match fuel with
  | O => ret None
  | S fuel' =>
      albums <- _get_upcoming_releases_by_page page_number ;;
      let '(result_albums', complete) :=
        scan_page target_date next_date albums (result_albums, false) in
      if complete then ret (Some result_albums')
      else by_date_loop fuel' target_date next_date (page_number + 1)
             result_albums'
  end.

Definition _get_upcoming_releases_by_date (fuel : nat) (month day : Z)
  : M (list string) (option (list Album)) :=
  month_name <- lift (_map_month_number_to_name month) ;;
  let target_date := strip (month_name +:+ " " +:+ str day) in
  let next_date := strip (month_name +:+ " " +:+ str (day + 1)) in
  by_date_loop fuel target_date next_date 1 [].

Definition upcoming_releases_by_date (fuel : nat) (month day : Z)
  : M (list string) (option string) :=
  r <- try_except (_get_upcoming_releases_by_date fuel month day) ;;
  match r with
  | inl e =>
      ret (Some (dumps (_build_error_response "Releases by date Error: "
                          (str_exn e))))
  | inr None => ret None
  | inr (Some parsed_albums) => ret (Some (albums_response parsed_albums))
  end.

End AlbumMethods.

End AlbumPy.

(** ** artist.py *)

Module ArtistPy.

(** An [ArtistMethods] instance.  An attribute that [__init__] does not
    assign is [None] until its first assignment, and reading it then raises
    [AttributeError].  [requests] is not an attribute: it records the
    requests sent so far.  ([self.req] is only ever read by the line that
    follows its assignment and is left out; [self.artist_url] is never
    reassigned and is the constant [artist_url].) *)
Record ArtistMethods : Type := mkArtistMethods {
  artist : string;
  url : string;
  albums : list string;
  artist_page : option BS4.Node;
  mixtapes : option (list string);
  eps : option (list string);
  singles : option (list string);
  similar_artists_cat : option (list string);
  top_songs : option (list string);
  requests : list string
}.

Definition artist_url : string := "https://www.albumoftheyear.org/artist/".

(** [ArtistMethods()] *)
Definition init : ArtistMethods :=
  mkArtistMethods "" "" [] None None None None None None [].

Definition set_artist (v : string) (o : ArtistMethods) : ArtistMethods :=
  mkArtistMethods v (url o) (albums o) (artist_page o) (mixtapes o) (eps o)
    (singles o) (similar_artists_cat o) (top_songs o) (requests o).
Definition set_url (v : string) (o : ArtistMethods) : ArtistMethods :=
  mkArtistMethods (artist o) v (albums o) (artist_page o) (mixtapes o) (eps o)
    (singles o) (similar_artists_cat o) (top_songs o) (requests o).
Definition set_albums (v : list string) (o : ArtistMethods) : ArtistMethods :=
  mkArtistMethods (artist o) (url o) v (artist_page o) (mixtapes o) (eps o)
    (singles o) (similar_artists_cat o) (top_songs o) (requests o).
Definition set_artist_page (v : BS4.Node) (o : ArtistMethods) : ArtistMethods :=
  mkArtistMethods (artist o) (url o) (albums o) (Some v) (mixtapes o) (eps o)
    (singles o) (similar_artists_cat o) (top_songs o) (requests o).
Definition set_mixtapes (v : list string) (o : ArtistMethods) : ArtistMethods :=
  mkArtistMethods (artist o) (url o) (albums o) (artist_page o) (Some v) (eps o)
    (singles o) (similar_artists_cat o) (top_songs o) (requests o).
Definition set_eps (v : list string) (o : ArtistMethods) : ArtistMethods :=
  mkArtistMethods (artist o) (url o) (albums o) (artist_page o) (mixtapes o)
    (Some v) (singles o) (similar_artists_cat o) (top_songs o) (requests o).
Definition set_singles (v : list string) (o : ArtistMethods) : ArtistMethods :=
  mkArtistMethods (artist o) (url o) (albums o) (artist_page o) (mixtapes o)
    (eps o) (Some v) (similar_artists_cat o) (top_songs o) (requests o).
Definition set_similar_artists_cat (v : list string) (o : ArtistMethods)
  : ArtistMethods :=
  mkArtistMethods (artist o) (url o) (albums o) (artist_page o) (mixtapes o)
    (eps o) (singles o) (Some v) (top_songs o) (requests o).
Definition set_top_songs (v : list string) (o : ArtistMethods) : ArtistMethods :=
  mkArtistMethods (artist o) (url o) (albums o) (artist_page o) (mixtapes o)
    (eps o) (singles o) (similar_artists_cat o) (Some v) (requests o).
Definition add_request (u : string) (o : ArtistMethods) : ArtistMethods :=
  mkArtistMethods (artist o) (url o) (albums o) (artist_page o) (mixtapes o)
    (eps o) (singles o) (similar_artists_cat o) (top_songs o)
    (requests o ++ [u]).

(** Reading an attribute that may not have been assigned yet. *)
Definition getattr {A} (attr_name : string) (f : ArtistMethods -> option A)
  : M ArtistMethods A :=
  fun o =>
    match f o with
    | Some v => (inr v, o)
    | None =>
        (inl (AttributeError
                ("'ArtistMethods' object has no attribute '"
                   +:+ attr_name +:+ "'")), o)
    end.

(** [d[k]] on a dict *)
Definition dict_getitem {A} (d : gmap string A) (k : string) : exn + A :=
  match d !! k with
  | Some v => inr v
  | None => inl (KeyError k)
  end.

Definition find_div_class (c : string) (n : BS4.Node) : option BS4.Node :=
  BS4.find (fun x => BS4.is_tag "div" x && BS4.has_class c x) n.

Definition album_name_of (album_title_div : BS4.Node) : string :=
  strip (ascii_ignore (BS4.getText album_title_div)).

(** [categorized_albums[current_category].append(album_name)] when the
    title [div] was found ([if album_title_div:]); the key is there since
    the heading was met. *)
Definition append_found (categorized_albums : gmap string (list string))
    (current_category : string) (album_title_div : option BS4.Node)
  : gmap string (list string) :=
  match album_title_div with
  | Some d =>
      alter (fun l => l ++ [album_name_of d]) current_category
        categorized_albums
  | None => categorized_albums
  end.

(** One turn of the [for element in elements] loop of [__get_discography],
    on [(categorized_albums, current_category)]. *)
Definition classify_step (st : gmap string (list string) * option string)
    (element : BS4.Node) : gmap string (list string) * option string :=
  let '(categorized_albums, current_category) := st in
  if BS4.is_tag "h2" element then
    let c := BS4.get_text_strip element in
    (<[c := []]> categorized_albums, Some c)
  else
    match current_category with
    | Some c =>
        if BS4.is_tag "div" element && String.eqb c "Similar Artists" then
          (append_found categorized_albums c (find_div_class "name" element),
           current_category)
        else if BS4.is_tag "div" element && negb (String.eqb c "") then
          (append_found categorized_albums c
             (find_div_class "albumTitle" element),
           current_category)
        else st
    | None => st
    end.

(** [categorized_albums] after the loop, for the page [page]. *)
Definition classify (page : BS4.Node) : gmap string (list string) :=
  let elements :=
    BS4.find_all (fun x => BS4.is_tag "h2" x || BS4.is_tag "div" x) page in
  fst (fold_left classify_step elements (∅, None)).

(** The [for row in rows] loop of [__get_community_data]. *)
Definition top_songs_of (page : BS4.Node) : list string :=
  let rows := BS4.find_all (BS4.is_tag "tr") page in
  fold_left
    (fun extracted_texts row =>
       match BS4.find (fun x => BS4.is_tag "td" x && BS4.has_class "songAlbum" x)
               row with
       | Some song_album_div =>
           match BS4.find (BS4.is_tag "a") song_album_div with
           | Some link => extracted_texts ++ [strip (BS4.getText link)]
           | None => extracted_texts
           end
       | None => extracted_texts
       end)
    rows [].

(** What the block [element] adds to the category [c] it is met under:
    the name of a similar artist, the title of a release, or nothing. *)
Definition section_entry (c : string) (element : BS4.Node) : option string :=
  if BS4.is_tag "div" element && String.eqb c "Similar Artists" then
    album_name_of <$> find_div_class "name" element
  else if BS4.is_tag "div" element && negb (String.eqb c "") then
    album_name_of <$> find_div_class "albumTitle" element
  else None.

(** [find_all(["h2", "div"])] *)
Definition headings_and_blocks (page : BS4.Node) : list BS4.Node :=
  BS4.find_all (fun x => BS4.is_tag "h2" x || BS4.is_tag "div" x) page.

(** The headings [__get_discography] looks up, in the order it does. *)
Definition required_categories : list string :=
  ["Albums"; "Mixtapes"; "EPs"; "SinglesView All"; "Similar Artists"].

(** The first required heading a classification lacks, if any. *)
Definition first_missing (categorized_albums : gmap string (list string))
  : option string :=
  head (List.filter
          (fun k => bool_decide (categorized_albums !! k = None))
          required_categories).

(** The URL of an artist's page. *)
Definition url_of (artist : string) : string :=
  artist_url +:+ artist +:+ "/".

(** The instance once the page [page] of [artist] is loaded: every attribute
    comes from the page, and only the list of requests from the past. *)
Definition populated (artist : string) (page : BS4.Node)
    (requests : list string) : ArtistMethods :=
  let cat k := default [] (classify page !! k) in
  mkArtistMethods artist (url_of artist) (cat "Albums") (Some page)
    (Some (cat "Mixtapes")) (Some (cat "EPs")) (Some (cat "SinglesView All"))
    (Some (cat "Similar Artists")) (Some (top_songs_of page)) requests.

Section ArtistMethods.

Variable urlopen : list string -> string -> exn + BS4.Node.

(** [urlopen(self.req).read()], parsed. *)
Definition fetch (u : string) : M ArtistMethods BS4.Node :=
  fun o => (urlopen (requests o) u, add_request u o).

(** The five assignments that end [__get_discography]; each lookup raises
    [KeyError] when the heading was not on the page. *)
Definition store_discography (categorized_albums : gmap string (list string))
  : M ArtistMethods unit :=
  v <- lift (dict_getitem categorized_albums "Albums") ;;
  modify (set_albums v) ;;;
  v <- lift (dict_getitem categorized_albums "Mixtapes") ;;
  modify (set_mixtapes v) ;;;
  v <- lift (dict_getitem categorized_albums "EPs") ;;
  modify (set_eps v) ;;;
  v <- lift (dict_getitem categorized_albums "SinglesView All") ;;
  modify (set_singles v) ;;;
  v <- lift (dict_getitem categorized_albums "Similar Artists") ;;
  modify (set_similar_artists_cat v).

(** [__get_discography]; [set_page] is the method [__set_artist_page] it
    calls back when another URL is resident. *)
Definition __get_discography
    (set_page : string -> string -> M ArtistMethods unit) (artist : string)
  : M ArtistMethods unit :=
  let url' := artist_url +:+ artist +:+ "/" in
  u <- gets url ;;
  (if bool_decide (u <> url') then set_page artist url' else ret tt) ;;;
  page <- getattr "artist_page" artist_page ;;
  store_discography (classify page).

Definition __get_community_data
    (set_page : string -> string -> M ArtistMethods unit) (artist : string)
  : M ArtistMethods unit :=
  let url' := artist_url +:+ artist +:+ "/" in
  u <- gets url ;;
  (if bool_decide (u <> url') then set_page artist url' else ret tt) ;;;
  page <- getattr "artist_page" artist_page ;;
  modify (set_top_songs (top_songs_of page)).

(** [__set_artist_page].  It and the two methods above call each other;
    [depth] is the number of nested activations the interpreter has room
    for, and running out of it is Python's [RecursionError]. *)
Fixpoint __set_artist_page (depth : nat) (artist url : string)
  : M ArtistMethods unit :=
  match depth with
  | O => raise RecursionError
  | S depth' =>
      modify (set_artist artist) ;;;
      modify (set_url url) ;;;
      page <- fetch url ;;
      modify (set_artist_page page) ;;;
      __get_discography (__set_artist_page depth') artist ;;;
      __get_community_data (__set_artist_page depth') artist
  end.

(** [sys.getrecursionlimit()] *)
Definition recursion_limit : nat := 1000.

(** The shared head of the collection accessors:
    [if self.url != url: self.__set_artist_page(artist, url)]. *)
Definition ensure_page (artist : string) : M ArtistMethods unit :=
  let url' := artist_url +:+ artist +:+ "/" in
  u <- gets url ;;
  if bool_decide (u <> url') then __set_artist_page recursion_limit artist url'
  else ret tt.

Definition artist_albums (artist : string) : M ArtistMethods (list string) :=
  ensure_page artist ;;; gets albums.

Definition artist_mixtapes (artist : string) : M ArtistMethods (list string) :=
  ensure_page artist ;;; getattr "mixtapes" mixtapes.

Definition artist_eps (artist : string) : M ArtistMethods (list string) :=
  ensure_page artist ;;; getattr "eps" eps.

Definition artist_singles (artist : string) : M ArtistMethods (list string) :=
  ensure_page artist ;;; getattr "singles" singles.

Definition artist_top_songs (artist : string) : M ArtistMethods (list string) :=
  ensure_page artist ;;; getattr "top_songs" top_songs.

Definition similar_artists (artist : string) : M ArtistMethods (list string) :=
  ensure_page artist ;;; getattr "similar_artists_cat" similar_artists_cat.

(** [__class_text] *)
Definition __class_text (artist class_name url' : string)
  : M ArtistMethods string :=
  u <- gets url ;;
  (if bool_decide (u <> url')
   then __set_artist_page recursion_limit artist url' else ret tt) ;;;
  page <- getattr "artist_page" artist_page ;;
  lift (AlbumPy.getText_of (BS4.find (BS4.has_class class_name) page)).

Definition artist_name (artist : string) : M ArtistMethods string :=
  __class_text artist "artistHeadline" (artist_url +:+ artist +:+ "/").

Definition artist_critic_score (artist : string) : M ArtistMethods string :=
  __class_text artist "artistCriticScore" (artist_url +:+ artist +:+ "/").

Definition artist_user_score (artist : string) : M ArtistMethods string :=
  __class_text artist "artistUserScore" (artist_url +:+ artist +:+ "/").

Definition artist_follower_count (artist : string) : M ArtistMethods string :=
  __class_text artist "followCount" (artist_url +:+ artist +:+ "/").

Definition artist_details (artist : string) : M ArtistMethods string :=
  __class_text artist "artistTopBox info" (artist_url +:+ artist +:+ "/").

Definition artist_name_json (artist : string) : M ArtistMethods string :=
  v <- artist_name artist ;; ret (dumps (flat_dict [("name", v)])).

End ArtistMethods.

End ArtistPy.

(** ** user.py *)

Module UserPy.

Record UserMethods : Type := mkUserMethods {
  user : string;
  url : string;
  user_page : option BS4.Node;
  requests : list string
}.

Definition user_url : string := "https://www.albumoftheyear.org/user/".

(** [UserMethods()] *)
Definition init : UserMethods := mkUserMethods "" "" None [].

(** [tag_content.split()[-1].strip() if tag_content.strip() else "0"] *)
Definition rating_of (tag_content : string) : exn + string :=
  if negb (String.eqb (strip tag_content) "") then
    match getitem (split tag_content) (-1) with
    | Some t => inr (strip t)
    | None => inl (IndexError "list index out of range")
    end
  else inr "0".

(** The [for i in range(11)] loop of [user_rating_distribution]. *)
Fixpoint distribution_loop (indices : list Z) (tags : list BS4.Node)
    (user_rating_distribution : list string) : exn + list string :=
  match indices with
  | [] => inr user_rating_distribution
  | i :: rest =>
      match getitem tags i with
      | None => inl (IndexError "list index out of range")
      | Some tag =>
          match rating_of (BS4.getText tag) with
          | inl e => inl e
          | inr rating =>
              distribution_loop rest tags (user_rating_distribution ++ [rating])
          end
      end
  end.

Definition score_ranges : list string :=
  ["100"; "90-99"; "80-89"; "70-79"; "60-69"; "50-59";
   "40-49"; "30-39"; "20-29"; "10-19"; "0-9"].

(** The dict literal of [user_rating_distribution_json]: key [i] maps to
    [user_rating_distribution[i]]. *)
Fixpoint distribution_dict (keys : list string) (i : Z)
    (user_rating_distribution : list string) : exn + list (string * json) :=
  match keys with
  | [] => inr []
  | k :: keys' =>
      match getitem user_rating_distribution i with
      | None => inl (IndexError "list index out of range")
      | Some v =>
          match distribution_dict keys' (i + 1) user_rating_distribution with
          | inl e => inl e
          | inr items => inr ((k, JString v) :: items)
          end
      end
  end.

(** [page.find(href=href).find(class_="profileStat").getText()] *)
Definition profile_stat (href : string) (page : BS4.Node) : exn + string :=
  match BS4.find (BS4.has_attr "href" href) page with
  | None => inl (AttributeError "'NoneType' object has no attribute 'find'")
  | Some section =>
      AlbumPy.getText_of (BS4.find (BS4.has_class "profileStat") section)
  end.

(** [x = page.find(class_=c)], then [""] if [x is None] and [x.getText()]
    otherwise. *)
Definition text_or_empty (c : string) (page : BS4.Node) : string :=
  match BS4.find (BS4.has_class c) page with
  | None => ""
  | Some x => BS4.getText x
  end.

(** The text of [entry.find(class_=c)], without its non-ASCII characters and
    stripped; [""] when the element is missing. *)
Definition liked_field (c : string) (entry : BS4.Node) : string :=
  match BS4.find (BS4.has_class c) entry with
  | Some e => strip (ascii_ignore (BS4.getText e))
  | None => ""
  end.

(** The body of the loop of [user_liked_music]: what one entry adds. *)
Definition liked_entry (entry : BS4.Node) : option string :=
  let artist := liked_field "artistTitle" entry in
  let album := liked_field "albumTitle" entry in
  if negb (String.eqb artist "") && negb (String.eqb album "")
  then Some (artist +:+ ": " +:+ album)
  else if negb (String.eqb album "") then Some album
  else None.

(** The loop of [user_liked_music], [result] being the accumulator. *)
Definition liked_loop (liked_music : list BS4.Node) : list string :=
  fold_left
    (fun result entry =>
       match liked_entry entry with
       | Some combined => result ++ [combined]
       | None => result
       end)
    liked_music [].

(** The entry of one row: the last whitespace-separated token of its text,
    or ["0"] when the text is blank. *)
Definition entry_of (tag_content : string) : string :=
  if String.eqb (strip tag_content) "" then "0"
  else default "" (last (split tag_content)).

Section UserMethods.

Variable urlopen : list string -> string -> exn + BS4.Node.

Definition __set_user_page (user url : string) : M UserMethods unit :=
  fun o =>
    let requests' := requests o ++ [url] in
    match urlopen (requests o) url with
    | inl e => (inl e, mkUserMethods user url (user_page o) requests')
    | inr page => (inr tt, mkUserMethods user url (Some page) requests')
    end.

(** [if self.url != url or self.user_page is None:
        self.__set_user_page(user, url)] *)
Definition ensure_page (user url' : string) : M UserMethods unit :=
  o <- gets id ;;
  if bool_decide (url o <> url') || bool_decide (user_page o = None)
  then __set_user_page user url' else ret tt.

Definition user_rating_distribution (user : string)
  : M UserMethods (list string) :=
  let url' := user_url +:+ user in
  ensure_page user url' ;;;
  page <- gets user_page ;;
  match page with
  | None =>
      raise (AttributeError "'NoneType' object has no attribute 'findAll'")
  | Some page =>
      let user_rating_distribution_tags :=
        BS4.find_all (BS4.has_class "distRow") page in
      lift (distribution_loop (range 0 11) user_rating_distribution_tags [])
  end.

Definition user_rating_distribution_json (user : string)
  : M UserMethods string :=
  user_rating_distribution <- user_rating_distribution user ;;
  items <- lift (distribution_dict score_ranges 0 user_rating_distribution) ;;
  ret (dumps (JDict items)).

(** [self.user_page], on which a method is about to be called. *)
Definition resident_page : M UserMethods BS4.Node :=
  page <- gets user_page ;;
  match page with
  | None => raise (AttributeError "'NoneType' object has no attribute 'find'")
  | Some page => ret page
  end.

Definition user_rating_count (user : string) : M UserMethods string :=
  ensure_page user (user_url +:+ user) ;;;
  page <- resident_page ;;
  u <- gets UserPy.user ;;
  lift (profile_stat ("/user/" +:+ u +:+ "/ratings/") page).

Definition user_review_count (user : string) : M UserMethods string :=
  ensure_page user (user_url +:+ user) ;;;
  page <- resident_page ;;
  u <- gets UserPy.user ;;
  lift (profile_stat ("/user/" +:+ u +:+ "/reviews/") page).

Definition user_list_count (user : string) : M UserMethods string :=
  ensure_page user (user_url +:+ user) ;;;
  page <- resident_page ;;
  u <- gets UserPy.user ;;
  lift (profile_stat ("/user/" +:+ u +:+ "/lists/") page).

Definition user_follower_count (user : string) : M UserMethods string :=
  ensure_page user (user_url +:+ user) ;;;
  page <- resident_page ;;
  u <- gets UserPy.user ;;
  lift (profile_stat ("/user/" +:+ u +:+ "/followers/") page).

Definition user_about (user : string) : M UserMethods string :=
  ensure_page user (user_url +:+ user) ;;;
  page <- resident_page ;;
  ret (text_or_empty "aboutUser" page).

Definition user_ratings (user : string) : M UserMethods string :=
  ensure_page user (user_url +:+ user) ;;;
  page <- resident_page ;;
  ret (text_or_empty "albumBlock" page).

Definition user_perfect_scores (user : string) : M UserMethods string :=
  ensure_page user (user_url +:+ user +:+ "/ratings/perfect/") ;;;
  page <- resident_page ;;
  ret (text_or_empty "albumBlock" page).

Definition user_liked_music (user : string) : M UserMethods (list string) :=
  ensure_page user (user_url +:+ user +:+ "/liked/albums/") ;;;
  page <- resident_page ;;
  ret (liked_loop (BS4.find_all (BS4.has_class "albumBlock") page)).

Definition user_about_json (user : string) : M UserMethods string :=
  v <- user_about user ;; ret (dumps (flat_dict [("about_user", v)])).

Definition user_rating_count_json (user : string) : M UserMethods string :=
  v <- user_rating_count user ;; ret (dumps (flat_dict [("ratings", v)])).

End UserMethods.

End UserPy.

(** ** Sample documents and sites *)

Module Samples.

Import AlbumPy.

Definition text_div (c text : string) : BS4.Node :=
  BS4.Tag "div" [("class", c)] [BS4.NavigableString text].

(** A listing block as the site marks it up. *)
Definition release_block (a : Album) : BS4.Node :=
  BS4.Tag "div" [("class", "albumBlock five small")]
    [text_div "artistTitle" (artist a);
     text_div "albumTitle" (name a);
     text_div "type" (release_date a)].

(** A block whose date label is missing. *)
Definition block_without_date : BS4.Node :=
  BS4.Tag "div" [("class", "albumBlock five small")]
    [text_div "artistTitle" "Artist Y"; text_div "albumTitle" "Album Y"].

Definition listing_page (albums : list Album) : BS4.Node :=
  BS4.Tag "[document]" []
    [BS4.Tag "html" [] [BS4.Tag "body" [] (map release_block albums)]].

Definition album_x : Album := mkAlbum "Album X" "Artist X" "Mar 10".

(** A site whose every listing page holds sixty releases. *)
Definition full_page : BS4.Node := listing_page (replicate 60 album_x).

Definition full_site : list string -> string -> exn + BS4.Node :=
  fun _ _ => inr full_page.

(** The listing of the by-date example: page 1 mixes the dates, page 2
    follows. *)
Definition jan_page_1 : list Album :=
  [mkAlbum "Album A" "Artist A" "Jan 1";
   mkAlbum "Album B" "Artist B" "Jan 1";
   mkAlbum "Album C" "Artist C" "Jan 2";
   mkAlbum "Album D" "Artist D" "Jan 1";
   mkAlbum "Album D" "Artist D" "Jan 3";
   mkAlbum "Album E" "Artist E" "Jan 4";
   mkAlbum "Album F" "Artist F" "Jan 1"].

Definition jan_page_2 : list Album := [mkAlbum "Album E" "Artist E" "Jan 3"].

Definition jan_site : list string -> string -> exn + BS4.Node :=
  fun _ u =>
    if String.eqb u "https://www.albumoftheyear.org/upcoming/"
    then inr (listing_page jan_page_1)
    else inr (listing_page jan_page_2).

(** An artist page with the five headings, and the same page without its
    "Mixtapes" section. *)
Definition heading (text : string) : BS4.Node :=
  BS4.Tag "h2" [] [BS4.NavigableString text].

Definition title_block (title : string) : BS4.Node :=
  BS4.Tag "div" [("class", "albumBlock")]
    [text_div "albumTitle" title; text_div "artistTitle" "Kanye West"].

Definition name_block (n : string) : BS4.Node :=
  BS4.Tag "div" [("class", "albumBlock")] [text_div "name" n].

Definition song_row (title : string) : BS4.Node :=
  BS4.Tag "tr" []
    [BS4.Tag "td" [("class", "songAlbum")]
       [BS4.Tag "a" [] [BS4.NavigableString title]]].

Definition artist_sections (with_mixtapes : bool) : list BS4.Node :=
  [heading "Albums";
   title_block "The College Dropout"; title_block "Late Registration"]
  ++ (if with_mixtapes
      then [heading "Mixtapes"; title_block "Freshmen Adjustment"]
      else [])
  ++ [heading "EPs"; title_block "808s & Heartbreak (EP)";
      heading "SinglesView All"; title_block "Stronger";
      title_block "Gold Digger";
      heading "Top Songs";
      BS4.Tag "table" [] [song_row "Runaway"; song_row "Jesus Walks"];
      heading "Similar Artists"; name_block "Jay-Z"; name_block "Kid Cudi"].

Definition artist_page (with_mixtapes : bool) : BS4.Node :=
  BS4.Tag "[document]" []
    [BS4.Tag "html" [] [BS4.Tag "body" [] (artist_sections with_mixtapes)]].

(** A site where every artist has the full page, and one where the pages
    have no "Mixtapes" section. *)
Definition artist_site : list string -> string -> exn + BS4.Node :=
  fun _ _ => inr (artist_page true).

Definition artist_site_without_mixtapes
  : list string -> string -> exn + BS4.Node :=
  fun _ _ => inr (artist_page false).

(** A user page with the eleven rows of the rating distribution, the last
    of them blank, and a page with ten rows only. *)
Definition dist_row (text : string) : BS4.Node :=
  BS4.Tag "div" [("class", "distRow")] [BS4.NavigableString text].

Definition eleven_rows : list BS4.Node :=
  map dist_row ["100   7"; "90-99  12"; "80-89 30"; "70-79 41"; "60-69 9";
                "50-59 3"; "40-49 1"; "30-39 0"; "20-29 2"; "10-19 0"; "  "].

Definition user_page (rows : list BS4.Node) : BS4.Node :=
  BS4.Tag "[document]" [] [BS4.Tag "html" [] [BS4.Tag "body" [] rows]].

Definition user_site : list string -> string -> exn + BS4.Node :=
  fun _ _ => inr (user_page eleven_rows).

Definition short_user_site : list string -> string -> exn + BS4.Node :=
  fun _ _ => inr (user_page (take 10 eleven_rows)).

(** A profile page: the link to the ratings with its count, the "about"
    text, and two rated releases, the second without an artist. *)
Definition profile_page : BS4.Node :=
  user_page
    [BS4.Tag "a" [("href", "/user/ana/ratings/")]
       [text_div "profileStat" "120"];
     text_div "aboutUser" "I rate records.";
     release_block album_x;
     BS4.Tag "div" [("class", "albumBlock")] [text_div "albumTitle" "Untitled"];
     BS4.Tag "div" [("class", "albumBlock")] [text_div "artistTitle" "Nobody"]].

Definition profile_site : list string -> string -> exn + BS4.Node :=
  fun _ _ => inr profile_page.


(** An artist page on which the heading "Albums" comes twice. *)
Definition repeated_heading_page : BS4.Node :=
  BS4.Tag "[document]" []
    [BS4.Tag "html" []
       [BS4.Tag "body" []
          [heading "Albums"; title_block "Graduation";
           heading "EPs"; title_block "Yeezus (EP)";
           heading "Albums"; title_block "Donda"]]].

(** A site that cannot be reached. *)
Definition offline : list string -> string -> exn + BS4.Node :=
  fun _ _ => inl (URLError "[Errno 111] Connection refused").

End Samples.

(** * Properties *)

(** ** Strings *)

Section StringFacts.

Lemma rstrip_keep c s :
  isspace c = false -> rstrip s = s -> rstrip (String c s) = String c s.
Proof.
  intros Hc Hs. simpl. rewrite Hs. destruct s; [now rewrite Hc | reflexivity].
Qed.

Lemma rstrip_app s t :
  t <> EmptyString -> rstrip t = t -> rstrip (s +:+ t) = s +:+ t.
Proof.
  intros Hne Ht. induction s as [|c s IH]; [exact Ht|].
  change (String c s +:+ t) with (String c (s +:+ t)).
  cbn [rstrip]. rewrite IH.
  destruct (s +:+ t) eqn:E; [|reflexivity].
  destruct s; simpl in E; [contradiction | discriminate].
Qed.

Lemma rstrip_uint d :
  rstrip (NilEmpty.string_of_uint d) = NilEmpty.string_of_uint d.
Proof.
  induction d; cbn [NilEmpty.string_of_uint]; try reflexivity;
    apply rstrip_keep; auto.
Qed.

Lemma rstrip_str n : rstrip (str n) = str n /\ str n <> EmptyString.
Proof.
  unfold str, NilZero.string_of_int.
  destruct (Z.to_int n) as [d|d]; unfold NilZero.string_of_uint.
  - destruct d; (split; [first [reflexivity | apply rstrip_keep;
      [reflexivity | apply rstrip_uint]] | discriminate]).
  - split; [|discriminate].
    apply rstrip_keep; [reflexivity|].
    destruct d; first [reflexivity | apply rstrip_keep;
      [reflexivity | apply rstrip_uint]].
Qed.

(** A date label is already stripped. *)
Lemma strip_label m day :
  m ∈ AlbumPy.month_names ->
  strip (m +:+ " " +:+ str day) = m +:+ " " +:+ str day.
Proof.
  intros Hm. unfold strip.
  assert (lstrip (m +:+ " " +:+ str day) = m +:+ " " +:+ str day) as ->.
  { unfold AlbumPy.month_names in Hm.
    repeat (apply elem_of_cons in Hm as [-> | Hm]; [reflexivity|]).
    inversion Hm. }
  destruct (rstrip_str day) as [H1 H2].
  apply rstrip_app; [|apply rstrip_app; assumption].
  simpl. discriminate.
Qed.

Example split_examples :
  split "100   10" = ["100"; "10"] /\ split "  a b  " = ["a"; "b"]
  /\ split "   " = [] /\ split "" = [].
Proof. repeat split. Qed.

Example strip_examples :
  strip "  ab c " = "ab c" /\ strip "Jan 1" = "Jan 1" /\ strip "  " = "".
Proof. repeat split. Qed.

Example str_examples :
  str 0 = "0" /\ str 12 = "12" /\ str (-5) = "-5" /\ str 1260 = "1260".
Proof. repeat split. Qed.

Example page_url_examples :
  AlbumPy.page_url 1 = "https://www.albumoftheyear.org/upcoming/"
  /\ AlbumPy.page_url 5 = "https://www.albumoftheyear.org/upcoming/5/".
Proof. split; reflexivity. Qed.

End StringFacts.

(** ** album.py: the month table and the record parser *)

Section AlbumFacts.

Import AlbumPy.

Lemma map_month_out_of_range (month : Z) :
  (month < 1 \/ 12 < month)%Z ->
  _map_month_number_to_name month = inl (Exception "Invalid month number").
Proof.
  intros Hout. unfold _map_month_number_to_name.
  destruct (1 <=? month)%Z eqn:H1; destruct (month <=? 12)%Z eqn:H2;
    try reflexivity.
  apply Z.leb_le in H1, H2. lia.
Qed.

(** C8.  The month table: 1 gives "Jan", ..., 12 gives "Dec", in calendar
    order, and any month number outside 1..12 raises the exception
    "Invalid month number" instead of giving a label. *)
Theorem map_month_number_to_name_spec :
  map _map_month_number_to_name (seqZ 1 12)
  = map inr ["Jan"; "Feb"; "Mar"; "Apr"; "May"; "Jun";
             "Jul"; "Aug"; "Sep"; "Oct"; "Nov"; "Dec"]
  /\ forall month : Z,
       (month < 1 \/ 12 < month)%Z ->
       _map_month_number_to_name month = inl (Exception "Invalid month number").
Proof. split; [reflexivity | exact map_month_out_of_range]. Qed.

Lemma map_month_number_to_name_spec_witness :
  _map_month_number_to_name 0 = inl (Exception "Invalid month number")
  /\ _map_month_number_to_name 13 = inl (Exception "Invalid month number").
Proof.
  split; apply map_month_number_to_name_spec; lia.
Defined.

Lemma map_month_in_range month :
  (1 <= month <= 12)%Z ->
  exists label, _map_month_number_to_name month = inr label
                /\ label ∈ month_names.
Proof.
  intros H.
  assert (month = 1 \/ month = 2 \/ month = 3 \/ month = 4 \/ month = 5
          \/ month = 6 \/ month = 7 \/ month = 8 \/ month = 9 \/ month = 10
          \/ month = 11 \/ month = 12)%Z as Hc by lia.
  decompose [or] Hc; subst month;
    (eexists; split; [reflexivity | unfold month_names; repeat constructor]).
Qed.

(** The label of a month of 1..12 is its entry in the table. *)
Lemma month_of_label month label :
  (1 <= month <= 12)%Z ->
  month_names !! Z.to_nat (month - 1) = Some label ->
  _map_month_number_to_name month = inr label /\ label ∈ month_names.
Proof.
  intros Hmonth Hlabel. split; [|apply list_elem_of_lookup; eauto].
  unfold _map_month_number_to_name, getitem.
  destruct (1 <=? month)%Z eqn:H1; [|apply Z.leb_gt in H1; lia].
  destruct (month <=? 12)%Z eqn:H2; [|apply Z.leb_gt in H2; lia].
  cbn [andb negb].
  destruct (month - 1 <? 0)%Z eqn:H3; [apply Z.ltb_lt in H3; lia|].
  now rewrite Hlabel.
Qed.

Lemma parse_albums_loop_acc blocks : forall acc,
  _parse_albums_loop blocks acc
  = match _parse_albums_loop blocks [] with
    | inl e => inl e
    | inr l => inr (acc ++ l)
    end.
Proof.
  induction blocks as [|b blocks IH]; intros acc; simpl.
  - now rewrite app_nil_r.
  - destruct (parse_block b) as [e|a]; [reflexivity|].
    rewrite IH. rewrite (IH [a]).
    destruct (_parse_albums_loop blocks []); [reflexivity|].
    now rewrite <- app_assoc.
Qed.

Lemma parse_albums_cons b blocks :
  _parse_albums (b :: blocks)
  = match parse_block b with
    | inl e => inl e
    | inr a => match _parse_albums blocks with
               | inl e => inl e
               | inr l => inr (a :: l)
               end
    end.
Proof.
  unfold _parse_albums. simpl. destruct (parse_block b); [reflexivity|].
  now rewrite parse_albums_loop_acc.
Qed.

Lemma parse_block_missing b :
  find_div_class "artistTitle" b = None
  \/ find_div_class "albumTitle" b = None
  \/ find_div_class "type" b = None ->
  exists msg, parse_block b = inl (AttributeError msg).
Proof.
  unfold parse_block.
  destruct (find_div_class "artistTitle" b); simpl;
    destruct (find_div_class "albumTitle" b); simpl;
    destruct (find_div_class "type" b); simpl;
    intros [H | [H | H]]; try discriminate; eauto.
Qed.

(** C9.  The record parser gives one release per block, in order, built
    from the texts of the block's "artistTitle", "albumTitle" and "type"
    sub-fields; a block that lacks one of the three makes the whole call
    raise (an AttributeError) whatever the other blocks are, so no partial
    record and no shorter list comes out; no block gives the empty list. *)
Theorem parse_albums_spec :
  _parse_albums [] = inr []
  /\ (forall b a,
        parse_block b = inr a <->
        exists na nt nd,
          find_div_class "artistTitle" b = Some na
          /\ find_div_class "albumTitle" b = Some nt
          /\ find_div_class "type" b = Some nd
          /\ a = mkAlbum (BS4.getText nt) (BS4.getText na) (BS4.getText nd))
  /\ (forall blocks albums,
        Forall2 (fun b a => parse_block b = inr a) blocks albums ->
        _parse_albums blocks = inr albums)
  /\ (forall blocks b,
        b ∈ blocks ->
        find_div_class "artistTitle" b = None
        \/ find_div_class "albumTitle" b = None
        \/ find_div_class "type" b = None ->
        exists msg, _parse_albums blocks = inl (AttributeError msg)).
Proof.
  split; [reflexivity|]. split; [|split].
  - intros b a. unfold parse_block. split.
    + destruct (find_div_class "artistTitle" b) as [na|]; simpl; [|discriminate].
      destruct (find_div_class "albumTitle" b) as [nt|]; simpl; [|discriminate].
      destruct (find_div_class "type" b) as [nd|]; simpl; [|discriminate].
      intros [= <-]. eauto 8.
    + intros (na & nt & nd & -> & -> & -> & ->). reflexivity.
  - induction 1 as [|b a blocks albums Hb _ IH]; [reflexivity|].
    rewrite parse_albums_cons, Hb, IH. reflexivity.
  - intros blocks b Hin Hmiss.
    induction blocks as [|b' blocks IH]; [inversion Hin|].
    rewrite parse_albums_cons.
    apply elem_of_cons in Hin as [<- | Hin].
    + destruct (parse_block_missing b Hmiss) as [msg ->]. eauto.
    + destruct (parse_block b') as [e|a] eqn:Hb'.
      * unfold parse_block in Hb'.
        destruct (find_div_class "artistTitle" b'); simpl in Hb';
          [|injection Hb' as <-; eauto].
        destruct (find_div_class "albumTitle" b'); simpl in Hb';
          [|injection Hb' as <-; eauto].
        destruct (find_div_class "type" b'); simpl in Hb';
          [discriminate | injection Hb' as <-; eauto].
      * destruct (IH Hin) as [msg ->]. eauto.
Qed.

Lemma parse_albums_spec_witness :
  _parse_albums [Samples.release_block Samples.album_x]
  = inr [Samples.album_x]
  /\ exists msg,
       _parse_albums [Samples.release_block Samples.album_x;
                      Samples.block_without_date]
       = inl (AttributeError msg).
Proof.
  destruct parse_albums_spec as (_ & _ & Hok & Hbad). split.
  - apply Hok. repeat constructor.
  - apply (Hbad _ Samples.block_without_date).
    + apply list_elem_of_further, list_elem_of_here.
    + right; right; reflexivity.
Defined.

End AlbumFacts.

(** ** album.py: the scan by count *)

Section ByLimit.

Import AlbumPy.

Variable urlopen : list string -> string -> exn + BS4.Node.

Local Abbreviation by_page := (_get_upcoming_releases_by_page urlopen).

Lemma by_page_beyond_limit p h :
  (page_limit < p)%Z ->
  by_page p h = (inl (Exception "Page number out of range"), h).
Proof.
  intros Hp. unfold _get_upcoming_releases_by_page.
  destruct (p >? page_limit)%Z eqn:E; [reflexivity|].
  rewrite Z.gtb_ltb in E. apply Z.ltb_ge in E. lia.
Qed.

Lemma by_page_within_limit p h :
  (p <= page_limit)%Z ->
  by_page p h
  = (match urlopen h (page_url p) with
     | inl e => inl e
     | inr d => _parse_albums (upcoming_blocks d)
     end, h ++ [page_url p]).
Proof.
  intros Hp. unfold _get_upcoming_releases_by_page.
  destruct (p >? page_limit)%Z eqn:E.
  - rewrite Z.gtb_ltb in E. apply Z.ltb_lt in E. lia.
  - unfold bind, _get_release_page_from_request, lift.
    destruct (urlopen h (page_url p)); reflexivity.
Qed.

Lemma by_page_ok_within p h page h' :
  by_page p h = (inr page, h') -> (p <= page_limit)%Z /\ h' = h ++ [page_url p].
Proof.
  intros H. destruct (Z_le_gt_dec p page_limit) as [Hle|Hgt].
  - rewrite by_page_within_limit in H by assumption.
    injection H as _ <-. auto.
  - rewrite by_page_beyond_limit in H by lia. discriminate.
Qed.

Lemma max_page_number_ceil total :
  (0 <= total)%Z ->
  (60 * (max_page_number total - 1) < total <= 60 * max_page_number total)%Z.
Proof.
  intros Ht. unfold max_page_number, aoty_albums_per_page.
  pose proof (Z.div_mod total 60 ltac:(lia)) as Hdm.
  pose proof (Z.mod_pos_bound total 60 ltac:(lia)) as Hb.
  destruct (total mod 60 =? 0)%Z eqn:E; simpl.
  - apply Z.eqb_eq in E. lia.
  - apply Z.eqb_neq in E. lia.
Qed.

Lemma by_limit_loop_full (m : nat) : forall k albums counter requests,
  (forall h p, (k <= p < k + Z.of_nat m)%Z ->
     exists page, by_page p h = (inr page, h ++ [page_url p])
                  /\ length page = 60%nat) ->
  (m = 0%nat
   \/ (60 * (Z.of_nat m - 1) < counter <= 60 * Z.of_nat m)%Z) ->
  by_limit_loop urlopen (seqZ k (Z.of_nat m)) albums counter requests
  = (inr (albums_response
            (albums ++ take (Z.to_nat counter)
                         (concat (pages_read urlopen (seqZ k (Z.of_nat m))
                                    requests)))),
     requests ++ map page_url (seqZ k (Z.of_nat m)))
  /\ length (concat (pages_read urlopen (seqZ k (Z.of_nat m)) requests))
     = (60 * m)%nat
  /\ length (pages_read urlopen (seqZ k (Z.of_nat m)) requests) = m
  /\ Forall (fun page => length page = 60%nat)
       (pages_read urlopen (seqZ k (Z.of_nat m)) requests).
Proof.
  induction m as [|m IH]; intros k albums counter requests Hfull Hc.
  - simpl. rewrite take_nil, !app_nil_r. auto.
  - destruct Hc as [Hc|Hc]; [discriminate|].
    rewrite seqZ_cons by lia.
    replace (Z.pred (Z.of_nat (S m))) with (Z.of_nat m) by lia.
    destruct (Hfull requests k ltac:(lia)) as (page & Hpage & Hlen).
    cbn [by_limit_loop pages_read map concat].
    unfold bind at 1, try_except. rewrite Hpage.
    assert (Hrest : forall h p, (Z.succ k <= p < Z.succ k + Z.of_nat m)%Z ->
              exists page, by_page p h = (inr page, h ++ [page_url p])
                           /\ length page = 60%nat).
    { intros h p Hp. apply Hfull. lia. }
    unfold aoty_albums_per_page.
    destruct (counter <? 60)%Z eqn:E.
    + apply Z.ltb_lt in E. assert (m = 0%nat) as -> by lia.
      simpl. unfold ret, slice_to.
      destruct (counter <? 0)%Z eqn:E0; [apply Z.ltb_lt in E0; lia|].
      rewrite !app_nil_r.
      split; [reflexivity | split; [lia | split; [reflexivity|]]].
      repeat constructor. exact Hlen.
    + apply Z.ltb_ge in E.
      destruct (IH (Z.succ k) (albums ++ page) (counter - 60)%Z
                  (requests ++ [page_url k]) Hrest ltac:(lia))
        as (-> & Hl & Hn & Hall).
      split; [|split; [|split]].
      * f_equal; [|now rewrite <- app_assoc].
        do 2 f_equal. rewrite <- app_assoc. f_equal.
        cbn [concat]. rewrite take_app_ge by lia. do 2 f_equal. lia.
      * cbn [concat]. rewrite length_app, Hl. lia.
      * cbn [length]. now rewrite Hn.
      * constructor; assumption.
Qed.

Lemma length_concat_full (pages : list (list Album)) :
  Forall (fun page => length page = 60%nat) pages ->
  length (concat pages) = (60 * length pages)%nat.
Proof.
  induction 1 as [|page pages Hpage _ IH]; [reflexivity|].
  cbn [concat length]. rewrite length_app, Hpage, IH. lia.
Qed.

(** C1, as the code has it.  For a total between 0 and P * L = 1260 and a
    site whose listing pages 1..ceil(total / P) each parse to exactly P = 60
    records, the scan by count requests exactly the pages 1, ..., n in that
    order, n being ceil(total / P) (no request when total is 0, the answer
    being the empty list), and answers with exactly [total] records: the
    first [total] records of the pages read, that is every page whole but
    the last one, which is cut to what is still missing. *)
Theorem by_limit_within_page_limit (total : Z) (requests : list string) :
  (0 <= total <= aoty_albums_per_page * page_limit)%Z ->
  (forall h p, (1 <= p <= max_page_number total)%Z ->
     exists d page,
       urlopen h (page_url p) = inr d
       /\ _parse_albums (upcoming_blocks d) = inr page
       /\ length page = 60%nat) ->
  let n := max_page_number total in
  let pages := pages_read urlopen (seqZ 1 n) requests in
  let albums := take (Z.to_nat total) (concat pages) in
  (60 * (n - 1) < total <= 60 * n)%Z
  /\ length pages = Z.to_nat n
  /\ Forall (fun page => length page = 60%nat) pages
  /\ upcoming_releases_by_limit urlopen total requests
     = (inr (albums_response albums), requests ++ map page_url (seqZ 1 n))
  /\ length albums = Z.to_nat total
  /\ (total = 0%Z -> albums = [] /\ seqZ 1 n = [])
  /\ (forall init last_page,
        pages = init ++ [last_page] ->
        albums
        = concat init
            ++ take (Z.to_nat total - length (concat init)) last_page).
Proof.
  intros Ht Hsite n pages albums. subst albums pages.
  pose proof (max_page_number_ceil total ltac:(lia)) as Hn. fold n in Hn.
  unfold aoty_albums_per_page, page_limit in Ht.
  assert (Hfull : forall h p, (1 <= p < 1 + Z.of_nat (Z.to_nat n))%Z ->
            exists page, by_page p h = (inr page, h ++ [page_url p])
                         /\ length page = 60%nat).
  { intros h p Hp.
    destruct (Hsite h p ltac:(fold n; lia)) as (d & page & Hd & Hparse & Hlen).
    exists page. split; [|assumption].
    rewrite by_page_within_limit by (unfold page_limit; lia).
    now rewrite Hd, Hparse. }
  destruct (by_limit_loop_full (Z.to_nat n) 1 [] total requests Hfull
              ltac:(lia)) as (Hrun & Hlen & Hcount & Hall).
  rewrite Z2Nat.id in Hrun, Hlen, Hcount, Hall by lia.
  split; [exact Hn|]. split; [exact Hcount|]. split; [exact Hall|].
  split; [|split; [|split]].
  - unfold upcoming_releases_by_limit, range. fold n.
    replace (n + 1 - 1)%Z with n by lia. exact Hrun.
  - rewrite length_take, Hlen. lia.
  - intros ->. assert (n = 0%Z) as -> by lia. split; reflexivity.
  - intros init last_page Hpages. rewrite Hpages in *.
    rewrite length_app in Hcount. cbn [length] in Hcount.
    apply Forall_app in Hall as [Hinit _].
    rewrite concat_app. cbn [concat]. rewrite app_nil_r.
    rewrite take_app_ge; [reflexivity|].
    rewrite (length_concat_full init Hinit). lia.
Qed.

End ByLimit.

Section ByLimitExamples.

Import AlbumPy.

Lemma full_site_page h p :
  Samples.full_site h (page_url p) = inr Samples.full_page
  /\ _parse_albums (upcoming_blocks Samples.full_page)
     = inr (replicate 60 Samples.album_x).
Proof. split; [reflexivity | vm_compute; reflexivity]. Qed.

Lemma full_site_pages h p :
  exists d page,
    Samples.full_site h (page_url p) = inr d
    /\ _parse_albums (upcoming_blocks d) = inr page
    /\ length page = 60%nat.
Proof.
  destruct (full_site_page h p) as [Hd Hparse].
  exists Samples.full_page, (replicate 60 Samples.album_x).
  split; [assumption|]. split; [assumption | apply length_replicate].
Qed.

Lemma by_limit_within_page_limit_witness :
  let n := max_page_number 125 in
  let pages := pages_read Samples.full_site (seqZ 1 n) [] in
  let albums := take (Z.to_nat 125) (concat pages) in
  (60 * (n - 1) < 125 <= 60 * n)%Z
  /\ length pages = Z.to_nat n
  /\ Forall (fun page => length page = 60%nat) pages
  /\ upcoming_releases_by_limit Samples.full_site 125 []
     = (inr (albums_response albums), [] ++ map page_url (seqZ 1 n))
  /\ length albums = Z.to_nat 125
  /\ (125%Z = 0%Z -> albums = [] /\ seqZ 1 n = [])
  /\ (forall init last_page,
        pages = init ++ [last_page] ->
        albums
        = concat init
            ++ take (Z.to_nat 125 - length (concat init)) last_page).
Proof.
  apply (by_limit_within_page_limit Samples.full_site 125 []).
  - unfold aoty_albums_per_page, page_limit. lia.
  - intros h p _. apply full_site_pages.
Defined.

(** Counterexample to C1 as it is stated, beyond the page limit: on a site
    whose every page holds exactly 60 records, a request for 1321 records
    needs ceil(1321 / 60) = 23 pages, but the scan sends 21 requests, meets
    the fault of page 22 (raised before any request is sent), stops there,
    and answers with the error response, not with a list of 1321 records. *)
Lemma by_limit_beyond_page_limit :
  (forall h p, (1 <= p <= page_limit)%Z ->
     exists page,
       _get_upcoming_releases_by_page Samples.full_site p h
       = (inr page, h ++ [page_url p])
       /\ length page = 60%nat)
  /\ max_page_number 1321 = 23%Z
  /\ upcoming_releases_by_limit Samples.full_site 1321 []
     = (inr (page_limit_error (Exception "Page number out of range")),
        map page_url (seqZ 1 21))
  /\ length (snd (upcoming_releases_by_limit Samples.full_site 1321 []))
     <> 23%nat
  /\ ~ (exists albums,
          fst (upcoming_releases_by_limit Samples.full_site 1321 [])
          = inr (albums_response albums)).
Proof.
  assert (Hrun : upcoming_releases_by_limit Samples.full_site 1321 []
            = (inr (page_limit_error (Exception "Page number out of range")),
               map page_url (seqZ 1 21)))
    by (vm_compute; reflexivity).
  split; [|split; [reflexivity|split; [exact Hrun|]]].
  - intros h p Hp.
    destruct (full_site_pages h p) as (d & page & Hd & Hparse & Hlen).
    exists page. split; [|assumption].
    rewrite by_page_within_limit by lia. now rewrite Hd, Hparse.
  - rewrite Hrun. cbn [fst snd]. split.
    + rewrite length_map, length_seqZ. discriminate.
    + intros [albums Habs].
      assert (exists rest, albums_response albums
                = String "{" (String dquote (String "a" rest))) as [r1 Hr1]
        by (eexists; reflexivity).
      rewrite Hr1 in Habs. discriminate Habs.
Qed.

End ByLimitExamples.

(** ** album.py: the scan by date *)

Section ByDate.

Import AlbumPy.

Variable urlopen : list string -> string -> exn + BS4.Node.

Local Abbreviation by_page := (_get_upcoming_releases_by_page urlopen).

Lemma scan_page_spec target next albums : forall acc complete,
  scan_page target next albums (acc, complete)
  = (acc ++ filter (dated target) albums,
     complete || existsb (fun a => String.eqb (release_date a) next) albums).
Proof.
  unfold scan_page.
  induction albums as [|a albums IH]; intros acc complete; simpl.
  - now rewrite app_nil_r, orb_false_r.
  - rewrite IH, filter_cons. f_equal.
    + unfold dated at 2. destruct (String.eqb_spec (release_date a) target);
        destruct (decide (release_date a = target)); try contradiction;
        [now rewrite <- app_assoc | reflexivity].
    + destruct (String.eqb (release_date a) next); simpl;
        [now rewrite orb_true_r | reflexivity].
Qed.

Lemma existsb_dated next (page : list Album) :
  existsb (fun a => String.eqb (release_date a) next) page = true
  <-> exists a, a ∈ page /\ dated next a.
Proof.
  rewrite existsb_exists. unfold dated. split.
  - intros (a & Hin & Heq). exists a. split; [now apply list_elem_of_In|].
    now apply String.eqb_eq.
  - intros (a & Hin & Heq). exists a. split; [now apply list_elem_of_In|].
    now apply String.eqb_eq.
Qed.

(** The loop gives an answer: from page [p] on it needs at most
    [page_limit + 2 - p] turns, the last of which is the fault of the page
    after the limit. *)
Lemma by_date_loop_answers target next (fuel : nat) : forall p acc h,
  (page_limit + 1 < p + Z.of_nat fuel)%Z -> (1 <= fuel)%nat ->
  forall h', by_date_loop urlopen fuel target next p acc h <> (inr None, h').
Proof.
  induction fuel as [|fuel IH]; intros p acc h Hsum Hfuel h'; [lia|].
  cbn [by_date_loop]. change (p + 1)%Z with (Z.succ p). unfold bind at 1.
  destruct (by_page p h) as [[e|page] h1] eqn:Hp; [discriminate|].
  apply by_page_ok_within in Hp as [Hle ->].
  rewrite scan_page_spec. cbn [orb].
  destruct (existsb _ page); [unfold ret; discriminate|].
  apply IH; lia.
Qed.

(** More fuel than the loop needs does not change its answer. *)
Lemma by_date_loop_fuel target next (fuel : nat) : forall fuel' p acc h,
  (page_limit + 1 < p + Z.of_nat fuel)%Z -> (1 <= fuel)%nat ->
  (fuel <= fuel')%nat ->
  by_date_loop urlopen fuel' target next p acc h
  = by_date_loop urlopen fuel target next p acc h.
Proof.
  induction fuel as [|fuel IH]; intros fuel' p acc h Hsum Hfuel Hle; [lia|].
  destruct fuel' as [|fuel']; [lia|].
  cbn [by_date_loop]. change (p + 1)%Z with (Z.succ p). unfold bind.
  destruct (by_page p h) as [[e|page] h1] eqn:Hp; [reflexivity|].
  apply by_page_ok_within in Hp as [Hlim ->].
  rewrite scan_page_spec. cbn [orb].
  destruct (existsb _ page); [reflexivity|].
  apply IH; lia.
Qed.

(** A normal stop: the pages up to the first one that holds a release
    dated [next] are read, and the releases dated [target] of all of them
    are kept, in order. *)
Lemma by_date_loop_stop target next (n : nat) : forall fuel p acc h pages,
  (page_limit + 1 < p + Z.of_nat fuel)%Z ->
  pages_read urlopen (seqZ p (Z.of_nat (S n))) h = pages ->
  length pages = S n ->
  (forall i page, pages !! i = Some page -> (i < n)%nat ->
     forall a, a ∈ page -> ~ dated next a) ->
  (exists page a, pages !! n = Some page /\ a ∈ page /\ dated next a) ->
  by_date_loop urlopen fuel target next p acc h
  = (inr (Some (acc ++ filter (dated target) (concat pages))),
     h ++ map page_url (seqZ p (Z.of_nat (S n)))).
Proof.
  induction n as [|n IH]; intros fuel p acc h pages Hsum Hread Hlen Hbefore Hlast.
  - change (seqZ p (Z.of_nat 1)) with [p] in *. cbn [pages_read] in Hread.
    destruct (by_page p h) as [[e|page] h1] eqn:Hp;
      [subst pages; discriminate|].
    pose proof Hp as Hp'. apply by_page_ok_within in Hp' as [Hlim ->].
    destruct fuel as [|fuel]; [lia|].
    cbn [by_date_loop]. change (p + 1)%Z with (Z.succ p). unfold bind at 1. rewrite Hp, scan_page_spec.
    destruct Hlast as (page' & a & Hl & Hin & Ha). subst pages.
    injection Hl as <-.
    assert (existsb (fun a => String.eqb (release_date a) next) page = true)
      as -> by (apply existsb_dated; eauto).
    cbn [orb concat map]. now rewrite app_nil_r.
  - rewrite seqZ_cons in * by lia.
    replace (Z.pred (Z.of_nat (S (S n)))) with (Z.of_nat (S n)) in * by lia.
    cbn [pages_read] in Hread.
    destruct (by_page p h) as [[e|page] h1] eqn:Hp;
      [subst pages; discriminate|].
    pose proof Hp as Hp'. apply by_page_ok_within in Hp' as [Hlim ->].
    destruct fuel as [|fuel]; [lia|].
    cbn [by_date_loop]. change (p + 1)%Z with (Z.succ p). unfold bind at 1. rewrite Hp, scan_page_spec.
    subst pages. cbn [length] in Hlen.
    assert (existsb (fun a => String.eqb (release_date a) next) page = false)
      as ->.
    { apply not_true_is_false. intros Hex. apply existsb_dated in Hex
        as (a & Hin & Ha). exact (Hbefore 0%nat page eq_refl ltac:(lia) a Hin Ha). }
    cbn [orb].
    rewrite (IH fuel (Z.succ p) (acc ++ filter (dated target) page)
               (h ++ [page_url p]) _ ltac:(lia) eq_refl ltac:(lia)).
    + cbn [concat map]. rewrite filter_app, <- !app_assoc. reflexivity.
    + intros i page' Hi Hlt. apply (Hbefore (S i) page' Hi). lia.
    + exact Hlast.
Qed.

(** What the loop can answer from page [p] on: a fault, or a stop at a page
    within the limit that holds a release dated [next]. *)
Lemma by_date_loop_outcome target next (fuel : nat) : forall p acc h,
  (page_limit + 1 < p + Z.of_nat fuel)%Z -> (1 <= fuel)%nat ->
  (exists e h', by_date_loop urlopen fuel target next p acc h = (inl e, h'))
  \/ (exists albums (m : nat) page,
        (p + Z.of_nat m <= page_limit)%Z
        /\ by_date_loop urlopen fuel target next p acc h
           = (inr (Some albums), h ++ map page_url (seqZ p (Z.of_nat (S m))))
        /\ by_page (p + Z.of_nat m) (h ++ map page_url (seqZ p (Z.of_nat m)))
           = (inr page, h ++ map page_url (seqZ p (Z.of_nat (S m))))
        /\ exists a, a ∈ page /\ dated next a).
Proof.
  induction fuel as [|fuel IH]; intros p acc h Hsum Hfuel; [lia|].
  cbn [by_date_loop]. change (p + 1)%Z with (Z.succ p). unfold bind.
  destruct (by_page p h) as [[e|page] h1] eqn:Hp; [left; eauto|].
  pose proof Hp as Hp'. apply by_page_ok_within in Hp' as [Hlim ->].
  rewrite scan_page_spec. cbn [orb].
  destruct (existsb _ page) eqn:Hex.
  - right. exists (acc ++ filter (dated target) page), 0%nat, page.
    change (seqZ p (Z.of_nat 1)) with [p].
    change (seqZ p (Z.of_nat 0)) with (@nil Z). cbn [map].
    rewrite Z.add_0_r, app_nil_r. repeat split; try assumption.
    now apply existsb_dated.
  - destruct (IH (Z.succ p) (acc ++ filter (dated target) page)
                (h ++ [page_url p]) ltac:(lia) ltac:(lia))
      as [(e & h' & ->) | (albums & m & page' & Hm & -> & Hpage' & Ha)].
    + left; eauto.
    + right. exists albums, (S m), page'.
      rewrite (seqZ_cons p (Z.of_nat (S (S m)))) by lia.
      rewrite (seqZ_cons p (Z.of_nat (S m))) by lia.
      replace (Z.pred (Z.of_nat (S (S m)))) with (Z.of_nat (S m)) by lia.
      replace (Z.pred (Z.of_nat (S m))) with (Z.of_nat m) by lia.
      replace (p + Z.of_nat (S m))%Z with (Z.succ p + Z.of_nat m)%Z by lia.
      cbn [map]. rewrite <- !app_assoc in *. cbn [app] in *.
      repeat split; try assumption; try lia.
Qed.

(** Without a release dated [next] anywhere the loop walks every page
    within the limit and ends on the fault of the page after it. *)
Lemma by_date_loop_exhausts target next (fuel : nat) : forall p acc h,
  (1 <= p <= page_limit + 1)%Z ->
  (page_limit + 1 < p + Z.of_nat fuel)%Z ->
  (forall h p, (1 <= p <= page_limit)%Z ->
     exists page, by_page p h = (inr page, h ++ [page_url p])
                  /\ forall a, a ∈ page -> ~ dated next a) ->
  by_date_loop urlopen fuel target next p acc h
  = (inl (Exception "Page number out of range"),
     h ++ map page_url (seqZ p (page_limit + 1 - p))).
Proof.
  induction fuel as [|fuel IH]; intros p acc h Hp Hsum Hpages; [lia|].
  cbn [by_date_loop]. change (p + 1)%Z with (Z.succ p). unfold bind at 1.
  destruct (Z.eq_dec p (page_limit + 1)%Z) as [->|Hne].
  - rewrite by_page_beyond_limit by lia.
    replace (page_limit + 1 - (page_limit + 1))%Z with 0%Z by lia.
    cbn. now rewrite app_nil_r.
  - destruct (Hpages h p ltac:(lia)) as (page & -> & Hnone).
    rewrite scan_page_spec. cbn [orb].
    assert (existsb (fun a => String.eqb (release_date a) next) page = false)
      as ->.
    { apply not_true_is_false. intros Hex. apply existsb_dated in Hex
        as (a & Hin & Ha). exact (Hnone a Hin Ha). }
    rewrite IH by (try assumption; lia).
    rewrite (seqZ_cons p) by lia. cbn [map]. rewrite <- app_assoc.
    replace (Z.pred (page_limit + 1 - p)) with (page_limit + 1 - Z.succ p)%Z
      by lia.
    reflexivity.
Qed.

(** Pages that were all read lie within the page limit. *)
Lemma pages_read_within (m : nat) : forall k h,
  length (pages_read urlopen (seqZ k (Z.of_nat (S m))) h) = S m ->
  (k + Z.of_nat m <= page_limit)%Z.
Proof.
  induction m as [|m IH]; intros k h Hlen.
  - change (seqZ k (Z.of_nat 1)) with [k] in Hlen. cbn [pages_read] in Hlen.
    destruct (by_page k h) as [[e|page] h1] eqn:Hp; [discriminate|].
    apply by_page_ok_within in Hp. lia.
  - rewrite seqZ_cons in Hlen by lia.
    replace (Z.pred (Z.of_nat (S (S m)))) with (Z.of_nat (S m)) in Hlen by lia.
    cbn [pages_read] in Hlen.
    destruct (by_page k h) as [[e|page] h1] eqn:Hp; [discriminate|].
    cbn [length] in Hlen. injection Hlen as Hlen.
    apply IH in Hlen. lia.
Qed.

Lemma by_date_answers fuel month day h :
  (Z.to_nat page_limit + 1 <= fuel)%nat ->
  forall h',
    _get_upcoming_releases_by_date urlopen fuel month day h <> (inr None, h').
Proof.
  intros Hfuel h'. unfold _get_upcoming_releases_by_date, bind at 1, lift.
  destruct (_map_month_number_to_name month); [discriminate|].
  apply by_date_loop_answers; unfold page_limit in *; lia.
Qed.

(** C2.  For a month of 1..12 ([label] being its entry in the table) and
    any day, when the listing pages 1..k+1 can be read and the first of them
    to hold a release dated "label day+1" is the last one, the scan by date
    answers with exactly the releases whose date is the string "label day",
    taken from those pages in page order and in the order of each page
    (those that follow a next-dated release on the last page included), and
    it requests the pages 1..k+1 and no page after them. *)
Theorem by_date_returns_target_releases
    (month day : Z) (label : string) (fuel k : nat) (requests : list string)
    (pages : list (list Album)) :
  (1 <= month <= 12)%Z ->
  month_names !! Z.to_nat (month - 1) = Some label ->
  (Z.to_nat page_limit + 1 <= fuel)%nat ->
  pages_read urlopen (seqZ 1 (Z.of_nat (S k))) requests = pages ->
  length pages = S k ->
  (forall i page, pages !! i = Some page -> (i < k)%nat ->
     forall a, a ∈ page -> ~ dated (label +:+ " " +:+ str (day + 1)) a) ->
  (exists page a,
     pages !! k = Some page /\ a ∈ page
     /\ dated (label +:+ " " +:+ str (day + 1)) a) ->
  _map_month_number_to_name month = inr label
  /\ _get_upcoming_releases_by_date urlopen fuel month day requests
     = (inr (Some (filter (dated (label +:+ " " +:+ str day)) (concat pages))),
        requests ++ map page_url (seqZ 1 (Z.of_nat (S k)))).
Proof.
  intros Hmonth Htable Hfuel Hread Hlen Hbefore Hlast.
  destruct (month_of_label month label Hmonth Htable) as [Hlabel Hin].
  split; [exact Hlabel|].
  unfold _get_upcoming_releases_by_date, bind at 1, lift. rewrite Hlabel.
  rewrite !strip_label by assumption.
  rewrite (by_date_loop_stop _ _ k fuel 1 [] requests pages); try assumption.
  - reflexivity.
  - unfold page_limit in *. lia.
Qed.

(** C6.  For a month of 1..12 ([label] being its entry in the table) and
    any day the scan by date ends: 22 turns
    of its loop always suffice, and more change nothing.  It ends either on
    a fault, or normally after a page within the limit that holds a release
    dated with the next-day label, having requested the pages 1 up to that
    one.  When the pages 1..k+1 can be read and the first of them to hold
    the next-day label is the last one, it stops normally after that page:
    it answers with the releases of the target date of those pages and
    requests no page after them.  When every page within the limit can be
    read and none holds the next-day label, it requests the 21 pages and
    ends on the fault "Page number out of range" of page 22. *)
Theorem by_date_terminates
    (month day : Z) (label : string) (fuel : nat) (requests : list string) :
  (1 <= month <= 12)%Z ->
  month_names !! Z.to_nat (month - 1) = Some label ->
  (Z.to_nat page_limit + 1 <= fuel)%nat ->
  let next := label +:+ " " +:+ str (day + 1) in
  let run := _get_upcoming_releases_by_date urlopen fuel month day requests in
  run = _get_upcoming_releases_by_date urlopen (Z.to_nat page_limit + 1)
          month day requests
  /\ ((exists e h', run = (inl e, h'))
      \/ (exists albums (m : nat) page,
            (1 + Z.of_nat m <= page_limit)%Z
            /\ run = (inr (Some albums),
                      requests ++ map page_url (seqZ 1 (Z.of_nat (S m))))
            /\ by_page (1 + Z.of_nat m)
                 (requests ++ map page_url (seqZ 1 (Z.of_nat m)))
               = (inr page,
                  requests ++ map page_url (seqZ 1 (Z.of_nat (S m))))
            /\ exists a, a ∈ page /\ dated next a))
  /\ (forall (k : nat) (pages : list (list Album)),
        pages_read urlopen (seqZ 1 (Z.of_nat (S k))) requests = pages ->
        length pages = S k ->
        (forall i page, pages !! i = Some page -> (i < k)%nat ->
           forall a, a ∈ page -> ~ dated next a) ->
        (exists page a, pages !! k = Some page /\ a ∈ page /\ dated next a) ->
        (Z.of_nat (S k) <= page_limit)%Z
        /\ run
           = (inr (Some (filter (dated (label +:+ " " +:+ str day))
                           (concat pages))),
              requests ++ map page_url (seqZ 1 (Z.of_nat (S k)))))
  /\ ((forall h p, (1 <= p <= page_limit)%Z ->
         exists page, by_page p h = (inr page, h ++ [page_url p])
                      /\ forall a, a ∈ page -> ~ dated next a) ->
      run = (inl (Exception "Page number out of range"),
             requests ++ map page_url (seqZ 1 page_limit))).
Proof.
  intros Hmonth Htable Hfuel next run. subst run next.
  destruct (month_of_label month label Hmonth Htable) as [Hlabel Hin].
  unfold _get_upcoming_releases_by_date, bind, lift. rewrite Hlabel.
  rewrite !strip_label by assumption.
  assert (Hsum : (page_limit + 1 < 1 + Z.of_nat fuel)%Z)
    by (unfold page_limit in *; lia).
  split; [|split; [|split]].
  - apply by_date_loop_fuel; unfold page_limit in *; lia.
  - apply by_date_loop_outcome; [exact Hsum | lia].
  - intros k pages Hread Hlen Hbefore Hlast. split.
    + rewrite <- Hread in Hlen. apply pages_read_within in Hlen. lia.
    + rewrite (by_date_loop_stop _ _ k fuel 1 [] requests pages);
        try assumption.
      reflexivity.
  - intros Hpages.
    rewrite (by_date_loop_exhausts _ _ fuel 1 [] requests); try assumption.
    + replace (page_limit + 1 - 1)%Z with page_limit by lia. reflexivity.
    + unfold page_limit. lia.
Qed.

End ByDate.

Section ByDateExamples.

Import AlbumPy.

(** The example of C2: page 1 is [Jan1, Jan1, Jan2, Jan1, Jan3, Jan4, Jan1];
    asking for January 1st gives the four records of that day, in order, and
    only page 1 is requested. *)
Lemma by_date_returns_target_releases_witness :
  _get_upcoming_releases_by_date Samples.jan_site 22 1 1 []
  = (inr (Some [mkAlbum "Album A" "Artist A" "Jan 1";
                mkAlbum "Album B" "Artist B" "Jan 1";
                mkAlbum "Album D" "Artist D" "Jan 1";
                mkAlbum "Album F" "Artist F" "Jan 1"]),
     ["https://www.albumoftheyear.org/upcoming/"]).
Proof.
  destruct (by_date_returns_target_releases Samples.jan_site 1 1 "Jan" 22 0 []
              [Samples.jan_page_1]) as [_ ->].
  - lia.
  - reflexivity.
  - unfold page_limit. lia.
  - vm_compute. reflexivity.
  - reflexivity.
  - intros i page _ Hi. lia.
  - exists Samples.jan_page_1, (mkAlbum "Album C" "Artist C" "Jan 2").
    split; [reflexivity|]. split; [|reflexivity].
    unfold Samples.jan_page_1. repeat constructor.
  - vm_compute. reflexivity.
Defined.

(** The two ways the scan ends.  Asking the January listing for January
    1st, the next-day label "Jan 2" is on page 1 and the scan stops after
    that page.  With a next-day label that never shows up, "Jan 32" on a
    site whose pages only hold "Mar 10", it ends on the fault of page 22. *)
Lemma by_date_terminates_witness :
  _get_upcoming_releases_by_date Samples.jan_site 22 1 1 []
  = (inr (Some (filter (dated ("Jan" +:+ " " +:+ str 1))
                  (concat [Samples.jan_page_1]))),
     [] ++ map page_url (seqZ 1 (Z.of_nat 1)))
  /\ _get_upcoming_releases_by_date Samples.full_site 22 1 31 []
     = (inl (Exception "Page number out of range"),
        [] ++ map page_url (seqZ 1 page_limit)).
Proof.
  split.
  - destruct (by_date_terminates Samples.jan_site 1 1 "Jan" 22 [])
      as (_ & _ & Hstop & _).
    + lia.
    + reflexivity.
    + unfold page_limit. lia.
    + apply (Hstop 0%nat [Samples.jan_page_1]).
      * vm_compute. reflexivity.
      * reflexivity.
      * intros i page _ Hi. lia.
      * exists Samples.jan_page_1, (mkAlbum "Album C" "Artist C" "Jan 2").
        split; [reflexivity|]. split; [|reflexivity].
        unfold Samples.jan_page_1. repeat constructor.
  - destruct (by_date_terminates Samples.full_site 1 31 "Jan" 22 [])
      as (_ & _ & _ & Hfault).
    + lia.
    + reflexivity.
    + unfold page_limit. lia.
    + apply Hfault.
      intros h p Hp. destruct (full_site_page h p) as [Hd Hparse].
      exists (replicate 60 Samples.album_x). split.
      * rewrite by_page_within_limit by lia. now rewrite Hd, Hparse.
      * intros a Ha. apply elem_of_replicate in Ha as [-> _]. discriminate.
Defined.

End ByDateExamples.

(** ** album.py: faults at the two scanning entry points *)

Section ScanFaults.

Import AlbumPy.

Variable urlopen : list string -> string -> exn + BS4.Node.

Local Abbreviation by_page := (_get_upcoming_releases_by_page urlopen).

(** The loop of the scan by count ends in one of two ways: every page was
    read and the answer is a list of records, or the fetch of some page
    failed after the pages before it were read and the answer is the error
    response made from that fault. *)
Lemma by_limit_loop_outcome (m : nat) : forall k albums counter h,
  (exists albums',
     by_limit_loop urlopen (seqZ k (Z.of_nat m)) albums counter h
     = (inr (albums_response albums'),
        h ++ map page_url (seqZ k (Z.of_nat m)))
     /\ length (pages_read urlopen (seqZ k (Z.of_nat m)) h) = m)
  \/ (exists (j : nat) e h',
        (j < m)%nat
        /\ length (pages_read urlopen (seqZ k (Z.of_nat j)) h) = j
        /\ by_page (k + Z.of_nat j) (h ++ map page_url (seqZ k (Z.of_nat j)))
           = (inl e, h')
        /\ by_limit_loop urlopen (seqZ k (Z.of_nat m)) albums counter h
           = (inr (page_limit_error e), h')).
Proof.
  induction m as [|m IH]; intros k albums counter h.
  - left. exists albums. cbn. now rewrite app_nil_r.
  - rewrite seqZ_cons by lia.
    replace (Z.pred (Z.of_nat (S m))) with (Z.of_nat m) by lia.
    cbn [by_limit_loop pages_read map]. unfold bind at 1 2, try_except.
    destruct (by_page k h) as [[e|page] h1] eqn:Hp.
    + right. exists 0%nat, e, h1. cbn. rewrite Z.add_0_r, app_nil_r.
      repeat split; [lia | assumption].
    + pose proof Hp as Hp'. apply by_page_ok_within in Hp' as [Hlim ->].
      assert (Hstep : forall albums1 counter1,
        (exists albums',
           by_limit_loop urlopen (seqZ (Z.succ k) (Z.of_nat m)) albums1
             counter1 (h ++ [page_url k])
           = (inr (albums_response albums'),
              h ++ page_url k :: map page_url (seqZ (Z.succ k) (Z.of_nat m)))
           /\ length (page :: pages_read urlopen
                        (seqZ (Z.succ k) (Z.of_nat m)) (h ++ [page_url k]))
              = S m)
        \/ (exists (j : nat) e h',
              (j < S m)%nat
              /\ length (pages_read urlopen (seqZ k (Z.of_nat j)) h) = j
              /\ by_page (k + Z.of_nat j)
                   (h ++ map page_url (seqZ k (Z.of_nat j))) = (inl e, h')
              /\ by_limit_loop urlopen (seqZ (Z.succ k) (Z.of_nat m)) albums1
                   counter1 (h ++ [page_url k])
                 = (inr (page_limit_error e), h'))).
      { intros albums1 counter1.
        destruct (IH (Z.succ k) albums1 counter1 (h ++ [page_url k]))
          as [(albums' & Hrun & Hlen) | (j & e & h' & Hj & Hlen & Hfail & Hrun)].
        - left. exists albums'. rewrite Hrun, <- app_assoc. cbn [app length].
          now rewrite Hlen.
        - right. exists (S j), e, h'.
          rewrite (seqZ_cons k (Z.of_nat (S j))) by lia.
          replace (Z.pred (Z.of_nat (S j))) with (Z.of_nat j) by lia.
          replace (k + Z.of_nat (S j))%Z with (Z.succ k + Z.of_nat j)%Z by lia.
          cbn [pages_read map]. rewrite Hp. cbn [length].
          rewrite <- app_assoc in Hfail. cbn [app] in Hfail.
          repeat split; try assumption; [lia | now rewrite Hlen]. }
      destruct (counter <? aoty_albums_per_page)%Z; apply Hstep.
Qed.

Lemma try_by_date fuel month day h :
  upcoming_releases_by_date urlopen fuel month day h
  = match _get_upcoming_releases_by_date urlopen fuel month day h with
    | (inl e, h') =>
        (inr (Some (dumps (_build_error_response "Releases by date Error: "
                             (str_exn e)))), h')
    | (inr None, h') => (inr None, h')
    | (inr (Some parsed_albums), h') =>
        (inr (Some (albums_response parsed_albums)), h')
    end.
Proof.
  unfold upcoming_releases_by_date, bind, try_except.
  destruct (_get_upcoming_releases_by_date urlopen fuel month day h)
    as [[e|[l|]] h']; reflexivity.
Qed.

End ScanFaults.

(** ** album.py: the JSON form of a release *)

Section AlbumJson.

Import AlbumPy.

Local Arguments String.append !_ _ /.

Lemma append_assoc (a b c : string) : (a +:+ b) +:+ c = a +:+ (b +:+ c).
Proof.
  induction a as [|x a IH]; cbn [String.append]; [reflexivity | now f_equal].
Qed.

Lemma scanstring_plain (c : ascii) (tail : string) :
  (nat_of_ascii c =? 34)%nat = false ->
  (nat_of_ascii c =? 92)%nat = false ->
  (nat_of_ascii c <? 32)%nat = false ->
  scanstring (String c tail)
  = match scanstring tail with
    | Some (t, r) => Some (String c t, r)
    | None => None
    end.
Proof. intros H1 H2 H3. cbn [scanstring]. now rewrite H1, H2, H3. Qed.

Lemma scanstring_simple_escape (e ch : ascii) (tail : string) :
  (nat_of_ascii e =? 117)%nat = false ->
  unescape e = Some ch ->
  scanstring (String backslash (String e tail))
  = match scanstring tail with
    | Some (t, r) => Some (String ch t, r)
    | None => None
    end.
Proof.
  intros H1 H2. cbn [scanstring].
  change (nat_of_ascii backslash =? 34)%nat with false.
  change (nat_of_ascii backslash =? 92)%nat with true.
  cbv iota. now rewrite H1, H2.
Qed.

Lemma scanstring_u_escape (h1 h2 h3 h4 : ascii) (v : nat) (tail : string) :
  hex4 h1 h2 h3 h4 = Some v ->
  (v < 256)%nat ->
  scanstring
    (String backslash (String "u" (String h1 (String h2 (String h3
       (String h4 tail))))))
  = match scanstring tail with
    | Some (t, r) => Some (String (ascii_of_nat v) t, r)
    | None => None
    end.
Proof.
  intros H1 H2. cbn [scanstring].
  change (nat_of_ascii backslash =? 34)%nat with false.
  change (nat_of_ascii backslash =? 92)%nat with true.
  change (nat_of_ascii "u" =? 117)%nat with true.
  cbv iota. rewrite H1.
  apply Nat.ltb_lt in H2. now rewrite H2.
Qed.

Lemma hex_value_digit (k : nat) :
  (k < 16)%nat -> hex_value (hex_digit k) = Some k.
Proof.
  intros Hk. do 16 (destruct k as [|k]; [reflexivity|]). lia.
Qed.

Lemma ascii_of_code (c : ascii) (n : nat) :
  nat_of_ascii c = n -> c = ascii_of_nat n.
Proof. intros <-. now rewrite ascii_nat_embedding. Qed.

(** The character whose code is known is one of those written as a
    backslash and a letter. *)
Ltac two_char_escape E :=
  apply Nat.eqb_eq in E;
  match type of E with
  | ?n = _ =>
      subst n; apply ascii_of_code in E;
      match type of E with
      | ?c = _ => subst c; now apply scanstring_simple_escape
      end
  end.

(** Reading back one escaped character gives the character. *)
Lemma scanstring_escape_char (c : ascii) (tail : string) :
  scanstring (escape_char c +:+ tail)
  = match scanstring tail with
    | Some (t, r) => Some (String c t, r)
    | None => None
    end.
Proof.
  unfold escape_char.
  pose proof (nat_ascii_bounded c) as Hb.
  remember (nat_of_ascii c) as n eqn:Hn. symmetry in Hn.
  destruct (n =? 34)%nat eqn:E34; [two_char_escape E34|].
  destruct (n =? 92)%nat eqn:E92; [two_char_escape E92|].
  destruct (n =? 10)%nat eqn:E10; [two_char_escape E10|].
  destruct (n =? 13)%nat eqn:E13; [two_char_escape E13|].
  destruct (n =? 9)%nat eqn:E9; [two_char_escape E9|].
  destruct (n =? 12)%nat eqn:E12; [two_char_escape E12|].
  destruct (n =? 8)%nat eqn:E8; [two_char_escape E8|].
  destruct ((32 <=? n) && (n <=? 126))%nat eqn:Eplain.
  - apply andb_true_iff in Eplain as [Hlo Hhi]. apply Nat.leb_le in Hlo.
    cbn [String.append]. apply scanstring_plain; rewrite Hn; try assumption.
    apply Nat.ltb_ge. exact Hlo.
  - cbn [String.append].
    rewrite (scanstring_u_escape _ _ _ _ n).
    + apply ascii_of_code in Hn. now subst c.
    + unfold hex4. change (hex_value "0") with (Some 0%nat).
      rewrite !hex_value_digit.
      * f_equal. cbn [Nat.mul Nat.add].
        pose proof (Nat.div_mod_eq n 16). lia.
      * apply Nat.mod_upper_bound. lia.
      * apply Nat.Div0.div_lt_upper_bound. lia.
    + exact Hb.
Qed.

(** Reading back an escaped text gives the text. *)
Lemma scanstring_escape (s rest : string) :
  scanstring (escape s +:+ String dquote rest) = Some (s, rest).
Proof.
  induction s as [|c s IH]; [reflexivity|].
  cbn [escape]. rewrite append_assoc, scanstring_escape_char, IH. reflexivity.
Qed.

Lemma encode_string_append (s rest : string) :
  encode_string s +:+ rest = String dquote (escape s +:+ String dquote rest).
Proof. unfold encode_string. cbn [String.append]. now rewrite append_assoc. Qed.

Lemma item_append (k v rest : string) :
  item k v +:+ rest
  = String dquote (escape k +:+ String dquote
      (String ":" (String " " (String dquote
         (escape v +:+ String dquote rest))))).
Proof.
  unfold item. rewrite !append_assoc, encode_string_append.
  cbn [String.append]. now rewrite encode_string_append.
Qed.

Lemma to_JSON_shape (o : Album) :
  to_JSON o
  = String "{" (String newline
      (item "artist" (artist o) +:+ String "," (String newline
         (item "name" (name o) +:+ String "," (String newline
            (item "release_date" (release_date o)
               +:+ String newline (String "}" ""))))))).
Proof.
  unfold to_JSON, Album_dict.
  cbn [dumps_sorted_indent0 map fst snd].
  change (sort_keys
          [("name", encode_string (name o));
           ("artist", encode_string (artist o));
           ("release_date", encode_string (release_date o))])
    with [("artist", encode_string (artist o));
          ("name", encode_string (name o));
          ("release_date", encode_string (release_date o))].
  cbn [map join fst snd]. fold (item "artist" (artist o)).
  fold (item "name" (name o)).
  fold (item "release_date" (release_date o)).
  rewrite !append_assoc. reflexivity.
Qed.

Lemma expect_here (c : ascii) (s : string) :
  json_space c = false -> expect c (String c s) = Some s.
Proof.
  intros Hc. unfold expect. cbn [skip_ws]. rewrite Hc.
  now rewrite Ascii.eqb_refl.
Qed.

Lemma expect_after_newline (c : ascii) (s : string) :
  json_space c = false -> expect c (String newline (String c s)) = Some s.
Proof.
  intros Hc. unfold expect. cbn [skip_ws].
  change (json_space newline) with true. cbv iota. rewrite Hc.
  now rewrite Ascii.eqb_refl.
Qed.

(** One item, read from the line break before it up to what follows it. *)
Lemma parse_item (k v rest : string) (fuel : nat) :
  parse_members (S fuel) (String newline (item k v +:+ rest))
  = match skip_ws rest with
    | String c s6 =>
        if Ascii.eqb c ","%char then
          '(items, s7) ← parse_members fuel s6;
          Some ((k, v) :: items, s7)
        else if Ascii.eqb c "}"%char then Some ([(k, v)], s6)
        else None
    | EmptyString => None
    end.
Proof.
  rewrite item_append. cbn [parse_members].
  rewrite expect_after_newline by reflexivity. cbn [mbind option_bind].
  rewrite scanstring_escape. cbn [mbind option_bind].
  rewrite expect_here by reflexivity. cbn [mbind option_bind].
  change (expect dquote (String " " (String dquote ?x))) with (Some x).
  cbn [mbind option_bind]. rewrite scanstring_escape. reflexivity.
Qed.

(** C7, as the code has it.  Writing a release with [to_JSON] and reading
    the text back gives an object with exactly the three items "artist",
    "name" and "release_date", whose values are the record's artist, title
    and date label: the round trip is the identity on the three fields, the
    title being stored under the key "name". *)
Theorem album_json_round_trip (o : Album) :
  loads_object (to_JSON o)
  = Some [("artist", artist o); ("name", name o);
          ("release_date", release_date o)].
Proof.
  assert (exists f, String.length (to_JSON o) = S (S (S f))) as [f Hf].
  { rewrite to_JSON_shape, item_append. cbn [String.length]. eauto. }
  unfold loads_object. rewrite Hf, to_JSON_shape.
  rewrite expect_here by reflexivity. cbn [mbind option_bind].
  assert (expect "}"%char
            (String newline
               (item "artist" (artist o) +:+ String ","
                  (String newline
                     (item "name" (name o) +:+ String ","
                        (String newline
                           (item "release_date" (release_date o)
                              +:+ String newline (String "}" "")))))))
          = None) as ->.
  { rewrite item_append. reflexivity. }
  rewrite parse_item. cbn [skip_ws].
  change (json_space ",") with false. cbv iota.
  change (Ascii.eqb "," ",") with true. cbv iota.
  rewrite parse_item. cbn [skip_ws].
  change (json_space ",") with false. cbv iota.
  change (Ascii.eqb "," ",") with true. cbv iota.
  rewrite parse_item. reflexivity.
Qed.

(** Counterexample to C7 as it is stated, on the field names: the object
    read back has no item "title". *)
Lemma album_json_has_no_title :
  let o := mkAlbum "Test Album" "Test Artist" "Feb 15" in
  ~ (exists items,
       loads_object (to_JSON o) = Some items
       /\ assoc "title" items = Some (name o))
  /\ exists items,
       loads_object (to_JSON o) = Some items
       /\ assoc "title" items = None
       /\ assoc "name" items = Some "Test Album".
Proof.
  intros o. split.
  - intros (items & Hload & Htitle).
    vm_compute in Hload. injection Hload as <-. discriminate Htitle.
  - eexists. split; [vm_compute; reflexivity|]. split; reflexivity.
Qed.

End AlbumJson.
(** ** artist.py: the page cache and the discography *)

Section ArtistFacts.

Import ArtistPy.

Variable urlopen : list string -> string -> exn + BS4.Node.

Local Arguments String.append !_ _ /.


Lemma append_slash_inj a b : a +:+ "/" = b +:+ "/" -> a = b.
Proof.
  revert b. induction a as [|x a IH]; intros [|y b] H; cbn in H.
  - reflexivity.
  - injection H as _ H. destruct b; discriminate.
  - injection H as _ H. destruct a; discriminate.
  - injection H as -> H. f_equal. now apply IH.
Qed.


(** The five assignments touch neither the key nor the page nor the list
    of requests. *)
Lemma store_discography_frame cats o :
  let o' := snd (store_discography cats o) in
  url o' = url o /\ artist o' = artist o /\ requests o' = requests o
  /\ artist_page o' = artist_page o /\ top_songs o' = top_songs o.
Proof.
  unfold store_discography, bind, lift, modify, dict_getitem.
  destruct (cats !! "Albums"); [|cbn; auto 6].
  destruct (cats !! "Mixtapes"); [|cbn; auto 6].
  destruct (cats !! "EPs"); [|cbn; auto 6].
  destruct (cats !! "SinglesView All"); [|cbn; auto 6].
  destruct (cats !! "Similar Artists"); cbn; auto 6.
Qed.

(** They stop at the first heading that is missing. *)
Lemma store_discography_missing cats k o :
  first_missing cats = Some k ->
  fst (store_discography cats o) = inl (KeyError k).
Proof.
  unfold first_missing, required_categories, store_discography, bind, lift,
    modify, dict_getitem. cbn [List.filter].
  destruct (cats !! "Albums"); cbn [bool_decide decide_rel];
    [|intros [= <-]; reflexivity].
  rewrite bool_decide_eq_false_2 by discriminate.
  destruct (cats !! "Mixtapes"); [|intros [= <-]; reflexivity].
  rewrite bool_decide_eq_false_2 by discriminate.
  destruct (cats !! "EPs"); [|intros [= <-]; reflexivity].
  rewrite bool_decide_eq_false_2 by discriminate.
  destruct (cats !! "SinglesView All"); [|intros [= <-]; reflexivity].
  rewrite bool_decide_eq_false_2 by discriminate.
  destruct (cats !! "Similar Artists"); [|intros [= <-]; reflexivity].
  rewrite bool_decide_eq_false_2 by discriminate.
  discriminate.
Qed.

(** With the five headings on the page they all take place. *)
Lemma store_discography_complete cats o :
  first_missing cats = None ->
  let cat k := default [] (cats !! k) in
  store_discography cats o
  = (inr tt,
     set_similar_artists_cat (cat "Similar Artists")
       (set_singles (cat "SinglesView All")
          (set_eps (cat "EPs")
             (set_mixtapes (cat "Mixtapes") (set_albums (cat "Albums") o))))).
Proof.
  unfold first_missing, required_categories, store_discography, bind, lift,
    modify, dict_getitem. cbn [List.filter].
  destruct (cats !! "Albums"); [|discriminate].
  rewrite bool_decide_eq_false_2 by discriminate.
  destruct (cats !! "Mixtapes"); [|discriminate].
  rewrite bool_decide_eq_false_2 by discriminate.
  destruct (cats !! "EPs"); [|discriminate].
  rewrite bool_decide_eq_false_2 by discriminate.
  destruct (cats !! "SinglesView All"); [|discriminate].
  rewrite bool_decide_eq_false_2 by discriminate.
  destruct (cats !! "Similar Artists"); [|discriminate].
  reflexivity.
Qed.

(** Loading the page of [a] under its own URL: the key is set, the request
    is sent, and the callbacks of the two scans are not taken. *)
Lemma set_artist_page_run (d : nat) (a : string) (o : ArtistMethods) :
  __set_artist_page urlopen (S d) a (url_of a) o
  = let o1 := add_request (url_of a) (set_url (url_of a) (set_artist a o)) in
    match urlopen (requests o) (url_of a) with
    | inl e => (inl e, o1)
    | inr page =>
        match store_discography (classify page) (set_artist_page page o1) with
        | (inl e, o3) => (inl e, o3)
        | (inr _, o3) => (inr tt, set_top_songs (top_songs_of page) o3)
        end
    end.
Proof.
  cbn [__set_artist_page]. unfold bind at 1 2 3 4, modify at 1 2, fetch.
  cbn [requests set_url set_artist].
  destruct (urlopen (requests o) (url_of a)) as [e|page]; [reflexivity|].
  unfold modify at 1, bind at 1.
  unfold __get_discography at 1. fold (url_of a).
  unfold bind at 1 2 3, gets at 1, getattr at 1.
  cbn [url set_artist_page add_request set_url artist_page].
  rewrite bool_decide_eq_false_2 by (intros H; now apply H).
  unfold ret at 1.
  cbn [url set_artist_page add_request set_url artist_page].
  pose proof (store_discography_frame (classify page)
    (set_artist_page page
       (add_request (url_of a) (set_url (url_of a) (set_artist a o)))))
    as (Hurl & _ & _ & Hpage & _).
  destruct (store_discography (classify page) _) as [[e|[]] o3];
    [reflexivity|].
  cbn [snd url set_artist_page add_request set_url artist_page]
    in Hurl, Hpage.
  unfold __get_community_data. fold (url_of a).
  unfold bind, gets, getattr, modify, ret. rewrite Hurl.
  rewrite bool_decide_eq_false_2 by (intros H; now apply H).
  cbv beta iota. rewrite Hpage. reflexivity.
Qed.

(** The category a block is filed under is a key of the dict, so the
    [append] of the loop never meets a missing key. *)
Lemma classify_current_present elements : forall cats cur,
  (forall c, cur = Some c -> is_Some (cats !! c)) ->
  forall c,
    snd (fold_left classify_step elements (cats, cur)) = Some c ->
    is_Some (fst (fold_left classify_step elements (cats, cur)) !! c).
Proof.
  induction elements as [|element elements IH]; intros cats cur Hinv;
    [exact Hinv|].
  cbn [fold_left].
  destruct (classify_step (cats, cur) element) as [cats' cur'] eqn:Hstep.
  apply IH. intros c Hc. subst cur'.
  unfold classify_step in Hstep.
  destruct (BS4.is_tag "h2" element).
  { injection Hstep as <- <-. rewrite lookup_insert_eq. eauto. }
  destruct cur as [c0|]; [|congruence].
  assert (Hfound : forall d, is_Some (append_found cats c0 d !! c0)).
  { intros [d|]; cbn [append_found]; [|now apply Hinv].
    apply lookup_alter_is_Some. now apply Hinv. }
  destruct (BS4.is_tag "div" element && String.eqb c0 "Similar Artists");
    [injection Hstep as <- <-; apply Hfound|].
  destruct (BS4.is_tag "div" element && negb (String.eqb c0 ""));
    [injection Hstep as <- <-; apply Hfound|].
  injection Hstep as <- <-. now apply Hinv.
Qed.

Lemma ensure_page_hit a o :
  url o = url_of a -> ensure_page urlopen a o = (inr tt, o).
Proof.
  intros H. unfold ensure_page, bind, gets. fold (url_of a).
  now rewrite bool_decide_eq_false_2 by (intros Hne; now apply Hne).
Qed.

Lemma ensure_page_miss a o :
  url o <> url_of a ->
  ensure_page urlopen a o
  = __set_artist_page urlopen recursion_limit a (url_of a) o.
Proof.
  intros H. unfold ensure_page, bind, gets. fold (url_of a).
  now rewrite bool_decide_eq_true_2 by assumption.
Qed.

(** A miss sends exactly one request, for the page asked for, and leaves
    that page's URL as the key, whatever the outcome of the load. *)
Lemma ensure_page_miss_frame a o :
  url o <> url_of a ->
  let o' := snd (ensure_page urlopen a o) in
  url o' = url_of a /\ requests o' = requests o ++ [url_of a].
Proof.
  intros H. rewrite ensure_page_miss by assumption.
  change recursion_limit with (S 999). rewrite set_artist_page_run.
  destruct (urlopen (requests o) (url_of a)) as [e|page]; [cbn; auto|].
  pose proof (store_discography_frame (classify page)
    (set_artist_page page
       (add_request (url_of a) (set_url (url_of a) (set_artist a o)))))
    as (Hurl & _ & Hreq & _).
  cbv zeta in *.
  destruct (store_discography (classify page) _) as [[e|[]] o3];
    cbn in Hurl, Hreq |- *; auto.
Qed.

(** A miss that succeeds replaces every attribute. *)
Lemma ensure_page_miss_ok a o page :
  url o <> url_of a ->
  urlopen (requests o) (url_of a) = inr page ->
  first_missing (classify page) = None ->
  ensure_page urlopen a o
  = (inr tt, populated a page (requests o ++ [url_of a])).
Proof.
  intros H Hpage Hcats. rewrite ensure_page_miss by assumption.
  change recursion_limit with (S 999). rewrite set_artist_page_run, Hpage.
  cbv zeta. rewrite store_discography_complete by assumption. reflexivity.
Qed.

(** A miss on a page that lacks a required heading raises [KeyError]. *)
Lemma ensure_page_miss_missing a o page k :
  url o <> url_of a ->
  urlopen (requests o) (url_of a) = inr page ->
  first_missing (classify page) = Some k ->
  fst (ensure_page urlopen a o) = inl (KeyError k).
Proof.
  intros H Hpage Hk. rewrite ensure_page_miss by assumption.
  change recursion_limit with (S 999). rewrite set_artist_page_run, Hpage.
  cbv zeta.
  pose proof (store_discography_missing (classify page) k
    (set_artist_page page
       (add_request (url_of a) (set_url (url_of a) (set_artist a o)))) Hk)
    as Hfail.
  destruct (store_discography (classify page) _) as [[e|[]] o3];
    cbn in Hfail |- *; congruence.
Qed.

Lemma first_missing_some cats k0 :
  k0 ∈ required_categories -> cats !! k0 = None ->
  exists k, first_missing cats = Some k.
Proof.
  intros Hin Hk0. unfold first_missing.
  destruct (List.filter _ required_categories) as [|k l] eqn:E; [|eauto].
  exfalso.
  assert (In k0 (List.filter
            (fun k => bool_decide (cats !! k = None)) required_categories))
    as Hf.
  { apply filter_In. split; [now apply list_elem_of_In|].
    now apply bool_decide_eq_true_2. }
  rewrite E in Hf. exact Hf.
Qed.

Lemma first_missing_absent cats k :
  first_missing cats = Some k -> k ∈ required_categories /\ cats !! k = None.
Proof.
  unfold first_missing. intros H.
  destruct (List.filter _ required_categories) as [|k' l] eqn:E;
    [discriminate|].
  injection H as ->.
  assert (In k (List.filter
            (fun k => bool_decide (cats !! k = None)) required_categories))
    as Hf by (rewrite E; now left).
  apply filter_In in Hf as [Hin Hnone]. apply bool_decide_eq_true in Hnone.
  split; [now apply list_elem_of_In | exact Hnone].
Qed.

Lemma artist_albums_run a o :
  artist_albums urlopen a o
  = match ensure_page urlopen a o with
    | (inl e, o') => (inl e, o')
    | (inr _, o') => (inr (albums o'), o')
    end.
Proof.
  unfold artist_albums, bind, gets.
  destruct (ensure_page urlopen a o) as [[e|[]] o']; reflexivity.
Qed.

Lemma artist_albums_state a o :
  snd (artist_albums urlopen a o) = snd (ensure_page urlopen a o).
Proof.
  rewrite artist_albums_run.
  destruct (ensure_page urlopen a o) as [[e|[]] o']; reflexivity.
Qed.


Lemma accessor_fails {A} (f : M ArtistMethods A) a o e :
  fst (ensure_page urlopen a o) = inl e ->
  fst (bind (ensure_page urlopen a) (fun _ => f) o) = inl e.
Proof.
  unfold bind. destruct (ensure_page urlopen a o) as [[e'|[]] o'];
    cbn [fst]; intros He; [now injection He as -> | discriminate He].
Qed.

(** C5, as the code has it.  The classification is looked up when the page
    is loaded, not when a category is asked for: on a page that lacks one
    of the headings "Albums", "Mixtapes", "EPs", "SinglesView All" and
    "Similar Artists", the call that loads the page raises KeyError for the
    first of them that is missing, whichever accessor made the call and
    whichever category it asked for. *)
Theorem missing_category_fails_the_load (a : string) (o : ArtistMethods)
    (page : BS4.Node) (k0 : string) :
  url o <> url_of a ->
  urlopen (requests o) (url_of a) = inr page ->
  k0 ∈ required_categories ->
  classify page !! k0 = None ->
  exists k,
    first_missing (classify page) = Some k
    /\ k ∈ required_categories
    /\ classify page !! k = None
    /\ fst (artist_albums urlopen a o) = inl (KeyError k)
    /\ fst (artist_mixtapes urlopen a o) = inl (KeyError k)
    /\ fst (artist_eps urlopen a o) = inl (KeyError k)
    /\ fst (artist_singles urlopen a o) = inl (KeyError k)
    /\ fst (similar_artists urlopen a o) = inl (KeyError k)
    /\ fst (artist_top_songs urlopen a o) = inl (KeyError k).
Proof.
  intros H Hpage Hin Hk0.
  destruct (first_missing_some (classify page) k0 Hin Hk0) as [k Hk].
  destruct (first_missing_absent _ _ Hk) as [Hkin Hknone].
  pose proof (ensure_page_miss_missing a o page k H Hpage Hk) as Hfail.
  exists k. repeat split; try assumption;
    unfold artist_albums, artist_mixtapes, artist_eps, artist_singles,
      similar_artists, artist_top_songs;
    now apply accessor_fails.
Qed.

End ArtistFacts.

Section ArtistExamples.

Import ArtistPy.


Lemma missing_category_fails_the_load_witness :
  exists k,
    first_missing (classify (Samples.artist_page false)) = Some k
    /\ k ∈ required_categories
    /\ classify (Samples.artist_page false) !! k = None
    /\ fst (artist_albums Samples.artist_site_without_mixtapes
              "183-kanye-west" init) = inl (KeyError k)
    /\ fst (artist_mixtapes Samples.artist_site_without_mixtapes
              "183-kanye-west" init) = inl (KeyError k)
    /\ fst (artist_eps Samples.artist_site_without_mixtapes
              "183-kanye-west" init) = inl (KeyError k)
    /\ fst (artist_singles Samples.artist_site_without_mixtapes
              "183-kanye-west" init) = inl (KeyError k)
    /\ fst (similar_artists Samples.artist_site_without_mixtapes
              "183-kanye-west" init) = inl (KeyError k)
    /\ fst (artist_top_songs Samples.artist_site_without_mixtapes
              "183-kanye-west" init) = inl (KeyError k).
Proof.
  apply (missing_category_fails_the_load
           Samples.artist_site_without_mixtapes "183-kanye-west" init
           (Samples.artist_page false) "Mixtapes").
  - discriminate.
  - reflexivity.
  - unfold required_categories. apply list_elem_of_further, list_elem_of_here.
  - vm_compute. reflexivity.
Defined.

(** Counterexample to C5 as it is stated: on a page that has its "Albums"
    section but no "Mixtapes" section, the first request for the albums
    raises the KeyError of "Mixtapes". *)
Lemma albums_request_fails_without_mixtapes :
  classify (Samples.artist_page false) !! "Albums"
  = Some ["The College Dropout"; "Late Registration"]
  /\ classify (Samples.artist_page false) !! "Mixtapes" = None
  /\ fst (artist_albums Samples.artist_site_without_mixtapes
            "183-kanye-west" init) = inl (KeyError "Mixtapes").
Proof. repeat split; vm_compute; reflexivity. Qed.


End ArtistExamples.

(** ** user.py: the rating distribution *)

Section UserFacts.

Import UserPy.

Variable urlopen : list string -> string -> exn + BS4.Node.

Lemma split_nil_lstrip s : split s = [] -> lstrip s = "".
Proof.
  induction s as [|c s IH]; [reflexivity|]. cbn [split lstrip].
  destruct (isspace c); [exact IH|].
  destruct s as [|c' s']; [discriminate|].
  destruct (isspace c'); [discriminate|].
  destruct (split (String c' s')); discriminate.
Qed.

(** A token has no whitespace at either end. *)
Lemma split_tokens s :
  Forall (fun t => rstrip t = t /\ lstrip t = t /\ t <> "") (split s).
Proof.
  induction s as [|c s IH]; [constructor|]. cbn [split].
  destruct (isspace c) eqn:Hc; [exact IH|].
  assert (Hone : rstrip (String c "") = String c ""
                 /\ lstrip (String c "") = String c "" /\ String c "" <> "").
  { cbn. rewrite Hc. repeat split. discriminate. }
  destruct s as [|c' s']; [repeat constructor; apply Hone|].
  destruct (isspace c') eqn:Hc'; [constructor; [exact Hone | exact IH]|].
  destruct (split (String c' s')) as [|t ts];
    [repeat constructor; apply Hone|].
  inversion IH as [|? ? (Hr & Hl & Hne) Hts]; subst.
  constructor; [|exact Hts].
  split; [now apply rstrip_keep|]. split; [|discriminate].
  cbn [lstrip]. now rewrite Hc.
Qed.

Lemma getitem_last {A} (l : list A) : getitem l (-1) = last l.
Proof.
  unfold getitem. change (-1 <? 0)%Z with true. cbv iota.
  rewrite last_lookup. destruct l as [|x l]; [reflexivity|].
  cbn [length].
  destruct (Z.of_nat (S (length l)) + -1 <? 0)%Z eqn:E;
    [apply Z.ltb_lt in E; lia|].
  f_equal. lia.
Qed.

(** The entry the code computes for a row is the one [entry_of] names. *)
Lemma rating_of_entry text : rating_of text = inr (entry_of text).
Proof.
  unfold rating_of, entry_of.
  destruct (String.eqb_spec (strip text) "") as [Hblank|Hblank];
    [reflexivity|]. cbn [negb].
  rewrite getitem_last.
  pose proof (split_tokens text) as Htok.
  destruct (last (split text)) as [t|] eqn:Hlast.
  - apply last_Some in Hlast as [l' Hl']. rewrite Hl' in Htok.
    apply Forall_app in Htok as [_ Ht].
    inversion Ht as [|? ? (Hr & Hl & _) _]; subst.
    cbn [default]. unfold strip. now rewrite Hl, Hr.
  - exfalso. apply Hblank. unfold strip.
    apply last_None in Hlast. now rewrite (split_nil_lstrip _ Hlast).
Qed.

Lemma getitem_nonneg {A} (l : list A) (i : nat) :
  getitem l (Z.of_nat i) = l !! i.
Proof.
  unfold getitem. destruct (Z.of_nat i <? 0)%Z eqn:E;
    [apply Z.ltb_lt in E; lia|]. now rewrite Nat2Z.id.
Qed.

Lemma seqZ_succ (k n : nat) :
  seqZ (Z.of_nat k) (Z.of_nat (S n))
  = Z.of_nat k :: seqZ (Z.of_nat (S k)) (Z.of_nat n).
Proof.
  rewrite seqZ_cons by lia. f_equal. f_equal; lia.
Qed.

(** With enough rows the loop gives one entry per index, in order. *)
Lemma distribution_loop_enough tags (n : nat) : forall (k : nat) acc,
  (k + n <= length tags)%nat ->
  distribution_loop (seqZ (Z.of_nat k) (Z.of_nat n)) tags acc
  = inr (acc ++ map (fun t => entry_of (BS4.getText t))
                  (take n (drop k tags))).
Proof.
  induction n as [|n IH]; intros k acc Hlen.
  - change (seqZ (Z.of_nat k) (Z.of_nat 0)) with (@nil Z).
    cbn [distribution_loop take map]. now rewrite app_nil_r.
  - rewrite seqZ_succ. cbn [distribution_loop]. rewrite getitem_nonneg.
    destruct (lookup_lt_is_Some_2 tags k ltac:(lia)) as [t Ht].
    rewrite Ht, rating_of_entry, IH by lia.
    rewrite (drop_S tags t k Ht). cbn [take map].
    now rewrite <- app_assoc.
Qed.

(** With too few rows it stops on the first missing one. *)
Lemma distribution_loop_short tags (n : nat) : forall (k : nat) acc,
  (k <= length tags < k + n)%nat ->
  distribution_loop (seqZ (Z.of_nat k) (Z.of_nat n)) tags acc
  = inl (IndexError "list index out of range").
Proof.
  induction n as [|n IH]; intros k acc Hlen; [lia|].
  rewrite seqZ_succ. cbn [distribution_loop]. rewrite getitem_nonneg.
  destruct (tags !! k) as [t|] eqn:Ht; [|reflexivity].
  apply lookup_lt_Some in Ht as Hk.
  rewrite rating_of_entry. apply IH. lia.
Qed.

Lemma distribution_dict_spec (l : list string) :
  length l = 11%nat ->
  distribution_dict score_ranges 0 l
  = inr (zip score_ranges (map JString l)).
Proof.
  intros Hlen.
  do 11 (destruct l as [|? l]; [discriminate|]).
  destruct l; [reflexivity | discriminate].
Qed.

(** When the page resident after the check holds the rows. *)
Lemma user_page_check_hit user o page :
  url o = user_url +:+ user -> user_page o = Some page ->
  ensure_page urlopen user (user_url +:+ user) o = (inr tt, o).
Proof.
  intros Hurl Hpage. unfold ensure_page, bind, gets, id.
  rewrite bool_decide_eq_false_2 by (intros H; now apply H).
  rewrite bool_decide_eq_false_2 by (rewrite Hpage; discriminate).
  reflexivity.
Qed.

Lemma user_page_check_miss user o page :
  url o <> user_url +:+ user \/ user_page o = None ->
  urlopen (requests o) (user_url +:+ user) = inr page ->
  ensure_page urlopen user (user_url +:+ user) o
  = (inr tt,
     mkUserMethods user (user_url +:+ user) (Some page)
       (requests o ++ [user_url +:+ user])).
Proof.
  intros Hmiss Hpage. unfold ensure_page, bind, gets, id.
  assert (bool_decide (url o <> user_url +:+ user)
          || bool_decide (user_page o = None) = true) as ->.
  { apply orb_true_iff.
    destruct Hmiss; [left | right]; now apply bool_decide_eq_true_2. }
  unfold __set_user_page. now rewrite Hpage.
Qed.

(** C10.  Once the page check has passed with the document [page]
    resident, the rating distribution is read from the elements of class
    "distRow" of that document.  With at least 11 of them the answer is a
    list of exactly 11 strings, the entries of the first 11 rows in order
    (the last whitespace-separated token of the row's text, or "0" for a
    blank text), and the JSON form pairs them in that order with the keys
    "100", "90-99", ..., "0-9".  With fewer than 11 the call raises
    IndexError and no list is returned. *)
Theorem user_rating_distribution_spec (user : string) (o o1 : UserMethods)
    (page : BS4.Node) :
  ensure_page urlopen user (user_url +:+ user) o = (inr tt, o1) ->
  user_page o1 = Some page ->
  let tags := BS4.find_all (BS4.has_class "distRow") page in
  let entries := map (fun t => entry_of (BS4.getText t)) (take 11 tags) in
  ((11 <= length tags)%nat ->
     user_rating_distribution urlopen user o = (inr entries, o1)
     /\ length entries = 11%nat
     /\ user_rating_distribution_json urlopen user o
        = (inr (dumps (JDict (zip ["100"; "90-99"; "80-89"; "70-79"; "60-69";
                                   "50-59"; "40-49"; "30-39"; "20-29";
                                   "10-19"; "0-9"]
                                  (map JString entries)))), o1))
  /\ ((length tags < 11)%nat ->
       exists msg,
         user_rating_distribution urlopen user o = (inl (IndexError msg), o1)
         /\ user_rating_distribution_json urlopen user o
            = (inl (IndexError msg), o1)).
Proof.
  intros Hcheck Hpage tags entries.
  assert (Hrun : user_rating_distribution urlopen user o
                 = (distribution_loop (range 0 11) tags [], o1)).
  { unfold user_rating_distribution, bind, gets, lift.
    rewrite Hcheck, Hpage. reflexivity. }
  change (range 0 11) with (seqZ (Z.of_nat 0) (Z.of_nat 11)) in Hrun.
  split.
  - intros Hlen.
    rewrite distribution_loop_enough in Hrun by (cbn; lia).
    rewrite drop_0 in Hrun. cbn [app] in Hrun. fold entries in Hrun.
    assert (Hl : length entries = 11%nat).
    { subst entries. rewrite length_map, length_take. lia. }
    split; [exact Hrun|]. split; [exact Hl|].
    unfold user_rating_distribution_json, bind. rewrite Hrun.
    unfold lift, ret. now rewrite distribution_dict_spec.
  - intros Hlen. exists "list index out of range".
    rewrite distribution_loop_short in Hrun by (cbn; lia).
    split; [exact Hrun|].
    unfold user_rating_distribution_json, bind. now rewrite Hrun.
Qed.

End UserFacts.

Section UserExamples.

Import UserPy.

Lemma user_rating_distribution_spec_witness :
  (user_rating_distribution Samples.user_site "doublez" init
   = (inr ["7"; "12"; "30"; "41"; "9"; "3"; "1"; "0"; "2"; "0"; "0"],
      mkUserMethods "doublez" (user_url +:+ "doublez")
        (Some (Samples.user_page Samples.eleven_rows))
        [user_url +:+ "doublez"]))
  /\ (exists msg,
        fst (user_rating_distribution Samples.short_user_site "doublez" init)
        = inl (IndexError msg)).
Proof.
  split.
  - destruct (user_rating_distribution_spec Samples.user_site "doublez" init
                (mkUserMethods "doublez" (user_url +:+ "doublez")
                   (Some (Samples.user_page Samples.eleven_rows))
                   [user_url +:+ "doublez"])
                (Samples.user_page Samples.eleven_rows))
      as [Hok _]; [reflexivity | reflexivity |].
    destruct Hok as (Hrun & _ & _); [vm_compute; lia|].
    rewrite Hrun. vm_compute. reflexivity.
  - destruct (user_rating_distribution_spec Samples.short_user_site "doublez"
                init
                (mkUserMethods "doublez" (user_url +:+ "doublez")
                   (Some (Samples.user_page (take 10 Samples.eleven_rows)))
                   [user_url +:+ "doublez"])
                (Samples.user_page (take 10 Samples.eleven_rows)))
      as [_ Hshort]; [reflexivity | reflexivity |].
    destruct Hshort as (msg & Hrun & _); [vm_compute; lia|].
    exists msg. now rewrite Hrun.
Defined.

End UserExamples.

(** * Further properties *)

(** ** album.py: single pages, page addresses and the bounds of the scans *)

Section AlbumMore.

Import AlbumPy.

Variable urlopen : list string -> string -> exn + BS4.Node.

Local Abbreviation by_page := (_get_upcoming_releases_by_page urlopen).

Local Arguments String.append !_ _ /.

(** [str] is one-to-one. *)
Lemma str_inj n m : str n = str m -> n = m.
Proof.
  unfold str. intros H. apply DecimalZ.to_int_inj.
  assert (Hnn : forall z, Z.to_int z <> Decimal.Pos Decimal.Nil
                          /\ Z.to_int z <> Decimal.Neg Decimal.Nil).
  { intros [|p|p]; cbn; split; try discriminate;
      intros [= Hp]; exact (DecimalPos.Unsigned.to_uint_nonnil p Hp). }
  destruct (Hnn n) as [Hn1 Hn2]. destruct (Hnn m) as [Hm1 Hm2].
  pose proof (NilZero.isi _ Hn1 Hn2) as Hn.
  pose proof (NilZero.isi _ Hm1 Hm2) as Hm.
  rewrite H in Hn. rewrite Hn in Hm. now injection Hm.
Qed.

Lemma str_not_empty n : str n <> "".
Proof. apply rstrip_str. Qed.

(** X1.  Page addresses.  Every page number up to 1 (0 and the negative
    ones included) has the address of the first page; from 1 on, two page
    numbers with the same address are equal. *)
Theorem page_url_spec :
  (forall p, (p <= 1)%Z ->
     page_url p = "https://www.albumoftheyear.org/upcoming/")
  /\ (forall p q, (1 <= p)%Z -> (1 <= q)%Z -> page_url p = page_url q -> p = q).
Proof.
  split.
  - intros p Hp. unfold page_url.
    destruct (p >? 1)%Z eqn:E; [rewrite Z.gtb_ltb in E; apply Z.ltb_lt in E; lia|].
    reflexivity.
  - intros p q Hp Hq H. unfold page_url in H.
    apply String.app_inj in H.
    destruct (p >? 1)%Z eqn:Ep; destruct (q >? 1)%Z eqn:Eq;
      rewrite Z.gtb_ltb in Ep, Eq.
    + apply append_slash_inj in H. now apply str_inj.
    + exfalso. destruct (str p) eqn:Es; [now apply (str_not_empty p)|].
      discriminate H.
    + exfalso. destruct (str q) eqn:Es; [now apply (str_not_empty q)|].
      discriminate H.
    + apply Z.ltb_ge in Ep, Eq. lia.
Qed.

(** X2.  The page-by-page entry point never raises.  Beyond the page limit
    it answers with the fixed "out of range" error response and sends no
    request; within the limit it sends exactly one request, for the page's
    address, and answers with the records of the page, or, whatever the
    fault of the fetch or of the parser, with that same fixed response (the
    fault's own text is not reported). *)
Theorem upcoming_releases_by_page_spec (p : Z) (h : list string) :
  let run := upcoming_releases_by_page urlopen p h in
  let out_of_range :=
    dumps (_build_error_response "Page Limit Error"
             "The page number requested is out of range.") in
  ((page_limit < p)%Z -> run = (inr out_of_range, h))
  /\ ((p <= page_limit)%Z -> snd run = h ++ [page_url p])
  /\ (forall page h', by_page p h = (inr page, h') ->
        run = (inr (albums_response page), h'))
  /\ (forall e h', by_page p h = (inl e, h') -> run = (inr out_of_range, h')).
Proof.
  intros run out_of_range. subst run out_of_range.
  unfold upcoming_releases_by_page, bind, try_except, ret.
  split; [|split; [|split]].
  - intros Hp. now rewrite by_page_beyond_limit.
  - intros Hp. rewrite by_page_within_limit by assumption.
    destruct (urlopen h (page_url p)) as [e|d]; [reflexivity|].
    destruct (_parse_albums (upcoming_blocks d)); reflexivity.
  - intros page h' ->. reflexivity.
  - intros e h' ->. reflexivity.
Qed.

(** X3.  A total of zero or less asks for nothing: the scan by count sends
    no request and answers with the empty list, whatever the site. *)
Theorem by_limit_nothing_to_fetch (total : Z) (requests : list string) :
  (total <= 0)%Z ->
  upcoming_releases_by_limit urlopen total requests
  = (inr (albums_response []), requests).
Proof.
  intros Ht. unfold upcoming_releases_by_limit, range.
  assert (Hn : (max_page_number total <= 0)%Z).
  { unfold max_page_number, aoty_albums_per_page.
    pose proof (Z.div_mod total 60 ltac:(lia)) as Hdm.
    pose proof (Z.mod_pos_bound total 60 ltac:(lia)) as Hb.
    destruct (total mod 60 =? 0)%Z eqn:E; cbn [negb].
    - apply Z.eqb_eq in E. lia.
    - apply Z.eqb_neq in E. lia. }
  rewrite seqZ_nil by lia. reflexivity.
Qed.

(** The loop of the scan by count over pages that can all be read,
    whatever their sizes: every page but the last is kept whole, and the
    last one is cut to what the counter says is missing. *)
Lemma by_limit_loop_shape (m : nat) :
  forall k albums counter h init last_page,
  pages_read urlopen (seqZ k (Z.of_nat (S m))) h = init ++ [last_page] ->
  length init = m ->
  (60 * Z.of_nat m < counter <= 60 * Z.of_nat (S m))%Z ->
  by_limit_loop urlopen (seqZ k (Z.of_nat (S m))) albums counter h
  = (inr (albums_response
            (albums ++ concat init
               ++ (if (counter - 60 * Z.of_nat m <? 60)%Z
                   then take (Z.to_nat (counter - 60 * Z.of_nat m)) last_page
                   else last_page))),
     h ++ map page_url (seqZ k (Z.of_nat (S m)))).
Proof.
  induction m as [|m IH]; intros k albums counter h init last_page Hread Hlen Hc.
  - destruct init; [|discriminate]. cbn [app concat] in *.
    change (seqZ k (Z.of_nat 1)) with [k] in *.
    cbn [pages_read by_limit_loop map] in *.
    unfold bind, try_except.
    destruct (by_page k h) as [[e|page] h1] eqn:Hp; [discriminate|].
    injection Hread as ->.
    apply by_page_ok_within in Hp as [_ ->].
    replace (counter - 60 * Z.of_nat 0)%Z with counter by lia.
    unfold aoty_albums_per_page, ret, slice_to.
    destruct (counter <? 60)%Z; [|reflexivity].
    destruct (counter <? 0)%Z eqn:E0; [apply Z.ltb_lt in E0; lia|].
    reflexivity.
  - rewrite seqZ_cons in * by lia.
    replace (Z.pred (Z.of_nat (S (S m)))) with (Z.of_nat (S m)) in * by lia.
    cbn [pages_read by_limit_loop map] in *.
    unfold bind at 1, try_except.
    destruct (by_page k h) as [[e|page] h1] eqn:Hp;
      [destruct init; discriminate|].
    apply by_page_ok_within in Hp as [_ ->].
    destruct init as [|page' init]; [discriminate|].
    cbn [length app] in *. injection Hread as <- Hread.
    unfold aoty_albums_per_page.
    destruct (counter <? 60)%Z eqn:E; [apply Z.ltb_lt in E; lia|].
    rewrite (IH (Z.succ k) (albums ++ page) (counter - 60)%Z
               (h ++ [page_url k]) init last_page Hread ltac:(lia) ltac:(lia)).
    replace (counter - 60 - 60 * Z.of_nat m)%Z
      with (counter - 60 * Z.of_nat (S m))%Z by lia.
    cbn [concat]. rewrite <- !app_assoc. reflexivity.
Qed.

(** X4.  The scan by count on pages of any size.  When the n = ceil(total /
    60) pages it needs can all be read, the answer holds every page but the
    last one whole, followed by the last page whole when total is a
    multiple of 60 and by its first total mod 60 records otherwise.  So
    short pages give fewer records than asked for, never an error, and when
    no page holds more than 60 records the answer holds at most total. *)
Theorem by_limit_any_page_size (total : Z) (requests : list string)
    (init : list (list Album)) (last_page : list Album) :
  (0 < total)%Z ->
  pages_read urlopen (seqZ 1 (max_page_number total)) requests
  = init ++ [last_page] ->
  Z.of_nat (length init) = (max_page_number total - 1)%Z ->
  let albums :=
    concat init
      ++ (if (total mod 60 =? 0)%Z then last_page
          else take (Z.to_nat (total mod 60)) last_page) in
  upcoming_releases_by_limit urlopen total requests
  = (inr (albums_response albums),
     requests ++ map page_url (seqZ 1 (max_page_number total)))
  /\ (Forall (fun page => (length page <= 60)%nat) (init ++ [last_page]) ->
      (Z.of_nat (length albums) <= total)%Z).
Proof.
  intros Ht Hread Hlen albums.
  pose proof (max_page_number_ceil total ltac:(lia)) as Hn.
  set (n := max_page_number total) in *.
  assert (Hm : n = Z.of_nat (S (length init))) by lia.
  assert (Hcut : (if (total - 60 * Z.of_nat (length init) <? 60)%Z
                  then take (Z.to_nat (total - 60 * Z.of_nat (length init)))
                         last_page
                  else last_page)
                 = (if (total mod 60 =? 0)%Z then last_page
                    else take (Z.to_nat (total mod 60)) last_page)).
  { destruct (total - 60 * Z.of_nat (length init) <? 60)%Z eqn:E.
    - apply Z.ltb_lt in E.
      assert (Hmod : (total mod 60 = total - 60 * Z.of_nat (length init))%Z).
      { symmetry. apply (Z.mod_unique_pos total 60 (Z.of_nat (length init))); lia. }
      rewrite Hmod.
      destruct (total - 60 * Z.of_nat (length init) =? 0)%Z eqn:E0;
        [apply Z.eqb_eq in E0; lia | reflexivity].
    - apply Z.ltb_ge in E.
      assert (Hmod : (total mod 60 = 0)%Z).
      { symmetry. apply (Z.mod_unique_pos total 60 (Z.of_nat (S (length init)))); lia. }
      now rewrite Hmod. }
  split.
  - unfold upcoming_releases_by_limit, range. fold n.
    replace (n + 1 - 1)%Z with n by lia. rewrite Hm in *.
    rewrite (by_limit_loop_shape (length init) 1 [] total requests init
               last_page Hread eq_refl ltac:(lia)).
    cbn [app]. subst albums. now rewrite Hcut.
  - intros Hsmall. subst albums. apply Forall_app in Hsmall as [Hinit Hlast].
    apply Forall_inv in Hlast.
    assert (Hci : (length (concat init) <= 60 * length init)%nat).
    { clear -Hinit. induction Hinit as [|page l Hp _ IH]; [cbn; lia|].
      cbn [concat length]. rewrite length_app. lia. }
    rewrite length_app.
    pose proof (Z.mod_pos_bound total 60 ltac:(lia)).
    pose proof (Z.div_mod total 60 ltac:(lia)).
    destruct (total mod 60 =? 0)%Z eqn:E.
    + apply Z.eqb_eq in E. lia.
    + apply Z.eqb_neq in E. rewrite length_take.
      assert (total - 60 * Z.of_nat (length init) < 60)%Z.
      { destruct (Z_lt_ge_dec (total - 60 * Z.of_nat (length init)) 60);
          [assumption|].
        assert (total mod 60 = 0)%Z; [|lia].
        symmetry.
        apply (Z.mod_unique_pos total 60 (Z.of_nat (S (length init)))); lia. }
      assert (total mod 60 = total - 60 * Z.of_nat (length init))%Z.
      { symmetry.
        apply (Z.mod_unique_pos total 60 (Z.of_nat (length init))); lia. }
      lia.
Qed.

Lemma by_page_requests p h :
  snd (by_page p h)
  = if (p >? page_limit)%Z then h else h ++ [page_url p].
Proof.
  destruct (p >? page_limit)%Z eqn:E; rewrite Z.gtb_ltb in E.
  - apply Z.ltb_lt in E. now rewrite by_page_beyond_limit.
  - apply Z.ltb_ge in E. now rewrite by_page_within_limit.
Qed.

Lemma seqZ_snoc (k : Z) (j : nat) :
  seqZ k (Z.of_nat (S j)) = seqZ k (Z.of_nat j) ++ [(k + Z.of_nat j)%Z].
Proof.
  replace (Z.of_nat (S j)) with (Z.of_nat j + 1)%Z by lia.
  rewrite seqZ_app by lia. reflexivity.
Qed.

Lemma by_date_loop_requests target next (fuel : nat) : forall p acc h,
  exists m : nat,
    (m = 0%nat \/ (p + Z.of_nat m - 1 <= page_limit)%Z)
    /\ snd (by_date_loop urlopen fuel target next p acc h)
       = h ++ map page_url (seqZ p (Z.of_nat m)).
Proof.
  induction fuel as [|fuel IH]; intros p acc h.
  - exists 0%nat. cbn. rewrite app_nil_r. auto.
  - cbn [by_date_loop]. change (p + 1)%Z with (Z.succ p). unfold bind.
    destruct (by_page p h) as [[e|page] h1] eqn:Hp.
    + pose proof (by_page_requests p h) as Hreq. rewrite Hp in Hreq.
      cbn [snd] in *. subst h1.
      destruct (p >? page_limit)%Z eqn:E; rewrite Z.gtb_ltb in E.
      * exists 0%nat. cbn. rewrite app_nil_r. auto.
      * apply Z.ltb_ge in E. exists 1%nat.
        change (seqZ p (Z.of_nat 1)) with [p]. split; [right; lia | reflexivity].
    + apply by_page_ok_within in Hp as [Hlim ->].
      rewrite scan_page_spec. cbn [orb].
      destruct (existsb _ page).
      * exists 1%nat. change (seqZ p (Z.of_nat 1)) with [p].
        split; [right; lia | reflexivity].
      * destruct (IH (Z.succ p) (acc ++ filter (dated target) page)
                    (h ++ [page_url p])) as (m & Hm & ->).
        exists (S m). rewrite (seqZ_cons p) by lia.
        replace (Z.pred (Z.of_nat (S m))) with (Z.of_nat m) by lia.
        cbn [map]. rewrite <- app_assoc. split; [right; lia | reflexivity].
Qed.

(** X5.  Neither scan ever sends more than 21 requests, and what they
    send is always the addresses of the pages 1, 2, ..., k in that order,
    without a gap or a repeat, whatever the site answers and whatever the
    arguments; the scan by count never goes past the pages it needs. *)
Theorem scans_request_a_prefix_of_the_pages :
  (forall total requests,
     exists k : nat,
       (Z.of_nat k <= page_limit)%Z
       /\ (Z.of_nat k <= Z.max 0 (max_page_number total))%Z
       /\ snd (upcoming_releases_by_limit urlopen total requests)
          = requests ++ map page_url (seqZ 1 (Z.of_nat k)))
  /\ (forall fuel month day requests,
        exists k : nat,
          (Z.of_nat k <= page_limit)%Z
          /\ snd (upcoming_releases_by_date urlopen fuel month day requests)
             = requests ++ map page_url (seqZ 1 (Z.of_nat k))).
Proof.
  split.
  - intros total requests. unfold upcoming_releases_by_limit, range.
    set (n := max_page_number total).
    replace (n + 1 - 1)%Z with n by lia.
    destruct (Z_le_gt_dec n 0) as [Hn|Hn].
    { exists 0%nat. rewrite seqZ_nil by lia. cbn. rewrite app_nil_r.
      unfold page_limit. repeat split; lia. }
    clearbody n. remember (Z.to_nat n) as m eqn:Hm.
    assert (n = Z.of_nat m) as -> by lia.
    destruct (by_limit_loop_outcome urlopen m 1 [] total requests)
      as [(albums & Hrun & Hlen) | (j & e & h' & Hj & Hlen & Hfail & Hrun)].
    + exists m. rewrite Hrun. cbn [snd].
      destruct m as [|m']; [lia|].
      apply pages_read_within in Hlen. repeat split; [lia | lia].
    + rewrite Hrun. cbn [snd].
      assert (Hjl : (Z.of_nat j <= page_limit)%Z).
      { destruct j as [|j]; [unfold page_limit; lia|].
        apply pages_read_within in Hlen. lia. }
      pose proof (by_page_requests (1 + Z.of_nat j)
                    (requests ++ map page_url (seqZ 1 (Z.of_nat j)))) as Hreq.
      rewrite Hfail in Hreq. cbn [snd] in Hreq. subst h'.
      destruct (1 + Z.of_nat j >? page_limit)%Z eqn:E; rewrite Z.gtb_ltb in E.
      * exists j. repeat split; [lia | lia].
      * apply Z.ltb_ge in E. exists (S j).
        rewrite seqZ_snoc, map_app, app_assoc. cbn [map].
        repeat split; [lia | lia].
  - intros fuel month day requests. rewrite try_by_date.
    assert (Hinner : exists k : nat,
              (Z.of_nat k <= page_limit)%Z
              /\ snd (_get_upcoming_releases_by_date urlopen fuel month day
                        requests)
                 = requests ++ map page_url (seqZ 1 (Z.of_nat k))).
    { unfold _get_upcoming_releases_by_date, bind at 1, lift.
      destruct (_map_month_number_to_name month) as [e|label].
      - exists 0%nat. cbn. rewrite app_nil_r. unfold page_limit. split; [lia|reflexivity].
      - destruct (by_date_loop_requests
                    (strip (label +:+ " " +:+ str day))
                    (strip (label +:+ " " +:+ str (day + 1))) fuel 1 []
                    requests) as (m & Hm & Hreq).
        exists m. split; [|exact Hreq].
        destruct Hm as [-> | Hm]; [unfold page_limit|]; lia. }
    destruct Hinner as (k & Hk & Hreq). exists k. split; [exact Hk|].
    destruct (_get_upcoming_releases_by_date urlopen fuel month day requests)
      as [[e|[l|]] h']; exact Hreq.
Qed.

Lemma by_date_loop_returned target next (fuel : nat) :
  forall p acc h albums h',
  by_date_loop urlopen fuel target next p acc h = (inr (Some albums), h') ->
  exists m : nat,
    (p + Z.of_nat m <= page_limit)%Z
    /\ h' = h ++ map page_url (seqZ p (Z.of_nat (S m)))
    /\ length (pages_read urlopen (seqZ p (Z.of_nat (S m))) h) = S m
    /\ albums
       = acc ++ filter (dated target)
                  (concat (pages_read urlopen (seqZ p (Z.of_nat (S m))) h)).
Proof.
  induction fuel as [|fuel IH]; intros p acc h albums h' Hrun;
    [discriminate|].
  cbn [by_date_loop] in Hrun. change (p + 1)%Z with (Z.succ p) in Hrun.
  unfold bind in Hrun.
  destruct (by_page p h) as [[e|page] h1] eqn:Hp; [discriminate|].
  pose proof Hp as Hp'. apply by_page_ok_within in Hp' as [Hlim ->].
  rewrite scan_page_spec in Hrun. cbn [orb] in Hrun.
  destruct (existsb _ page).
  - injection Hrun as <- <-. exists 0%nat.
    change (seqZ p (Z.of_nat 1)) with [p]. cbn [pages_read map concat].
    rewrite Hp. cbn [length concat]. rewrite app_nil_r.
    repeat split; try reflexivity; lia.
  - apply IH in Hrun as (m & Hm & -> & Hlen & ->).
    exists (S m). rewrite (seqZ_cons p) by lia.
    replace (Z.pred (Z.of_nat (S (S m)))) with (Z.of_nat (S m)) by lia.
    cbn [pages_read map]. rewrite Hp. cbn [length concat].
    rewrite filter_app, <- !app_assoc, Hlen.
    repeat split; try reflexivity; lia.
Qed.

(** X6.  What the scan by date returns.  Whenever it returns a list, the
    month has a label, the pages requested are 1..k for some k of 1..21,
    they were all read, and the list is exactly the releases of those pages
    whose date is the string "label day", in page order and in the order of
    each page: nothing from elsewhere, nothing carrying another date. *)
Theorem by_date_returned_releases
    (fuel : nat) (month day : Z) (requests : list string)
    (albums : list Album) (h' : list string) :
  _get_upcoming_releases_by_date urlopen fuel month day requests
  = (inr (Some albums), h') ->
  exists label (k : nat),
    _map_month_number_to_name month = inr label
    /\ (1 <= Z.of_nat k <= page_limit)%Z
    /\ h' = requests ++ map page_url (seqZ 1 (Z.of_nat k))
    /\ length (pages_read urlopen (seqZ 1 (Z.of_nat k)) requests) = k
    /\ albums
       = filter (dated (label +:+ " " +:+ str day))
           (concat (pages_read urlopen (seqZ 1 (Z.of_nat k)) requests))
    /\ Forall (dated (label +:+ " " +:+ str day)) albums.
Proof.
  intros Hrun.
  unfold _get_upcoming_releases_by_date, bind at 1, lift in Hrun.
  destruct (Z_le_gt_dec 1 month) as [H1|H1];
    [destruct (Z_le_gt_dec month 12) as [H2|H2]|];
    try (rewrite (map_month_out_of_range month) in Hrun by lia; discriminate).
  destruct (map_month_in_range month ltac:(lia)) as (label & Hlabel & Hin).
  rewrite Hlabel in Hrun. rewrite !strip_label in Hrun by assumption.
  apply by_date_loop_returned in Hrun as (m & Hm & -> & Hlen & ->).
  exists label, (S m). cbn [app].
  repeat split; try assumption; try lia.
  apply List.Forall_forall. intros a Ha. rewrite <- list_elem_of_In in Ha.
  now apply list_elem_of_filter in Ha as [Ha _].
Qed.

(** X7.  A month outside 1..12 is refused before any request is sent: the
    scan by date answers with the error response of category
    "Releases by date Error: " and message "Invalid month number". *)
Theorem by_date_invalid_month
    (fuel : nat) (month day : Z) (requests : list string) :
  (month < 1 \/ 12 < month)%Z ->
  upcoming_releases_by_date urlopen fuel month day requests
  = (inr (Some (dumps (_build_error_response "Releases by date Error: "
                         "Invalid month number"))), requests).
Proof.
  intros Hmonth. rewrite try_by_date.
  unfold _get_upcoming_releases_by_date, bind, lift.
  now rewrite map_month_out_of_range.
Qed.

End AlbumMore.

Section AlbumMoreExamples.

Import AlbumPy.

Lemma page_url_spec_witness :
  page_url (-3) = "https://www.albumoftheyear.org/upcoming/"
  /\ (page_url 7 = page_url 7 -> 7 = 7)%Z.
Proof.
  split.
  - apply (proj1 page_url_spec). lia.
  - apply (proj2 page_url_spec); lia.
Defined.

Lemma upcoming_releases_by_page_spec_witness :
  upcoming_releases_by_page Samples.full_site 22 []
  = (inr (dumps (_build_error_response "Page Limit Error"
                   "The page number requested is out of range.")), [])
  /\ snd (upcoming_releases_by_page Samples.full_site 3 []) = [page_url 3]
  /\ upcoming_releases_by_page Samples.jan_site 2 []
     = (inr (albums_response Samples.jan_page_2), [page_url 2]).
Proof.
  pose proof (upcoming_releases_by_page_spec Samples.full_site 22 []) as H1.
  pose proof (upcoming_releases_by_page_spec Samples.full_site 3 []) as H2.
  pose proof (upcoming_releases_by_page_spec Samples.jan_site 2 []) as H3.
  cbv zeta in H1, H2, H3.
  destruct H1 as (H1 & _), H2 as (_ & H2 & _), H3 as (_ & _ & H3 & _).
  split; [|split].
  - apply H1. unfold page_limit. lia.
  - apply H2. unfold page_limit. lia.
  - apply H3. vm_compute. reflexivity.
Defined.

Lemma by_limit_nothing_to_fetch_witness :
  upcoming_releases_by_limit Samples.full_site (-5) []
  = (inr (albums_response []), []).
Proof. apply by_limit_nothing_to_fetch. lia. Defined.

Lemma by_limit_any_page_size_witness :
  let albums :=
    concat [Samples.jan_page_1]
      ++ (if (65 mod 60 =? 0)%Z then Samples.jan_page_2
          else take (Z.to_nat (65 mod 60)) Samples.jan_page_2) in
  upcoming_releases_by_limit Samples.jan_site 65 []
  = (inr (albums_response albums),
     [] ++ map page_url (seqZ 1 (max_page_number 65)))
  /\ (Forall (fun page => (length page <= 60)%nat)
        ([Samples.jan_page_1] ++ [Samples.jan_page_2]) ->
      (Z.of_nat (length albums) <= 65)%Z).
Proof.
  apply (by_limit_any_page_size Samples.jan_site 65 [] [Samples.jan_page_1]
           Samples.jan_page_2).
  - lia.
  - vm_compute. reflexivity.
  - reflexivity.
Defined.

Lemma by_date_returned_releases_witness :
  exists label (k : nat),
    _map_month_number_to_name 1 = inr label
    /\ (1 <= Z.of_nat k <= page_limit)%Z
    /\ ["https://www.albumoftheyear.org/upcoming/"]
       = [] ++ map page_url (seqZ 1 (Z.of_nat k))
    /\ length (pages_read Samples.jan_site (seqZ 1 (Z.of_nat k)) []) = k
    /\ [mkAlbum "Album A" "Artist A" "Jan 1";
        mkAlbum "Album B" "Artist B" "Jan 1";
        mkAlbum "Album D" "Artist D" "Jan 1";
        mkAlbum "Album F" "Artist F" "Jan 1"]
       = filter (dated (label +:+ " " +:+ str 1))
           (concat (pages_read Samples.jan_site (seqZ 1 (Z.of_nat k)) []))
    /\ Forall (dated (label +:+ " " +:+ str 1))
         [mkAlbum "Album A" "Artist A" "Jan 1";
          mkAlbum "Album B" "Artist B" "Jan 1";
          mkAlbum "Album D" "Artist D" "Jan 1";
          mkAlbum "Album F" "Artist F" "Jan 1"].
Proof.
  apply (by_date_returned_releases Samples.jan_site 22 1 1 []).
  vm_compute. reflexivity.
Defined.

Lemma by_date_invalid_month_witness :
  upcoming_releases_by_date Samples.full_site 22 0 15 []
  = (inr (Some (dumps (_build_error_response "Releases by date Error: "
                         "Invalid month number"))), []).
Proof. apply by_date_invalid_month. lia. Defined.

End AlbumMoreExamples.

(** ** The JSON text of the flat answers *)

Section JsonMore.

Local Arguments String.append !_ _ /.

Lemma expect_skips c d s :
  json_space d = true -> expect c (String d s) = expect c s.
Proof. intros Hd. unfold expect. cbn [skip_ws]. now rewrite Hd. Qed.

Lemma parse_members_skips fuel d s :
  json_space d = true ->
  parse_members fuel (String d s) = parse_members fuel s.
Proof.
  intros Hd. destruct fuel as [|fuel]; [reflexivity|].
  cbn [parse_members]. now rewrite expect_skips.
Qed.

(** One item, read from its opening quote up to what follows it. *)
Lemma parse_item_here (k v rest : string) (fuel : nat) :
  parse_members (S fuel) (item k v +:+ rest)
  = match skip_ws rest with
    | String c s6 =>
        if Ascii.eqb c ","%char then
          '(items, s7) ← parse_members fuel s6;
          Some ((k, v) :: items, s7)
        else if Ascii.eqb c "}"%char then Some ([(k, v)], s6)
        else None
    | EmptyString => None
    end.
Proof.
  rewrite <- (parse_members_skips (S fuel) newline) by reflexivity.
  apply parse_item.
Qed.

Lemma dumps_flat_dict items :
  dumps (flat_dict items)
  = String "{"
      (join ", " (map (fun kv => item (fst kv) (snd kv)) items) +:+ "}").
Proof.
  unfold flat_dict. cbn [dumps]. rewrite map_map. reflexivity.
Qed.

(** The items of a flat dict, read back from its text. *)
Lemma parse_members_flat (items : list (string * string)) :
  forall fuel tail,
  items <> [] -> (length items <= fuel)%nat ->
  parse_members fuel
    (join ", " (map (fun kv => item (fst kv) (snd kv)) items)
       +:+ String "}" tail)
  = Some (items, tail).
Proof.
  induction items as [|[k v] items IH]; intros fuel tail Hne Hfuel;
    [contradiction|].
  destruct fuel as [|fuel]; [cbn in Hfuel; lia|].
  destruct items as [|kv2 items].
  - cbn [map join fst snd]. rewrite parse_item_here. reflexivity.
  - cbn [map join fst snd] in *. rewrite !append_assoc, parse_item_here.
    cbn [String.append skip_ws].
    change (json_space ",") with false. cbv iota.
    change (Ascii.eqb "," ",") with true. cbv iota.
    rewrite parse_members_skips by reflexivity.
    rewrite IH by (try discriminate; cbn [length] in *; lia).
    reflexivity.
Qed.

Lemma string_length_append (a b : string) :
  String.length (a +:+ b) = (String.length a + String.length b)%nat.
Proof. induction a as [|c a IH]; cbn; [reflexivity | now rewrite IH]. Qed.

Lemma length_join_items (items : list (string * string)) :
  (length items
   <= String.length
        (join ", " (map (fun kv => item (fst kv) (snd kv)) items)))%nat.
Proof.
  induction items as [|[k v] items IH]; [cbn; lia|].
  destruct items as [|kv2 items].
  - cbn [map join fst snd length]. unfold item.
    rewrite !string_length_append. cbn. lia.
  - cbn [map join fst snd length] in *. unfold item at 1.
    rewrite !string_length_append. cbn [String.length]. lia.
Qed.

(** json.loads gives back the items of every flat dict that json.dumps
    wrote, in their order. *)
Lemma flat_dict_round_trip (items : list (string * string)) :
  loads_object (dumps (flat_dict items)) = Some items.
Proof.
  unfold loads_object. rewrite dumps_flat_dict.
  rewrite expect_here by reflexivity. cbn [mbind option_bind].
  destruct items as [|[k v] items].
  - reflexivity.
  - assert (Hhead : exists rest,
      join ", " (map (fun kv => item (fst kv) (snd kv)) ((k, v) :: items))
        +:+ "}" = String dquote rest).
    { destruct items as [|kv2 items]; cbn [map join fst snd];
        rewrite ?append_assoc, item_append; eauto. }
    destruct Hhead as [rest Hhead]. rewrite Hhead at 1.
    change (expect "}" (String dquote rest)) with (@None string).
    cbv iota.
    rewrite parse_members_flat; [reflexivity | discriminate |].
    pose proof (length_join_items ((k, v) :: items)) as Hlen.
    cbn [String.length]. rewrite string_length_append. lia.
Qed.

(** X8.  Every error answer is the text of a JSON object with the two
    members "error" and "message", in that order, whatever characters the
    category and the message hold; for the by-count scan the message is the
    fixed sentence followed by the text of the exception. *)
Theorem error_responses_decode :
  (forall error_type msg : string,
     loads_object (dumps (AlbumPy._build_error_response error_type msg))
     = Some [("error", error_type); ("message", msg)])
  /\ (forall e : exn,
        loads_object (AlbumPy.page_limit_error e)
        = Some [("error", "Page Limit Error");
                ("message",
                 "Number of albums exceeded page limit. Exception raise: ."
                   +:+ str_exn e)]).
Proof.
  split; intros.
  - apply (flat_dict_round_trip [("error", error_type); ("message", msg)]).
  - apply (flat_dict_round_trip
             [("error", "Page Limit Error");
              ("message",
               "Number of albums exceeded page limit. Exception raise: ."
                 +:+ str_exn e)]).
Qed.

End JsonMore.

(** ** album.py: what the two scanning entry points answer on a fault *)

Section ScanFaultAnswers.

Import AlbumPy.

Variable urlopen : list string -> string -> exn + BS4.Node.

Local Abbreviation by_page := (_get_upcoming_releases_by_page urlopen).

(** The text of an error response: the object with the two members, which
    is never the text of a list of releases. *)
Lemma error_response_text (error_type msg : string) :
  dumps (_build_error_response error_type msg)
  = dumps (JDict [("error", JString error_type); ("message", JString msg)])
  /\ loads_object
       (dumps (JDict [("error", JString error_type);
                      ("message", JString msg)]))
     = Some [("error", error_type); ("message", msg)]
  /\ forall albums,
       dumps (JDict [("error", JString error_type); ("message", JString msg)])
       <> albums_response albums.
Proof.
  split; [reflexivity|]. split.
  - apply (flat_dict_round_trip [("error", error_type); ("message", msg)]).
  - intros albums Habs.
    assert (exists rest,
              dumps (JDict [("error", JString error_type);
                            ("message", JString msg)])
              = String "{" (String dquote (String "e" rest))) as [r1 Hr1]
      by (eexists; reflexivity).
    assert (exists rest, albums_response albums
              = String "{" (String dquote (String "a" rest))) as [r2 Hr2]
      by (eexists; reflexivity).
    rewrite Hr1, Hr2 in Habs. discriminate Habs.
Qed.

(** C3.  The scan by count never raises and never answers with a partial
    list: either every page of 1..n was read and the answer is the list of
    records, or the fetch of one page failed, whatever the fault, and the
    answer is the JSON object with the members "error", of value
    "Page Limit Error", and "message", of value the fixed sentence followed
    by that fault's text, which is not the text of any list of releases;
    this is what happens whenever n exceeds the page limit 21.  The scan by
    date never raises either: a fault of the inner scan (a month outside
    1..12 included) becomes the JSON object with the members "error", of
    value "Releases by date Error: ", and "message", of value the fault's
    text, which is not the text of a list of releases either. *)
Theorem scan_faults_become_error_responses :
  (forall total requests,
     let run := upcoming_releases_by_limit urlopen total requests in
     let n := max_page_number total in
     let answer e :=
       dumps (JDict [("error", JString "Page Limit Error");
                     ("message",
                      JString
                        ("Number of albums exceeded page limit. Exception raise: ."
                           +:+ str_exn e))]) in
     ((exists albums,
         run = (inr (albums_response albums),
                requests ++ map page_url (seqZ 1 n))
         /\ length (pages_read urlopen (seqZ 1 n) requests) = Z.to_nat n)
      \/ (exists (j : nat) e h',
            (1 + Z.of_nat j <= n)%Z
            /\ length (pages_read urlopen (seqZ 1 (Z.of_nat j)) requests) = j
            /\ by_page (1 + Z.of_nat j)
                 (requests ++ map page_url (seqZ 1 (Z.of_nat j)))
               = (inl e, h')
            /\ run = (inr (answer e), h')))
     /\ ((page_limit < n)%Z -> exists e h', run = (inr (answer e), h'))
     /\ (forall e,
           loads_object (answer e)
           = Some [("error", "Page Limit Error");
                   ("message",
                    "Number of albums exceeded page limit. Exception raise: ."
                      +:+ str_exn e)]
           /\ forall albums, answer e <> albums_response albums))
  /\ (forall fuel month day requests,
        let answer e :=
          dumps (JDict [("error", JString "Releases by date Error: ");
                        ("message", JString (str_exn e))]) in
        (exists body h',
           upcoming_releases_by_date urlopen fuel month day requests
           = (inr body, h')
           /\ ((Z.to_nat page_limit + 1 <= fuel)%nat -> body <> None)
           /\ forall e h'',
                _get_upcoming_releases_by_date urlopen fuel month day requests
                = (inl e, h'') ->
                h' = h'' /\ body = Some (answer e))
        /\ (forall e,
              loads_object (answer e)
              = Some [("error", "Releases by date Error: ");
                      ("message", str_exn e)]
              /\ forall albums, answer e <> albums_response albums)).
Proof.
  split.
  - intros total requests run n answer.
    assert (Hanswer : forall e, page_limit_error e = answer e)
      by reflexivity.
    assert (Hout :
      (exists albums,
         run = (inr (albums_response albums),
                requests ++ map page_url (seqZ 1 n))
         /\ length (pages_read urlopen (seqZ 1 n) requests) = Z.to_nat n)
      \/ (exists (j : nat) e h',
            (1 + Z.of_nat j <= n)%Z
            /\ length (pages_read urlopen (seqZ 1 (Z.of_nat j)) requests) = j
            /\ by_page (1 + Z.of_nat j)
                 (requests ++ map page_url (seqZ 1 (Z.of_nat j)))
               = (inl e, h')
            /\ run = (inr (answer e), h'))).
    { subst run. unfold upcoming_releases_by_limit, range. fold n.
      replace (n + 1 - 1)%Z with n by lia.
      destruct (Z_le_gt_dec n 0) as [Hn|Hn].
      - left. exists []. rewrite (seqZ_nil 1 n) by lia. cbn.
        rewrite app_nil_r. split; [reflexivity | lia].
      - clearbody n. remember (Z.to_nat n) as m eqn:Hm.
        assert (n = Z.of_nat m) as -> by lia.
        destruct (by_limit_loop_outcome urlopen m 1 [] total requests)
          as [(albums & Hrun & Hlen) | (j & e & h' & Hj & Hlen & Hfail & Hrun)].
        + left. exists albums. auto.
        + right. exists j, e, h'. rewrite <- Hanswer.
          repeat split; try assumption. lia. }
    split; [exact Hout|]. split.
    + intros Hn.
      destruct Hout as [(albums & _ & Hlen) | (j & e & h' & _ & _ & _ & Hrun)];
        [|eauto].
      exfalso. clearbody n. unfold page_limit in Hn.
      replace n with (Z.of_nat (S (Z.to_nat (n - 1)))) in Hlen at 1 by lia.
      replace (Z.to_nat n) with (S (Z.to_nat (n - 1))) in Hlen by lia.
      apply pages_read_within in Hlen. unfold page_limit in Hlen. lia.
    + intros e. subst answer. cbv beta.
      apply (error_response_text "Page Limit Error").
  - intros fuel month day requests answer. split.
    + rewrite try_by_date.
      destruct (_get_upcoming_releases_by_date urlopen fuel month day requests)
        as [[e|[l|]] h'] eqn:Hrun.
      * eexists _, h'. split; [reflexivity|]. split; [discriminate|].
        intros e' h'' [= <- <-]. auto.
      * eexists _, h'. split; [reflexivity|]. split; [discriminate|].
        intros e' h'' [=].
      * eexists _, h'. split; [reflexivity|]. split; [|intros e' h'' [=]].
        intros Hfuel. exfalso.
        exact (by_date_answers urlopen fuel month day requests Hfuel h' Hrun).
    + intros e. subst answer. cbv beta.
      apply (error_response_text "Releases by date Error: ").
Qed.

End ScanFaultAnswers.

Lemma scan_faults_become_error_responses_witness :
  (exists e h',
     AlbumPy.upcoming_releases_by_limit Samples.full_site 1321 []
     = (inr (dumps
               (JDict [("error", JString "Page Limit Error");
                       ("message",
                        JString
                          ("Number of albums exceeded page limit. Exception raise: ."
                             +:+ str_exn e))])), h'))
  /\ (exists body h',
        AlbumPy.upcoming_releases_by_date Samples.full_site 22 13 1 []
        = (inr body, h')
        /\ body <> None
        /\ h' = []
        /\ body = Some (dumps
                          (JDict [("error", JString "Releases by date Error: ");
                                  ("message",
                                   JString "Invalid month number")]))).
Proof.
  destruct (scan_faults_become_error_responses Samples.full_site)
    as [Hlimit Hdate].
  split.
  - destruct (Hlimit 1321%Z []) as (_ & Hbeyond & _).
    apply Hbeyond. vm_compute. reflexivity.
  - destruct (Hdate 22%nat 13%Z 1%Z [])
      as ((body & h' & Hrun & Hsome & Hfault) & _).
    exists body, h'. split; [exact Hrun|]. split.
    + apply Hsome. unfold AlbumPy.page_limit. lia.
    + apply (Hfault (Exception "Invalid month number") []). reflexivity.
Defined.

(** ** The artist page: sections, loads and what a failed load leaves *)

Section ArtistMore.

Import ArtistPy.

Variable urlopen : list string -> string -> exn + BS4.Node.

Local Arguments String.append !_ _ /.

Lemma classify_step_heading st h :
  BS4.is_tag "h2" h = true ->
  classify_step st h
  = (<[BS4.get_text_strip h := []]> (fst st), Some (BS4.get_text_strip h)).
Proof. intros Hh. destruct st as [m cur]. cbn. now rewrite Hh. Qed.

Lemma classify_step_block m c e :
  BS4.is_tag "h2" e = false ->
  classify_step (m, Some c) e
  = (match section_entry c e with
     | Some x => alter (fun l => l ++ [x]) c m
     | None => m
     end, Some c).
Proof.
  intros He. unfold classify_step, section_entry, append_found. rewrite He.
  destruct (BS4.is_tag "div" e && String.eqb c "Similar Artists");
    [now destruct (find_div_class "name" e)|].
  destruct (BS4.is_tag "div" e && negb (String.eqb c ""));
    [now destruct (find_div_class "albumTitle" e) | reflexivity].
Qed.

Lemma classify_step_outside m e :
  BS4.is_tag "h2" e = false -> classify_step (m, None) e = (m, None).
Proof. intros He. unfold classify_step. now rewrite He. Qed.

(** The blocks that follow a heading, up to the next heading, are filed
    under it in their order. *)
Lemma classify_fold_section body : forall m c l,
  Forall (fun x => BS4.is_tag "h2" x = false) body ->
  m !! c = Some l ->
  let r := fold_left classify_step body (m, Some c) in
  snd r = Some c /\ fst r !! c = Some (l ++ omap (section_entry c) body).
Proof.
  induction body as [|e body IH]; intros m c l Hbody Hl.
  - cbn. now rewrite app_nil_r.
  - apply Forall_cons in Hbody as [He Hbody].
    cbn [fold_left]. rewrite classify_step_block by assumption.
    cbn [omap list_omap]. fold (@omap list _ _ _ (section_entry c) body).
    destruct (section_entry c e) as [x|].
    + specialize (IH (alter (fun l => l ++ [x]) c m) c (l ++ [x]) Hbody).
      rewrite lookup_alter_eq, Hl in IH. specialize (IH eq_refl).
      cbv zeta in IH. now rewrite <- app_assoc in IH.
    + now apply IH.
Qed.

(** What is met under another heading leaves a category as it is. *)
Lemma classify_fold_elsewhere post c : forall m cur,
  cur <> Some c ->
  Forall (fun x => BS4.is_tag "h2" x = true -> BS4.get_text_strip x <> c)
    post ->
  fst (fold_left classify_step post (m, cur)) !! c = m !! c.
Proof.
  induction post as [|e post IH]; intros m cur Hcur Hpost; [reflexivity|].
  apply Forall_cons in Hpost as [He Hpost]. cbn [fold_left].
  destruct (BS4.is_tag "h2" e) eqn:Eh.
  - rewrite classify_step_heading by assumption. cbn [fst].
    rewrite IH by (try assumption; intros [= H]; now apply He).
    apply lookup_insert_ne. now apply He.
  - destruct cur as [c'|].
    + rewrite classify_step_block by assumption.
      rewrite IH by assumption.
      destruct (section_entry c' e); [|reflexivity].
      apply lookup_alter_ne. congruence.
    + rewrite classify_step_outside by assumption. now apply IH.
Qed.

(** The keys of the classification are the texts of the headings met. *)
Lemma classify_fold_keys elements c : forall m cur,
  (forall c', cur = Some c' -> is_Some (m !! c')) ->
  is_Some (fst (fold_left classify_step elements (m, cur)) !! c)
  <-> is_Some (m !! c)
      \/ exists h, h ∈ elements /\ BS4.is_tag "h2" h = true
                   /\ BS4.get_text_strip h = c.
Proof.
  induction elements as [|e elements IH]; intros m cur Hcur.
  - cbn. split; [auto|]. intros [H|(h & Hin & _)]; [exact H|].
    now apply elem_of_nil in Hin.
  - cbn [fold_left]. destruct (BS4.is_tag "h2" e) eqn:Eh.
    + rewrite classify_step_heading by assumption. cbn [fst].
      rewrite IH by (intros c' [= <-]; rewrite lookup_insert_eq; eauto).
      rewrite lookup_insert_is_Some. split.
      * intros [[Heq|[_ H]]|(h & Hin & Hh & Ht)].
        -- right. exists e. split; [apply list_elem_of_here | auto].
        -- now left.
        -- right. exists h. split; [now apply list_elem_of_further | auto].
      * intros [H|(h & Hin & Hh & Ht)].
        -- destruct (decide (BS4.get_text_strip e = c)); left; auto.
        -- apply elem_of_cons in Hin as [->|Hin].
           ++ left. now left.
           ++ right. eauto.
    + assert (Hrest : forall m' cur',
        classify_step (m, cur) e = (m', cur') ->
        cur' = cur /\ (forall k, is_Some (m' !! k) <-> is_Some (m !! k))).
      { intros m' cur'. destruct cur as [c'|].
        - rewrite classify_step_block by assumption. intros [= <- <-].
          split; [reflexivity|]. intros k.
          destruct (section_entry c' e); [|reflexivity].
          apply lookup_alter_is_Some.
        - rewrite classify_step_outside by assumption. now intros [= <- <-]. }
      destruct (classify_step (m, cur) e) as [m' cur'] eqn:Estep.
      destruct (Hrest m' cur' eq_refl) as [-> Hkeys].
      rewrite IH by (intros c' Hc'; apply Hkeys; auto).
      rewrite Hkeys. split.
      * intros [H|(h & Hin & Hh & Ht)]; [now left|].
        right. exists h. split; [now apply list_elem_of_further | auto].
      * intros [H|(h & Hin & Hh & Ht)]; [now left|].
        apply elem_of_cons in Hin as [->|Hin]; [congruence|].
        right. eauto.
Qed.

(** X9.  [__get_discography] has a key for a category exactly when the
    page has an [h2] heading whose stripped text is that category. *)
Theorem classify_keys (page : BS4.Node) (c : string) :
  is_Some (classify page !! c)
  <-> exists h, h ∈ headings_and_blocks page /\ BS4.is_tag "h2" h = true
                /\ BS4.get_text_strip h = c.
Proof.
  unfold classify. fold (headings_and_blocks page).
  rewrite classify_fold_keys by discriminate.
  rewrite lookup_empty. split; [|auto].
  intros [H|H]; [|exact H]. now destruct H.
Qed.

(** X10.  The entries of a category are those of the blocks between its
    last heading and the heading that follows: the blocks of an earlier
    section of the same name are dropped, and no block of another section
    is added. *)
Theorem classify_section (page : BS4.Node) (pre body post : list BS4.Node)
    (h : BS4.Node) (c : string) :
  headings_and_blocks page = pre ++ h :: body ++ post ->
  BS4.is_tag "h2" h = true ->
  BS4.get_text_strip h = c ->
  Forall (fun x => BS4.is_tag "h2" x = false) body ->
  (forall x, head post = Some x -> BS4.is_tag "h2" x = true) ->
  Forall (fun x => BS4.is_tag "h2" x = true -> BS4.get_text_strip x <> c)
    post ->
  classify page !! c = Some (omap (section_entry c) body).
Proof.
  intros Hsplit Hh Hc Hbody Hhead Hpost.
  unfold classify. fold (headings_and_blocks page). rewrite Hsplit.
  rewrite fold_left_app. cbn [fold_left].
  destruct (fold_left classify_step pre (∅, None)) as [m0 cur0].
  rewrite classify_step_heading by assumption. rewrite Hc. cbn [fst].
  rewrite fold_left_app.
  pose proof (classify_fold_section body (<[c:=[]]> m0) c [] Hbody
                (lookup_insert_eq _ _ _)) as [Hcur Hl].
  destruct (fold_left classify_step body _) as [m1 cur1].
  cbn [fst snd] in Hcur, Hl. subst cur1.
  destruct post as [|x post]; [exact Hl|].
  specialize (Hhead x eq_refl). apply Forall_cons in Hpost as [Hx Hpost].
  cbn [fold_left]. rewrite classify_step_heading by assumption. cbn [fst].
  rewrite classify_fold_elsewhere
    by (try assumption; intros [= H]; now apply Hx).
  rewrite lookup_insert_ne by now apply Hx. exact Hl.
Qed.

Lemma first_missing_none cats :
  first_missing cats = None
  <-> Forall (fun k => is_Some (cats !! k)) required_categories.
Proof.
  split.
  - intros Hnone. apply Forall_forall. intros k Hk.
    destruct (cats !! k) eqn:E; [eauto|].
    destruct (first_missing_some cats k Hk E) as [k' Hk']. congruence.
  - intros Hall. destruct (first_missing cats) as [k|] eqn:E; [|reflexivity].
    apply first_missing_absent in E as [Hk Hnone].
    rewrite Forall_forall in Hall. specialize (Hall k Hk).
    rewrite Hnone in Hall. now destruct Hall.
Qed.

(** A scalar accessor: the shared check, then the element of the resident
    page. *)
Lemma class_text_run a cls o :
  __class_text urlopen a cls (url_of a) o
  = match ensure_page urlopen a o with
    | (inl e, o') => (inl e, o')
    | (inr _, o') =>
        match artist_page o' with
        | Some page =>
            (AlbumPy.getText_of (BS4.find (BS4.has_class cls) page), o')
        | None =>
            (inl (AttributeError
                    "'ArtistMethods' object has no attribute 'artist_page'"),
             o')
        end
    end.
Proof.
  unfold __class_text, ensure_page, bind, gets, getattr, lift, ret.
  fold (url_of a).
  destruct (bool_decide (url o <> url_of a)).
  - destruct (__set_artist_page urlopen recursion_limit a (url_of a) o)
      as [[e|[]] o']; [reflexivity|].
    destruct (artist_page o'); reflexivity.
  - destruct (artist_page o); reflexivity.
Qed.

(** X11.  A first request for an artist answers exactly when the page that
    comes back has the five headings "Albums", "Mixtapes", "EPs",
    "SinglesView All" and "Similar Artists" among its [h2] elements. *)
Theorem load_needs_the_five_headings (a : string) (o : ArtistMethods)
    (page : BS4.Node) :
  url o <> url_of a ->
  urlopen (requests o) (url_of a) = inr page ->
  (exists l, fst (artist_albums urlopen a o) = inr l)
  <-> Forall
        (fun c => exists h, h ∈ headings_and_blocks page
                            /\ BS4.is_tag "h2" h = true
                            /\ BS4.get_text_strip h = c)
        required_categories.
Proof.
  intros Hurl Hpage. rewrite artist_albums_run.
  transitivity (first_missing (classify page) = None).
  - destruct (first_missing (classify page)) as [k|] eqn:E.
    + pose proof (ensure_page_miss_missing urlopen a o page k Hurl Hpage E)
        as Hfail.
      destruct (ensure_page urlopen a o) as [[e|[]] o'];
        cbn [fst] in Hfail |- *; [|discriminate].
      split; [intros [l Hl]; discriminate | discriminate].
    + rewrite (ensure_page_miss_ok urlopen a o page) by assumption.
      cbn [fst]. split; eauto.
  - rewrite first_missing_none. apply Forall_iff. intros c.
    apply classify_keys.
Qed.

(** X12.  A fetch that fails is not tried again: the failing call has
    already made the new URL the key, so the next call for the same artist
    sends no request and answers from what the instance held before, the
    albums and the page of the previous artist. *)
Theorem failed_fetch_is_not_retried (a : string) (o : ArtistMethods)
    (e : exn) :
  url o <> url_of a ->
  urlopen (requests o) (url_of a) = inl e ->
  let o1 := add_request (url_of a) (set_url (url_of a) (set_artist a o)) in
  artist_albums urlopen a o = (inl e, o1)
  /\ artist_albums urlopen a o1 = (inr (albums o), o1)
  /\ artist_name urlopen a o1
     = (match artist_page o with
        | Some page =>
            AlbumPy.getText_of
              (BS4.find (BS4.has_class "artistHeadline") page)
        | None =>
            inl (AttributeError
                   "'ArtistMethods' object has no attribute 'artist_page'")
        end, o1).
Proof.
  intros Hurl He o1.
  assert (Hfirst : ensure_page urlopen a o = (inl e, o1)).
  { rewrite ensure_page_miss by assumption.
    change recursion_limit with (S 999).
    now rewrite set_artist_page_run, He. }
  assert (Hsecond : ensure_page urlopen a o1 = (inr tt, o1))
    by now apply ensure_page_hit.
  split; [|split].
  - now rewrite artist_albums_run, Hfirst.
  - now rewrite artist_albums_run, Hsecond.
  - unfold artist_name. fold (url_of a). rewrite class_text_run, Hsecond.
    subst o1. cbn [artist_page add_request set_url set_artist].
    now destruct (artist_page o).
Qed.

Lemma store_discography_albums cats o :
  albums (snd (store_discography cats o))
  = match cats !! "Albums" with Some v => v | None => albums o end.
Proof.
  unfold store_discography, bind, lift, modify, dict_getitem.
  destruct (cats !! "Albums"); [|reflexivity].
  destruct (cats !! "Mixtapes"); [|reflexivity].
  destruct (cats !! "EPs"); [|reflexivity].
  destruct (cats !! "SinglesView All"); [|reflexivity].
  destruct (cats !! "Similar Artists"); reflexivity.
Qed.

(** X13.  The KeyError of a page that lacks a heading is raised once.  The
    failing call leaves the new URL as the key and the new page resident,
    with the albums already taken from it when "Albums" is not the missing
    heading, and the top songs still those of the previous page; the next
    call for the same artist sends no request and answers. *)
Theorem key_error_is_raised_once (a : string) (o : ArtistMethods)
    (page : BS4.Node) (k : string) :
  url o <> url_of a ->
  urlopen (requests o) (url_of a) = inr page ->
  first_missing (classify page) = Some k ->
  let o1 := snd (artist_albums urlopen a o) in
  fst (artist_albums urlopen a o) = inl (KeyError k)
  /\ requests o1 = requests o ++ [url_of a]
  /\ artist_albums urlopen a o1 = (inr (albums o1), o1)
  /\ albums o1
     = (if String.eqb k "Albums" then albums o
        else default [] (classify page !! "Albums"))
  /\ top_songs o1 = top_songs o
  /\ artist_name urlopen a o1
     = (AlbumPy.getText_of (BS4.find (BS4.has_class "artistHeadline") page),
        o1).
Proof.
  intros Hurl Hpage Hk o1. subst o1.
  rewrite artist_albums_state.
  pose proof (ensure_page_miss_missing urlopen a o page k Hurl Hpage Hk)
    as Hfail.
  pose proof (ensure_page_miss_frame urlopen a o Hurl) as [Hkey Hreq].
  cbv zeta in Hkey, Hreq.
  assert (Hstate :
    albums (snd (ensure_page urlopen a o))
    = match classify page !! "Albums" with
      | Some v => v | None => albums o end
    /\ top_songs (snd (ensure_page urlopen a o)) = top_songs o
    /\ artist_page (snd (ensure_page urlopen a o)) = Some page).
  { rewrite ensure_page_miss by assumption.
    change recursion_limit with (S 999).
    rewrite set_artist_page_run, Hpage. cbv zeta.
    pose proof (store_discography_missing (classify page) k
      (set_artist_page page
         (add_request (url_of a) (set_url (url_of a) (set_artist a o)))) Hk)
      as Hstore.
    pose proof (store_discography_frame (classify page)
      (set_artist_page page
         (add_request (url_of a) (set_url (url_of a) (set_artist a o)))))
      as (_ & _ & _ & Hp & Hsongs).
    pose proof (store_discography_albums (classify page)
      (set_artist_page page
         (add_request (url_of a) (set_url (url_of a) (set_artist a o)))))
      as Halbums.
    cbv zeta in Hp, Hsongs.
    destruct (store_discography (classify page) _) as [[e|[]] o3];
      cbn [fst snd] in *; [|discriminate].
    auto. }
  destruct Hstate as (Halbums & Hsongs & Hresident).
  assert (Hsecond : ensure_page urlopen a (snd (ensure_page urlopen a o))
                    = (inr tt, snd (ensure_page urlopen a o)))
    by now apply ensure_page_hit.
  split; [|split; [|split; [|split; [|split]]]].
  - rewrite artist_albums_run.
    destruct (ensure_page urlopen a o) as [[e|[]] o'];
      cbn [fst] in Hfail |- *; congruence.
  - exact Hreq.
  - now rewrite artist_albums_run, Hsecond.
  - rewrite Halbums.
    destruct (String.eqb_spec k "Albums") as [->|Hne].
    + apply first_missing_absent in Hk as [_ Hnone]. now rewrite Hnone.
    + destruct (classify page !! "Albums") eqn:E; [reflexivity|].
      exfalso. apply Hne. revert Hk.
      unfold first_missing, required_categories. cbn [List.filter].
      rewrite E. rewrite bool_decide_eq_true_2 by reflexivity.
      now intros [= <-].
  - exact Hsongs.
  - unfold artist_name. fold (url_of a).
    now rewrite class_text_run, Hsecond, Hresident.
Qed.

(** X14.  The JSON variant of the artist's name runs the plain accessor
    once and wraps its answer: it leaves the same instance, raises what the
    accessor raises, and its text decodes to the one member "name". *)
Theorem artist_name_json_decodes (a : string) (o : ArtistMethods) :
  match artist_name urlopen a o, artist_name_json urlopen a o with
  | (inr v, o1), (inr body, o2) =>
      o1 = o2 /\ loads_object body = Some [("name", v)]
  | (inl e1, o1), (inl e2, o2) => e1 = e2 /\ o1 = o2
  | _, _ => False
  end.
Proof.
  unfold artist_name_json, bind, ret.
  destruct (artist_name urlopen a o) as [[e|v] o1]; [auto|].
  split; [reflexivity | apply flat_dict_round_trip].
Qed.

End ArtistMore.

Section ArtistMoreExamples.

Import ArtistPy.

Lemma classify_section_witness :
  classify Samples.repeated_heading_page !! "Albums" = Some ["Donda"].
Proof.
  rewrite (classify_section Samples.repeated_heading_page
             (take 8 (headings_and_blocks Samples.repeated_heading_page))
             (drop 9 (headings_and_blocks Samples.repeated_heading_page))
             []
             (Samples.heading "Albums") "Albums").
  - vm_compute. reflexivity.
  - vm_compute. reflexivity.
  - reflexivity.
  - reflexivity.
  - vm_compute. repeat constructor.
  - discriminate.
  - constructor.
Defined.

Lemma load_needs_the_five_headings_witness :
  (exists l,
     fst (artist_albums Samples.artist_site "183-kanye-west" init) = inr l)
  <-> Forall
        (fun c => exists h,
           h ∈ headings_and_blocks (Samples.artist_page true)
           /\ BS4.is_tag "h2" h = true /\ BS4.get_text_strip h = c)
        required_categories.
Proof.
  apply (load_needs_the_five_headings Samples.artist_site "183-kanye-west"
           init (Samples.artist_page true)).
  - discriminate.
  - reflexivity.
Defined.

Lemma failed_fetch_is_not_retried_witness :
  let o :=
    populated "183-kanye-west" (Samples.artist_page true)
      [url_of "183-kanye-west"] in
  let o1 :=
    add_request (url_of "500-jay-z")
      (set_url (url_of "500-jay-z") (set_artist "500-jay-z" o)) in
  artist_albums Samples.offline "500-jay-z" o
  = (inl (URLError "[Errno 111] Connection refused"), o1)
  /\ artist_albums Samples.offline "500-jay-z" o1
     = (inr ["The College Dropout"; "Late Registration"], o1).
Proof.
  intros o o1.
  destruct (failed_fetch_is_not_retried Samples.offline "500-jay-z" o
              (URLError "[Errno 111] Connection refused"))
    as (H1 & H2 & _).
  - vm_compute. discriminate.
  - reflexivity.
  - cbv zeta in H1, H2. split; [exact H1|]. subst o1. rewrite H2.
    vm_compute. reflexivity.
Defined.

Lemma key_error_is_raised_once_witness :
  let o1 :=
    snd (artist_albums Samples.artist_site_without_mixtapes
           "183-kanye-west" init) in
  fst (artist_albums Samples.artist_site_without_mixtapes
         "183-kanye-west" init) = inl (KeyError "Mixtapes")
  /\ artist_albums Samples.artist_site_without_mixtapes "183-kanye-west" o1
     = (inr ["The College Dropout"; "Late Registration"], o1).
Proof.
  intros o1.
  destruct (key_error_is_raised_once Samples.artist_site_without_mixtapes
              "183-kanye-west" init (Samples.artist_page false) "Mixtapes")
    as (H1 & _ & H3 & H4 & _).
  - discriminate.
  - reflexivity.
  - vm_compute. reflexivity.
  - split; [exact H1|]. fold o1 in H3, H4. rewrite H3, H4.
    vm_compute. reflexivity.
Defined.

End ArtistMoreExamples.

(** ** The user page: what is fetched, what is kept, what is answered *)

Section UserMore.

Import UserPy.

Variable urlopen : list string -> string -> exn + BS4.Node.

Local Arguments String.append !_ _ /.

Lemma append_inv_head (s a b : string) : s +:+ a = s +:+ b -> a = b.
Proof.
  induction s as [|c s IH]; cbn [String.append]; [auto|].
  intros [= H]. auto.
Qed.

Lemma append_not_self (s t : string) : t <> "" -> s <> s +:+ t.
Proof.
  intros Ht H. apply Ht. apply (append_inv_head s).
  rewrite <- H. clear. induction s as [|c s IH]; cbn; congruence.
Qed.

Lemma user_check_run user u o :
  ensure_page urlopen user u o
  = if bool_decide (url o <> u) || bool_decide (user_page o = None)
    then __set_user_page urlopen user u o else (inr tt, o).
Proof.
  unfold ensure_page, bind, gets, id.
  now destruct (bool_decide (url o <> u) || bool_decide (user_page o = None)).
Qed.

(** After the check the URL asked for is the key, whatever happened. *)
Lemma user_check_frame user u o :
  let o' := snd (ensure_page urlopen user u o) in
  url o' = u
  /\ (requests o' = requests o
      \/ requests o' = requests o ++ [u]).
Proof.
  rewrite user_check_run.
  destruct (bool_decide (url o <> u)) eqn:E1; cbn [orb].
  - unfold __set_user_page.
    destruct (urlopen (requests o) u); cbn; auto.
  - apply bool_decide_eq_false in E1.
    destruct (bool_decide (user_page o = None)).
    + unfold __set_user_page. destruct (urlopen (requests o) u); cbn; auto.
    + cbn. split; [|auto]. destruct (decide (url o = u)); [auto|tauto].
Qed.

(** A check for a URL other than the key always sends a request. *)
Lemma user_check_other user u o :
  url o <> u ->
  requests (snd (ensure_page urlopen user u o)) = requests o ++ [u].
Proof.
  intros H. rewrite user_check_run.
  rewrite bool_decide_eq_true_2 by assumption. cbn [orb].
  unfold __set_user_page. now destruct (urlopen (requests o) u).
Qed.

(** A check that passes leaves a page resident. *)
Lemma user_check_resident user u o o' :
  ensure_page urlopen user u o = (inr tt, o') -> is_Some (user_page o').
Proof.
  rewrite user_check_run.
  destruct (bool_decide (url o <> u)) eqn:E1; cbn [orb].
  - unfold __set_user_page. destruct (urlopen (requests o) u);
      intros [= <-]; cbn; eauto.
  - destruct (bool_decide (user_page o = None)) eqn:E2.
    + unfold __set_user_page. destruct (urlopen (requests o) u);
        intros [= <-]; cbn; eauto.
    + apply bool_decide_eq_false in E2. intros [= <-].
      destruct (user_page o); [eauto | tauto].
Qed.

(** A check can only fail with what the request failed with. *)
Lemma user_check_fails user u o e o' :
  ensure_page urlopen user u o = (inl e, o') ->
  urlopen (requests o) u = inl e
  /\ o' = mkUserMethods user u (user_page o) (requests o ++ [u]).
Proof.
  rewrite user_check_run.
  destruct (bool_decide (url o <> u) || bool_decide (user_page o = None));
    [|discriminate].
  unfold __set_user_page. destruct (urlopen (requests o) u);
    intros [= <- <-]; auto.
Qed.

(** The accessors that read a text off the page: the check, then a pure
    function of the resident page. *)
Lemma text_accessor_run {A} user u (f : BS4.Node -> A) o :
  (ensure_page urlopen user u ;;;
   page <- resident_page ;; ret (f page)) o
  = match ensure_page urlopen user u o with
    | (inl e, o') => (inl e, o')
    | (inr _, o') =>
        match user_page o' with
        | Some page => (inr (f page), o')
        | None =>
            (inl (AttributeError "'NoneType' object has no attribute 'find'"),
             o')
        end
    end.
Proof.
  cbv [bind resident_page gets raise ret].
  destruct (ensure_page urlopen user u o) as [[e|[]] o']; [reflexivity|].
  destruct (user_page o'); reflexivity.
Qed.

Lemma text_accessor_state {A} user u (f : BS4.Node -> A) o :
  snd ((ensure_page urlopen user u ;;;
        page <- resident_page ;; ret (f page)) o)
  = snd (ensure_page urlopen user u o).
Proof.
  rewrite text_accessor_run.
  destruct (ensure_page urlopen user u o) as [[e|[]] o']; [reflexivity|].
  destruct (user_page o'); reflexivity.
Qed.

Lemma text_accessor_fails {A} user u (f : BS4.Node -> A) o e :
  fst ((ensure_page urlopen user u ;;;
        page <- resident_page ;; ret (f page)) o) = inl e ->
  urlopen (requests o) u = inl e.
Proof.
  rewrite text_accessor_run.
  destruct (ensure_page urlopen user u o) as [[e'|[]] o'] eqn:E.
  - cbn. intros [= ->]. now apply user_check_fails in E.
  - apply user_check_resident in E as [page Hpage]. rewrite Hpage.
    discriminate.
Qed.

(** X15.  The profile page and the page of the perfect scores of one user
    share the slot and evict each other: asking for the profile, then the
    perfect scores, then the profile again sends a request for each of the
    last two calls, whatever the site answers. *)
Theorem profile_and_listing_evict_each_other (user : string)
    (o : UserMethods) :
  let o1 := snd (user_about urlopen user o) in
  let o2 := snd (user_perfect_scores urlopen user o1) in
  let o3 := snd (user_about urlopen user o2) in
  requests o3
  = requests o1
      ++ [user_url +:+ user +:+ "/ratings/perfect/"; user_url +:+ user].
Proof.
  intros o1 o2 o3. subst o1 o2 o3.
  unfold user_about, user_perfect_scores. rewrite !text_accessor_state.
  set (u := user_url +:+ user).
  set (p := user_url +:+ user +:+ "/ratings/perfect/").
  assert (Hne : u <> p).
  { subst u p. intros H. apply append_inv_head in H.
    revert H. apply append_not_self. discriminate. }
  pose proof (user_check_frame user u o) as [Hu _]. cbv zeta in Hu.
  set (o1 := snd (ensure_page urlopen user u o)) in *.
  pose proof (user_check_frame user p o1) as [Hp _]. cbv zeta in Hp.
  rewrite user_check_other by (rewrite Hp; congruence).
  rewrite user_check_other by (rewrite Hu; exact Hne).
  now rewrite <- app_assoc.
Qed.

(** X16.  A failed fetch leaves the new user and URL as the key and keeps
    the page that was resident.  With no page resident the next call for
    the same user sends the request again; with the page of another user
    resident it sends none and answers from that page. *)
Theorem failed_fetch_then_same_user (user : string) (o : UserMethods)
    (e : exn) :
  url o <> user_url +:+ user \/ user_page o = None ->
  urlopen (requests o) (user_url +:+ user) = inl e ->
  let u := user_url +:+ user in
  let o1 := mkUserMethods user u (user_page o) (requests o ++ [u]) in
  user_about urlopen user o = (inl e, o1)
  /\ match user_page o with
     | Some old =>
         user_about urlopen user o1
         = (inr (text_or_empty "aboutUser" old), o1)
     | None =>
         requests (snd (user_about urlopen user o1)) = requests o ++ [u; u]
     end.
Proof.
  intros Hmiss He u o1. unfold user_about. fold u.
  assert (Hfirst : ensure_page urlopen user u o = (inl e, o1)).
  { rewrite user_check_run.
    assert (bool_decide (url o <> u) || bool_decide (user_page o = None)
            = true) as ->.
    { apply orb_true_iff.
      destruct Hmiss; [left | right]; now apply bool_decide_eq_true_2. }
    unfold __set_user_page. fold u in He. now rewrite He. }
  split.
  - now rewrite text_accessor_run, Hfirst.
  - destruct (user_page o) as [old|] eqn:Hold.
    + rewrite text_accessor_run. subst u.
      rewrite (user_page_check_hit urlopen user o1 old) by reflexivity.
      reflexivity.
    + rewrite text_accessor_state, user_check_run.
      subst o1. cbn [url user_page requests].
      rewrite (bool_decide_eq_true_2 (None = None)) by reflexivity.
      rewrite orb_true_r. unfold __set_user_page. cbn [requests].
      rewrite <- app_assoc.
      now destruct (urlopen ((requests o ++ [u])) u).
Qed.

(** X17.  The four accessors that read a text or a list off the page raise
    only what their own request raised: a missing element gives the empty
    answer, never an exception. *)
Theorem text_accessors_fail_only_on_fetch (user : string) (o : UserMethods)
    (e : exn) :
  (fst (user_about urlopen user o) = inl e ->
     urlopen (requests o) (user_url +:+ user) = inl e)
  /\ (fst (user_ratings urlopen user o) = inl e ->
        urlopen (requests o) (user_url +:+ user) = inl e)
  /\ (fst (user_perfect_scores urlopen user o) = inl e ->
        urlopen (requests o) (user_url +:+ user +:+ "/ratings/perfect/")
        = inl e)
  /\ (fst (user_liked_music urlopen user o) = inl e ->
        urlopen (requests o) (user_url +:+ user +:+ "/liked/albums/")
        = inl e).
Proof.
  unfold user_about, user_ratings, user_perfect_scores, user_liked_music.
  repeat split; apply text_accessor_fails.
Qed.

Lemma liked_loop_fold liked_music : forall result,
  fold_left
    (fun result entry =>
       match liked_entry entry with
       | Some combined => result ++ [combined]
       | None => result
       end)
    liked_music result
  = result ++ omap liked_entry liked_music.
Proof.
  induction liked_music as [|entry l IH]; intros result; cbn [fold_left].
  - cbn. now rewrite app_nil_r.
  - rewrite IH. cbn [omap list_omap].
    destruct (liked_entry entry); [now rewrite <- app_assoc | reflexivity].
Qed.

Lemma liked_entry_not_empty entry s : liked_entry entry = Some s -> s <> "".
Proof.
  unfold liked_entry.
  destruct (liked_field "artistTitle" entry) as [|c artist];
    destruct (liked_field "albumTitle" entry) as [|c' album];
    cbn; intros [= <-]; discriminate.
Qed.

(** X18.  The liked music is read block by block: each element of class
    "albumBlock" of the resident page gives at most one entry, in the order
    of the page, "artist: album" when both texts are there and the album
    alone when the artist is missing; a block without an album title gives
    none, so no entry is empty. *)
Theorem liked_music_entries (user : string) (o o' : UserMethods)
    (l : list string) :
  user_liked_music urlopen user o = (inr l, o') ->
  exists page,
    user_page o' = Some page
    /\ url o' = user_url +:+ user +:+ "/liked/albums/"
    /\ l = omap liked_entry (BS4.find_all (BS4.has_class "albumBlock") page)
    /\ Forall (fun s => s <> "") l
    /\ (length l
        <= length (BS4.find_all (BS4.has_class "albumBlock") page))%nat.
Proof.
  unfold user_liked_music. rewrite text_accessor_run.
  pose proof (user_check_frame user
                (user_url +:+ user +:+ "/liked/albums/") o) as [Hurl _].
  cbv zeta in Hurl.
  destruct (ensure_page urlopen user _ o) as [[e|[]] o1]; [discriminate|].
  cbn [snd] in Hurl.
  destruct (user_page o1) as [page|] eqn:Hpage; [|discriminate].
  intros [= <- <-]. exists page. split; [exact Hpage|]. split; [exact Hurl|].
  unfold liked_loop. rewrite liked_loop_fold. cbn [app].
  split; [reflexivity|]. split.
  - apply Forall_forall. intros s Hs.
    apply list_elem_of_omap in Hs as (entry & _ & Hentry).
    now apply liked_entry_not_empty in Hentry.
  - induction (BS4.find_all (BS4.has_class "albumBlock") page)
      as [|entry blocks IH]; [reflexivity|].
    cbn [omap list_omap length].
    destruct (liked_entry entry); cbn [length]; lia.
Qed.

Lemma count_accessor_run user sfx o :
  (ensure_page urlopen user (user_url +:+ user) ;;;
   page <- resident_page ;;
   u <- gets UserPy.user ;;
   lift (profile_stat ("/user/" +:+ u +:+ sfx) page)) o
  = match ensure_page urlopen user (user_url +:+ user) o with
    | (inl e, o') => (inl e, o')
    | (inr _, o') =>
        match user_page o' with
        | Some page =>
            (profile_stat ("/user/" +:+ UserPy.user o' +:+ sfx) page, o')
        | None =>
            (inl (AttributeError "'NoneType' object has no attribute 'find'"),
             o')
        end
    end.
Proof.
  cbv [bind resident_page gets raise ret lift].
  destruct (ensure_page urlopen user (user_url +:+ user) o) as [[e|[]] o'];
    [reflexivity|].
  destruct (user_page o'); reflexivity.
Qed.

(** X19.  One request serves the whole profile.  Once an accessor of the
    profile page has answered for a user, the other ones answer for that
    user from the resident page: they send no request and change nothing,
    the four counts being read at the link of the user the instance
    holds. *)
Theorem profile_is_fetched_once (user : string) (o o1 : UserMethods)
    (v : string) :
  user_about urlopen user o = (inr v, o1) ->
  exists page,
    user_page o1 = Some page
    /\ url o1 = user_url +:+ user
    /\ v = text_or_empty "aboutUser" page
    /\ user_about urlopen user o1 = (inr v, o1)
    /\ user_ratings urlopen user o1
       = (inr (text_or_empty "albumBlock" page), o1)
    /\ user_rating_count urlopen user o1
       = (profile_stat ("/user/" +:+ UserPy.user o1 +:+ "/ratings/") page, o1)
    /\ user_review_count urlopen user o1
       = (profile_stat ("/user/" +:+ UserPy.user o1 +:+ "/reviews/") page, o1)
    /\ user_list_count urlopen user o1
       = (profile_stat ("/user/" +:+ UserPy.user o1 +:+ "/lists/") page, o1)
    /\ user_follower_count urlopen user o1
       = (profile_stat ("/user/" +:+ UserPy.user o1 +:+ "/followers/") page,
          o1)
    /\ snd (user_rating_distribution urlopen user o1) = o1.
Proof.
  unfold user_about at 1. rewrite text_accessor_run.
  pose proof (user_check_frame user (user_url +:+ user) o) as [Hurl _].
  cbv zeta in Hurl.
  destruct (ensure_page urlopen user _ o) as [[e|[]] o'] eqn:Hcheck;
    [discriminate|].
  cbn [snd] in Hurl.
  destruct (user_page o') as [page|] eqn:Hpage; [|discriminate].
  intros [= <- <-]. exists page.
  pose proof (user_page_check_hit urlopen user o' page Hurl Hpage) as Hhit.
  split; [exact Hpage|]. split; [exact Hurl|]. split; [reflexivity|].
  unfold user_about, user_ratings, user_rating_count, user_review_count,
    user_list_count, user_follower_count.
  rewrite !text_accessor_run, !count_accessor_run, Hhit, Hpage.
  repeat (split; [reflexivity|]).
  unfold user_rating_distribution, bind, gets, lift. rewrite Hhit, Hpage.
  reflexivity.
Qed.

(** X20.  The JSON variants of the scalar accessors run the plain accessor
    once and wrap its answer: they leave the same instance, raise what it
    raises, and their text decodes to the one member they name. *)
Theorem user_json_variants_decode (user : string) (o : UserMethods) :
  match user_about urlopen user o, user_about_json urlopen user o with
  | (inr v, o1), (inr body, o2) =>
      o1 = o2 /\ loads_object body = Some [("about_user", v)]
  | (inl e1, o1), (inl e2, o2) => e1 = e2 /\ o1 = o2
  | _, _ => False
  end
  /\ match user_rating_count urlopen user o,
           user_rating_count_json urlopen user o with
     | (inr v, o1), (inr body, o2) =>
         o1 = o2 /\ loads_object body = Some [("ratings", v)]
     | (inl e1, o1), (inl e2, o2) => e1 = e2 /\ o1 = o2
     | _, _ => False
     end.
Proof.
  unfold user_about_json, user_rating_count_json, bind, ret. split.
  - destruct (user_about urlopen user o) as [[e|v] o1]; [auto|].
    split; [reflexivity | apply flat_dict_round_trip].
  - destruct (user_rating_count urlopen user o) as [[e|v] o1]; [auto|].
    split; [reflexivity | apply flat_dict_round_trip].
Qed.

Lemma distribution_loop_length indices tags : forall acc l,
  distribution_loop indices tags acc = inr l ->
  length l = (length acc + length indices)%nat.
Proof.
  induction indices as [|i indices IH]; intros acc l; cbn [distribution_loop].
  - intros [= <-]. cbn. lia.
  - destruct (getitem tags i); [|discriminate].
    destruct (rating_of _); [discriminate|].
    intros H. apply IH in H. rewrite length_app in H. cbn in *. lia.
Qed.

Lemma zip_JString (ks l : list string) :
  zip ks (map JString l) = map (fun kv => (fst kv, JString (snd kv))) (zip ks l).
Proof.
  revert l. induction ks as [|k ks IH]; intros [|v l]; cbn; [reflexivity..|].
  now rewrite IH.
Qed.

(** X21.  Whenever the rating distribution is returned it has eleven
    entries, so the dict literal of the JSON variant never indexes out of
    range: the variant raises only what the plain method raises, and its
    text decodes to the eleven score ranges, from "100" down to "0-9",
    each with the entry of its row. *)
Theorem user_rating_distribution_json_decodes (user : string)
    (o : UserMethods) :
  match user_rating_distribution urlopen user o,
        user_rating_distribution_json urlopen user o with
  | (inr l, o1), (inr body, o2) =>
      o1 = o2 /\ length l = 11%nat
      /\ loads_object body = Some (zip score_ranges l)
  | (inl e1, o1), (inl e2, o2) => e1 = e2 /\ o1 = o2
  | _, _ => False
  end.
Proof.
  assert (Hlen : forall l o1,
    user_rating_distribution urlopen user o = (inr l, o1) ->
    length l = 11%nat).
  { unfold user_rating_distribution, bind, gets, lift, raise. intros l o1.
    destruct (ensure_page urlopen user _ o) as [[e|[]] o']; [discriminate|].
    destruct (user_page o') as [page|]; [|discriminate].
    intros H.
    apply (distribution_loop_length (range 0 11)
             (BS4.find_all (BS4.has_class "distRow") page) [] l).
    now injection H. }
  unfold user_rating_distribution_json, bind, lift, ret.
  destruct (user_rating_distribution urlopen user o) as [[e|l] o1]; [auto|].
  specialize (Hlen l o1 eq_refl).
  rewrite distribution_dict_spec by assumption.
  split; [reflexivity|]. split; [assumption|].
  rewrite zip_JString. apply (flat_dict_round_trip (zip score_ranges l)).
Qed.

End UserMore.

Section UserMoreExamples.

Import UserPy.

Lemma failed_fetch_then_same_user_witness :
  let u := user_url +:+ "ana" in
  (let o := mkUserMethods "bob" (user_url +:+ "bob")
              (Some Samples.profile_page) [user_url +:+ "bob"] in
   let o1 := mkUserMethods "ana" u (Some Samples.profile_page)
               [user_url +:+ "bob"; u] in
   user_about Samples.offline "ana" o
   = (inl (URLError "[Errno 111] Connection refused"), o1)
   /\ user_about Samples.offline "ana" o1 = (inr "I rate records.", o1))
  /\ requests
       (snd (user_about Samples.offline "ana"
               (mkUserMethods "ana" u None [u])))
     = [u; u].
Proof.
  intros u. split.
  - intros o o1.
    destruct (failed_fetch_then_same_user Samples.offline "ana" o
                (URLError "[Errno 111] Connection refused"))
      as (H1 & H2).
    + left. vm_compute. discriminate.
    + reflexivity.
    + split; [exact H1 | exact H2].
  - destruct (failed_fetch_then_same_user Samples.offline "ana" init
                (URLError "[Errno 111] Connection refused"))
      as (_ & H2).
    + right. reflexivity.
    + reflexivity.
    + exact H2.
Defined.

Lemma text_accessors_fail_only_on_fetch_witness :
  Samples.offline [] (user_url +:+ "ana")
  = inl (URLError "[Errno 111] Connection refused")
  /\ Samples.offline [] (user_url +:+ "ana" +:+ "/liked/albums/")
     = inl (URLError "[Errno 111] Connection refused").
Proof.
  destruct (text_accessors_fail_only_on_fetch Samples.offline "ana" init
              (URLError "[Errno 111] Connection refused"))
    as (Habout & _ & _ & Hliked).
  split; [apply Habout | apply Hliked]; vm_compute; reflexivity.
Defined.

Lemma liked_music_entries_witness :
  exists page,
    page = Samples.profile_page
    /\ omap liked_entry (BS4.find_all (BS4.has_class "albumBlock") page)
       = ["Artist X: Album X"; "Untitled"]
    /\ length (BS4.find_all (BS4.has_class "albumBlock") page) = 3%nat.
Proof.
  destruct (liked_music_entries Samples.profile_site "ana" init
              (mkUserMethods "ana" (user_url +:+ "ana" +:+ "/liked/albums/")
                 (Some Samples.profile_page)
                 [user_url +:+ "ana" +:+ "/liked/albums/"])
              ["Artist X: Album X"; "Untitled"])
    as (page & Hpage & _ & Hl & _).
  - vm_compute. reflexivity.
  - exists page. cbn [user_page] in Hpage. injection Hpage as <-.
    split; [reflexivity|]. split; [now rewrite <- Hl|].
    vm_compute. reflexivity.
Defined.

Lemma profile_is_fetched_once_witness :
  let o1 := mkUserMethods "ana" (user_url +:+ "ana")
              (Some Samples.profile_page) [user_url +:+ "ana"] in
  user_rating_count Samples.profile_site "ana" o1 = (inr "120", o1)
  /\ user_ratings Samples.profile_site "ana" o1
     = (inr "Artist XAlbum XMar 10", o1).
Proof.
  intros o1.
  destruct (profile_is_fetched_once Samples.profile_site "ana" init o1
              "I rate records.")
    as (page & Hpage & _ & _ & _ & Hratings & Hcount & _).
  - vm_compute. reflexivity.
  - cbn [user_page o1] in Hpage. injection Hpage as <-.
    rewrite Hratings, Hcount. split; vm_compute; reflexivity.
Defined.

End UserMoreExamples.
